(** * pyunc: a shallow embedding of the UNC image reader

    The development follows [pyunc/__init__.py]: the address table and the
    fixed-width section readers, the pixel reader, the info-section parser,
    [num_echoes], [split_echoes] and [split_volumes].

    Python integers are [Z]; bytes are [Byte.byte]; [str] is [string];
    exceptions are values of [exn] carried by the [result] type; a file
    object is its contents together with the current position. *)

From Stdlib Require Import ZArith List String Ascii Lia Sorted Permutation.
From Stdlib Require Import Strings.Byte.
From stdpp Require Import gmap strings list.

Local Open Scope string_scope.
Local Open Scope list_scope.
Local Open Scope Z_scope.

(** ** Exceptions and results *)

(** The exception classes the module can raise: all of them come from the
    Python runtime, [struct] or NumPy; the module defines none of its own. *)
Inductive exn : Type :=
  | StructError          (* struct.error *)
  | ValueError
  | IndexError
  | KeyError
  | UnicodeDecodeError
  | ZeroDivisionError
  | OSError
  | MemoryError
  | OverflowError.

Definition exn_name (e : exn) : string :=
  match e with
  | StructError => "struct.error"
  | ValueError => "ValueError"
  | IndexError => "IndexError"
  | KeyError => "KeyError"
  | UnicodeDecodeError => "UnicodeDecodeError"
  | ZeroDivisionError => "ZeroDivisionError"
  | OSError => "OSError"
  | MemoryError => "MemoryError"
  | OverflowError => "OverflowError"
  end.

Inductive result (A : Type) : Type :=
  | Ok (a : A)
  | Raise (e : exn).
Arguments Ok {A} a.
Arguments Raise {A} e.

Definition bindR {A B} (m : result A) (k : A -> result B) : result B :=
  match m with
  | Ok a => k a
  | Raise e => Raise e
  end.

Notation "x <-- m ;; k" := (bindR m (fun x => k))
  (at level 100, m at next level, right associativity).

Definition is_ok {A} (r : result A) : bool :=
  match r with Ok _ => true | Raise _ => false end.

(** Sequencing a list of fallible steps, left to right (a [for] loop whose
    body may raise). *)
Fixpoint foldM {A S} (step : S -> A -> result S) (l : list A) (s : S) : result S :=
  match l with
  | [] => Ok s
  | x :: l' => s' <-- step s x ;; foldM step l' s'
  end.

Fixpoint mapM {A B} (f : A -> result B) (l : list A) : result (list B) :=
  match l with
  | [] => Ok []
  | x :: l' => y <-- f x ;; ys <-- mapM f l' ;; Ok (y :: ys)
  end.

(** [range(n)] and [range(a, b)] *)
Definition range (n : Z) : list Z := map Z.of_nat (seq 0 (Z.to_nat n)).
Definition range2 (a b : Z) : list Z := map (fun k => a + Z.of_nat k) (seq 0 (Z.to_nat (b - a))).

(** [t[i]] on a tuple or list: a negative index counts from the end. *)
Definition index {A} (l : list A) (i : Z) : result A :=
  let j := if i <? 0 then i + Z.of_nat (length l) else i in
  if j <? 0 then Raise IndexError
  else match nth_error l (Z.to_nat j) with
       | Some x => Ok x
       | None => Raise IndexError
       end.

(** [t[0:stop]]: a negative [stop] counts from the end, and both ends are
    clamped to the sequence. *)
Definition slice_to {A} (l : list A) (stop : Z) : list A :=
  if stop <? 0 then firstn (Z.to_nat (Z.of_nat (length l) + stop)) l
  else firstn (Z.to_nat stop) l.

(** [l[0::step]] for a positive step. *)
Fixpoint stride_from {A} (skip : nat) (step : nat) (l : list A) : list A :=
  match l with
  | [] => []
  | x :: l' =>
      match skip with
      | O => x :: stride_from (Nat.pred step) step l'
      | S k => stride_from k step l'
      end
  end.

Definition slice_step {A} (l : list A) (step : Z) : result (list A) :=
  if step =? 0 then Raise ValueError
  else if step <? 0 then
    (* l[0::-k] starts at index 0 and walks down: only l[0] is selected *)
    Ok (firstn 1 l)
  else Ok (stride_from 0 (Z.to_nat step) l).

(** ** Bytes, [struct.unpack] and ASCII text *)

Definition byte_val (b : byte) : Z := Z.of_N (Byte.to_N b).

Definition be_unsigned (bs : list byte) : Z :=
  fold_left (fun acc b => acc * 256 + byte_val b) bs 0.

(** Two's complement value of a big-endian field of [length bs] bytes. *)
Definition be_signed (bs : list byte) : Z :=
  let u := be_unsigned bs in
  let w := 8 * Z.of_nat (length bs) in
  if u <? 2 ^ (w - 1) then u else u - 2 ^ w.

(** Cut a byte string into consecutive items of [sz] bytes; a trailing
    partial item is dropped. *)
Fixpoint chunks (sz : nat) (n : nat) (bs : list byte) : list (list byte) :=
  match n with
  | O => []
  | S n' => firstn sz bs :: chunks sz n' (skipn sz bs)
  end.

(** [struct.unpack('>Ni', bs)]: the buffer must have exactly [4 * N] bytes. *)
Definition unpack_be_i32 (n : nat) (bs : list byte) : result (list Z) :=
  if Nat.eqb (length bs) (4 * n) then Ok (map be_signed (chunks 4 n bs))
  else Raise StructError.

(** [struct.unpack('>Ns', bs)[0]]: the buffer must have exactly [N] bytes. *)
Definition unpack_s (n : nat) (bs : list byte) : result (list byte) :=
  if Nat.eqb (length bs) n then Ok bs else Raise StructError.

(** [bs.decode('ascii')] *)
Definition decode_ascii (bs : list byte) : result string :=
  if forallb (fun b => byte_val b <? 128) bs then Ok (string_of_list_byte bs)
  else Raise UnicodeDecodeError.

Definition NUL : ascii := Ascii.zero.

(** [s.split(sep)] for a one-character separator: always at least one piece. *)
Fixpoint py_split (sep : ascii) (s : string) : list string :=
  match s with
  | EmptyString => [EmptyString]
  | String c r =>
      if Ascii.eqb c sep then EmptyString :: py_split sep r
      else match py_split sep r with
           | p :: ps => String c p :: ps
           | [] => [String c EmptyString]
           end
  end.

(** [s.split(sep, maxsplit)]: after [maxsplit] cuts the rest is one piece. *)
Fixpoint py_split_max (sep : ascii) (maxsplit : nat) (s : string) : list string :=
  match s with
  | EmptyString => [EmptyString]
  | String c r =>
      if Ascii.eqb c sep then
        match maxsplit with
        | O => [s]
        | S m => EmptyString :: py_split_max sep m r
        end
      else match py_split_max sep maxsplit r with
           | p :: ps => String c p :: ps
           | [] => [String c EmptyString]
           end
  end.

(** The part of [s] before its first [sep], all of [s] when there is none. *)
Fixpoint before_first (sep : ascii) (s : string) : string :=
  match s with
  | EmptyString => EmptyString
  | String c r => if Ascii.eqb c sep then EmptyString else String c (before_first sep r)
  end.

(** ** File objects *)

Record file : Type := { contents : list byte; position : nat }.

Definition FileM (A : Type) : Type := file -> result (A * file).

Definition retF {A} (a : A) : FileM A := fun f => Ok (a, f).
Definition bindF {A B} (m : FileM A) (k : A -> FileM B) : FileM B :=
  fun f => match m f with
           | Ok (a, f') => k a f'
           | Raise e => Raise e
           end.
Definition liftF {A} (r : result A) : FileM A :=
  fun f => match r with Ok a => Ok (a, f) | Raise e => Raise e end.

Notation "x <- m ;; k" := (bindF m (fun x => k))
  (at level 100, m at next level, right associativity).
Notation "m ;;; k" := (bindF m (fun _ => k))
  (at level 100, right associativity).

(** [f.seek(off, os.SEEK_SET)]: a negative offset is refused by the
    operating system; seeking past the end is allowed. *)
Definition seek_set (off : Z) : FileM unit :=
  fun f => if off <? 0 then Raise OSError
           else Ok (tt, {| contents := contents f; position := Z.to_nat off |}).

(** [f.seek(0, os.SEEK_END)] *)
Definition seek_end : FileM unit :=
  fun f => Ok (tt, {| contents := contents f; position := length (contents f) |}).

(** [f.tell()] *)
Definition tell : FileM Z := fun f => Ok (Z.of_nat (position f), f).

(** [f.read(n)]: at most [n] bytes, fewer at the end of the file; [-1]
    reads to the end; any other negative size is a [ValueError]. *)
Definition read (n : Z) : FileM (list byte) :=
  fun f =>
    if n <? -1 then Raise ValueError
    else
      let rest := skipn (position f) (contents f) in
      let bs := if n =? -1 then rest else firstn (Z.to_nat n) rest in
      Ok (bs, {| contents := contents f; position := (position f + length bs)%nat |}).

(** ** NumPy arrays

    An array is its element type, its shape and its elements in row-major
    (C) order, NumPy's default layout.  Samples are integers; a [float64]
    element that holds an integer sample is represented by that integer
    (every 16-bit integer is exactly representable in [float64]). *)

Inductive dtype : Type :=
  | Int16BE    (* np.dtype('>i2') *)
  | Float64.   (* the default of np.ndarray *)

Record ndarray : Type := { dtype_of : dtype; shape : list nat; data : list Z }.

Definition prodn (l : list nat) : nat := fold_right Nat.mul 1%nat l.
Definition prodZ (l : list Z) : Z := fold_right Z.mul 1 l.

Definition nd_size (a : ndarray) : nat := prodn (shape a).

(** The invariant NumPy maintains: as many elements as the shape says. *)
Definition nd_wf (a : ndarray) : Prop := length (data a) = prodn (shape a).

(** Row-major offset of a multi-index (Horner's rule over the axes), and
    element access [a[i0, i1, ...]] with one index per axis. *)
Definition nd_offset (sh : list nat) (idx : list nat) : nat :=
  fold_left (fun off p => (off * fst p + snd p)%nat) (combine sh idx) 0%nat.

Definition nd_get (a : ndarray) (idx : list nat) : option Z :=
  if Nat.eqb (length idx) (length (shape a)) && forallb (fun p => Nat.ltb (snd p) (fst p)) (combine (shape a) idx)
  then nth_error (data a) (nd_offset (shape a) idx)
  else None.

(** The largest value of NumPy's index type [intp], on a 64-bit platform. *)
Definition MAX_INTP : Z := 2 ^ 63 - 1.

(** The size test of NumPy's array constructor: the item size times the
    extents must not overflow [intp].  The constructor multiplies the
    extents one by one and skips those that are 0, so a shape with a zero
    extent is refused as well when its other extents are too large. *)
Definition np_fits (itemsize : Z) (sh : list Z) : bool :=
  itemsize * prodZ (List.filter (fun d => negb (d =? 0)) sh) <=? MAX_INTP.

(** What creating an array of item size [itemsize] and shape [sh] checks,
    in this order: a negative extent and a size beyond [intp] are refused
    with [ValueError] (an extent outside the range of [intp] falls under one
    of the two), then the block is requested from the allocator, and
    [MemoryError] is raised when the request is refused.  Whether a request
    is granted depends on the machine: [can_alloc itemsize sh] tells. *)
Definition np_new (can_alloc : Z -> list Z -> bool) (itemsize : Z) (sh : list Z)
  : result unit :=
  if existsb (fun d => d <? 0) sh then Raise ValueError
  else if negb (np_fits itemsize sh) then Raise ValueError
  else if negb (can_alloc itemsize sh) then Raise MemoryError
  else Ok tt.

(** [np.fromfile(f, dtype='>i2', count=count)].  [count] is converted to a
    C [ssize_t], with [OverflowError] outside its range.  A negative
    [count] stands for the number of whole items between the current
    position and the end of the file, a negative number after a seek far
    past the end.  The array for that many items is created before
    anything is read, with the checks of [np_new]; then the items are read,
    and when fewer are left in the file the array is simply shorter
    (shrinking the block does not fail). *)
Definition np_fromfile_i2 (can_alloc : Z -> list Z -> bool) (count : Z) : FileM ndarray :=
  fun f =>
    if (count <? - 2 ^ 63) || (2 ^ 63 <=? count) then Raise OverflowError
    else
      let left := Z.of_nat (length (contents f)) - Z.of_nat (position f) in
      let num := if count <? 0 then Z.quot left 2 else count in
      match np_new can_alloc 2 [num] with
      | Raise e => Raise e
      | Ok _ =>
          let rest := skipn (position f) (contents f) in
          let avail := (length rest / 2)%nat in
          let n := Nat.min (Z.to_nat num) avail in
          Ok ({| dtype_of := Int16BE; shape := [n]; data := map be_signed (chunks 2 n rest) |},
              {| contents := contents f; position := (position f + 2 * n)%nat |})
      end.

(** [np.reshape(a, newshape)]: at most one entry of [newshape] may be
    negative, and it is then inferred from the size of [a]; otherwise the
    sizes must agree. *)
Definition np_reshape (a : ndarray) (newshape : list Z) : result ndarray :=
  let size := Z.of_nat (nd_size a) in
  let known := prodZ (List.filter (fun d => 0 <=? d) newshape) in
  match List.filter (fun d => d <? 0) newshape with
  | [] =>
      if known =? size
      then Ok {| dtype_of := dtype_of a; shape := map Z.to_nat newshape; data := data a |}
      else Raise ValueError
  | [_] =>
      if (known =? 0) || negb (size mod known =? 0) then Raise ValueError
      else Ok {| dtype_of := dtype_of a;
                 shape := map (fun d => if d <? 0 then Z.to_nat (size / known) else Z.to_nat d) newshape;
                 data := data a |}
  | _ => Raise ValueError
  end.

(** [np.ndarray(shape)]: a fresh [float64] array, of 8 bytes an element,
    created with the checks of [np_new]; its elements are whatever the
    allocator left there, here [uninit]. *)
Definition np_ndarray (can_alloc : Z -> list Z -> bool) (uninit : nat -> Z) (sh : list Z)
  : result ndarray :=
  _ <-- np_new can_alloc 8 sh ;;
  let shn := map Z.to_nat sh in
  Ok {| dtype_of := Float64; shape := shn; data := map uninit (seq 0 (prodn shn)) |}.

(** Bounds of the Python slice [start:stop] on an axis of length [len]. *)
Definition slice_bound (len : nat) (x : Z) : nat :=
  if x <? 0 then Z.to_nat (Z.max 0 (x + Z.of_nat len)) else Nat.min (Z.to_nat x) len.

(** [a[start:stop, :, :]]: three index entries, so at least three axes. *)
Definition nd_getslice3 (a : ndarray) (start stop : Z) : result ndarray :=
  match shape a with
  | d0 :: ((_ :: _ :: _) as rest) =>
      let s := slice_bound d0 start in
      let e := slice_bound d0 stop in
      let rows := (e - s)%nat in
      let row := prodn rest in
      Ok {| dtype_of := dtype_of a; shape := rows :: rest;
            data := firstn (rows * row) (skipn (s * row) (data a)) |}
  | _ => Raise IndexError
  end.

(** Assignment broadcasting.  NumPy first drops leading axes of extent 1
    from a source that has more axes than the destination, then aligns the
    shapes on the right; a source extent must equal the destination's or
    be 1, in which case the elements are repeated. *)
Fixpoint strip_ones (k : nat) (s : list nat) : list nat :=
  match k, s with
  | S k', d :: s' => if Nat.eqb d 1 then strip_ones k' s' else s
  | _, _ => s
  end.

Fixpoint compat (src tgt : list nat) : bool :=
  match src, tgt with
  | [], [] => true
  | s :: ss, t :: ts => (Nat.eqb s t || Nat.eqb s 1) && compat ss ts
  | _, _ => false
  end.

Fixpoint bcast_data (src tgt : list nat) (d : list Z) : list Z :=
  match src, tgt with
  | s :: ss, t :: ts =>
      if Nat.eqb s t
      then flat_map (fun k => bcast_data ss ts (firstn (prodn ss) (skipn (k * prodn ss) d))) (seq 0 t)
      else flat_map (fun _ => bcast_data ss ts d) (seq 0 t)
  | _, _ => d
  end.

Definition broadcast_to (src : ndarray) (tgt : list nat) : result (list Z) :=
  let s1 := strip_ones (length (shape src) - length tgt) (shape src) in
  let s2 := repeat 1%nat (length tgt - length s1) ++ s1 in
  if compat s2 tgt then Ok (bcast_data s2 tgt (data src)) else Raise ValueError.

(** [a[i, :, :, :] = src]: four index entries on a 4-axis array; the
    elements of [src] are converted to the element type of [a]. *)
Definition nd_setblock (a : ndarray) (i : Z) (src : ndarray) : result ndarray :=
  match shape a with
  | n :: ((_ :: _ :: _ :: _) as sub) =>
      if (i <? 0) || (Z.of_nat n <=? i) then Raise IndexError
      else
        let bs := prodn sub in
        let k := Z.to_nat i in
        blk <-- broadcast_to src sub ;;
        Ok {| dtype_of := dtype_of a; shape := shape a;
              data := firstn (k * bs) (data a) ++ blk ++ skipn ((k + 1) * bs) (data a) |}
  | _ => Raise IndexError
  end.

(** [a[i, :, :, :]] *)
Definition nd_getblock (a : ndarray) (i : Z) : result ndarray :=
  match shape a with
  | n :: ((_ :: _ :: _ :: _) as sub) =>
      if (i <? 0) || (Z.of_nat n <=? i) then Raise IndexError
      else
        let bs := prodn sub in
        Ok {| dtype_of := dtype_of a; shape := sub;
              data := firstn bs (skipn (Z.to_nat i * bs) (data a)) |}
  | _ => Raise IndexError
  end.

(** [int(a / b)] on integers: true division, then truncation towards zero.
    For the magnitudes that occur (array extents) the quotient is exact
    enough that the result is the truncated integer quotient. *)
Definition int_truediv (a b : Z) : result Z :=
  if b =? 0 then Raise ZeroDivisionError else Ok (Z.quot a b).

(** ** Python values, dictionaries and sorting *)

(** The values a text-record parser stores in [dicom_header]: integers and
    strings.  Python's [==] and [hash] on them are structural, and a string
    never equals an integer. *)
Inductive pyval : Type :=
  | VInt (n : Z)
  | VStr (s : string).

#[global] Instance pyval_eq_dec : EqDecision pyval.
Proof. solve_decision. Defined.

#[global] Instance pyval_countable : Countable pyval.
Proof.
  refine (inj_countable'
            (fun v => match v with VInt n => inl n | VStr s => inr s end)
            (fun x => match x with inl n => VInt n | inr s => VStr s end) _).
  intros []; reflexivity.
Defined.

(** [d[k]] and [d.get(k, dflt)] *)
Definition dict_getitem (d : gmap string pyval) (k : string) : result pyval :=
  match d !! k with
  | Some v => Ok v
  | None => Raise KeyError
  end.

Definition dict_get (d : gmap string pyval) (k : string) (dflt : pyval) : pyval :=
  match d !! k with
  | Some v => v
  | None => dflt
  end.

(** [[x for x in l if p(x)]] where the test may raise. *)
Fixpoint filterM {A} (p : A -> result bool) (l : list A) : result (list A) :=
  match l with
  | [] => Ok []
  | x :: l' =>
      b <-- p x ;;
      r <-- filterM p l' ;;
      Ok (if b then x :: r else r)
  end.

(** [l.sort(key=key)]: Python's sort is stable and compares keys with [<]
    only.  On keys that [<] orders consistently every stable sort returns
    the same list, so the sort is modelled by stable insertion. *)
Section Sort.
Context {A K : Type} (ltb : K -> K -> bool) (key : A -> K).

Fixpoint insert_by (x : A) (l : list A) : list A :=
  match l with
  | [] => [x]
  | y :: l' => if ltb (key y) (key x) then y :: insert_by x l' else x :: y :: l'
  end.

Definition sort_by (l : list A) : list A := fold_right insert_by [] l.
End Sort.

(** ** The module's constants *)

Definition MAXMIN : Z := 0.
Definition HISTO : Z := 1.
Definition TITLE : Z := 2.
Definition PIXEL_FORMAT : Z := 3.
Definition DIMC : Z := 4.
Definition DIMV : Z := 5.
Definition PIXELS : Z := 6.
Definition INFO : Z := 7.
Definition VERSION : Z := 8.

(** The [SIZES] dictionary, looked up with literal keys only. *)
Definition SIZES (k : string) : Z :=
  if String.eqb k "title" then 81
  else if String.eqb k "validmaxmin" then 4
  else if String.eqb k "maxmin" then 8
  else if String.eqb k "validhistogram" then 4
  else if String.eqb k "histogram" then 4096
  else if String.eqb k "pixelformat" then 4
  else if String.eqb k "dimc" then 4
  else if String.eqb k "dimv" then 40
  else 0.

(** ** The [UNCFile] class *)

Section UNC.
(** The record parsers of [pyunc/header.py] are collaborators: [UNCHeader]
    builds the global header from a record, [SliceHeader] builds a slice
    record that exposes [slice_location] and the [dicom_header] mapping.
    [loc_ltb] is [<] on slice locations; [uninit] is the content of
    freshly allocated array memory, and [can_alloc] tells which array
    blocks the allocator of the machine grants. *)
Context {HeaderT Loc : Type}.
Variable can_alloc : Z -> list Z -> bool.
Variable loc_ltb : Loc -> Loc -> bool.

Record SliceHeaderT : Type :=
  { slice_location : Loc; dicom_header : gmap string pyval }.

Variable UNCHeader : string -> result HeaderT.
Variable SliceHeader : string -> result SliceHeaderT.
Variable uninit : nat -> Z.

(** The attributes only [from_file] assigns. *)
Record Decoded : Type :=
  { addresses : list Z;
    title : string;
    valid_maxmin : bool;
    min : Z;
    max : Z;
    valid_histogram : bool;
    histogram : list Z;
    pixel_format : Z;
    pixel_count : Z;
    info : list string }.

(** An [UNCFile] object.  [split_echoes] and [split_volumes] build their
    results attribute by attribute and assign only the first five, so the
    remaining attributes are present ([Some]) on decoded objects only. *)
Record UNCFile : Type :=
  { header : HeaderT;
    dimc : Z;
    dimv : list Z;
    slice_info : list SliceHeaderT;
    pixels : ndarray;
    decoded : option Decoded }.

Definition _read_addresses : FileM (list Z) :=
  seek_set 0 ;;;
  bs <- read 36 ;;
  liftF (unpack_be_i32 9 bs).

Definition _read_title (addresses : list Z) : FileM string :=
  a <- liftF (index addresses TITLE) ;;
  seek_set a ;;;
  bs <- read (SIZES "title") ;;
  raw <- liftF (unpack_s 81 bs) ;;
  title_field <- liftF (decode_ascii raw) ;;
  liftF (index (py_split_max NUL 1 title_field) 0).

Definition _read_maxmin (addresses : list Z) : FileM (bool * Z * Z) :=
  a <- liftF (index addresses MAXMIN) ;;
  seek_set a ;;;
  bs <- read (SIZES "validmaxmin") ;;
  flag <- liftF (v <-- unpack_be_i32 1 bs ;; index v 0) ;;
  bs' <- read (SIZES "maxmin") ;;
  maxmin <- liftF (unpack_be_i32 2 bs') ;;
  match maxmin with
  | [mn; mx] => retF (flag =? 1, mn, mx)
  | _ => liftF (Raise ValueError)
  end.

Definition _read_histogram (addresses : list Z) : FileM (bool * list Z) :=
  a <- liftF (index addresses HISTO) ;;
  seek_set a ;;;
  bs <- read (SIZES "validhistogram") ;;
  flag <- liftF (v <-- unpack_be_i32 1 bs ;; index v 0) ;;
  bs' <- read (SIZES "histogram") ;;
  h <- liftF (unpack_be_i32 1024 bs') ;;
  retF (flag =? 1, h).

Definition _read_pixel_format (addresses : list Z) : FileM Z :=
  a <- liftF (index addresses PIXEL_FORMAT) ;;
  seek_set a ;;;
  bs <- read (SIZES "pixelformat") ;;
  liftF (v <-- unpack_be_i32 1 bs ;; index v 0).

Definition _read_dimc (addresses : list Z) : FileM Z :=
  a <- liftF (index addresses DIMC) ;;
  seek_set a ;;;
  bs <- read (SIZES "dimc") ;;
  liftF (v <-- unpack_be_i32 1 bs ;; index v 0).

Definition _read_dimv (addresses : list Z) : FileM (list Z) :=
  a <- liftF (index addresses DIMV) ;;
  seek_set a ;;;
  bs <- read (SIZES "dimv") ;;
  liftF (unpack_be_i32 10 bs).

Definition _calculate_pixel_count (dimc : Z) (dimv : list Z) : result Z :=
  foldM (fun pixel_count i => d <-- index dimv i ;; Ok (pixel_count * d)) (range dimc) 1.

Definition _read_info (addresses dimv : list Z)
  : FileM (list string * HeaderT * list SliceHeaderT) :=
  seek_end ;;;
  cnt <- tell ;;
  a <- liftF (index addresses INFO) ;;
  let info_len := cnt - a in
  seek_set a ;;;
  bs <- read info_len ;;
  info_field <- liftF (decode_ascii bs) ;;
  let info := List.filter (fun i => negb (String.eqb i "")) (py_split NUL info_field) in
  i0 <- liftF (index info 0) ;;
  header <- liftF (UNCHeader i0) ;;
  d0 <- liftF (index dimv 0) ;;
  slice_info <- liftF (mapM (fun i => r <-- index info i ;; SliceHeader r) (range2 1 (d0 + 1))) ;;
  retF (info, header, sort_by loc_ltb slice_location slice_info).

Definition _read_pixels (addresses : list Z) (pixel_count dimc : Z) (dimv : list Z)
  : FileM ndarray :=
  a <- liftF (index addresses PIXELS) ;;
  seek_set a ;;;
  lin_pixels <- np_fromfile_i2 can_alloc pixel_count ;;
  liftF (np_reshape lin_pixels (slice_to dimv dimc)).

Definition from_file_steps : FileM UNCFile :=
  addresses <- _read_addresses ;;
  title <- _read_title addresses ;;
  mm <- _read_maxmin addresses ;;
  hh <- _read_histogram addresses ;;
  pixel_format <- _read_pixel_format addresses ;;
  dimc <- _read_dimc addresses ;;
  dimv <- _read_dimv addresses ;;
  pixel_count <- liftF (_calculate_pixel_count dimc dimv) ;;
  ii <- _read_info addresses dimv ;;
  pixels <- _read_pixels addresses pixel_count dimc dimv ;;
  retF {| header := snd (fst ii);
          dimc := dimc;
          dimv := dimv;
          slice_info := snd ii;
          pixels := pixels;
          decoded := Some {| addresses := addresses;
                             title := title;
                             valid_maxmin := fst (fst mm);
                             min := snd (fst mm);
                             max := snd mm;
                             valid_histogram := fst hh;
                             histogram := snd hh;
                             pixel_format := pixel_format;
                             pixel_count := pixel_count;
                             info := fst (fst ii) |} |}.

(** [UNCFile.from_file(f)]: the object is returned only when every reader
    has run; an exception leaves nothing behind. *)
Definition from_file (f : file) : result UNCFile :=
  match from_file_steps f with
  | Ok (uf, _) => Ok uf
  | Raise e => Raise e
  end.

Definition echo_number_or_0 (s : SliceHeaderT) : pyval :=
  dict_get (dicom_header s) "Echo Number" (VInt 0).

Definition num_echoes (uf : UNCFile) : Z :=
  Z.of_nat (size (list_to_set (map echo_number_or_0 (slice_info uf)) : gset pyval)).

Definition split_echoes (uf : UNCFile) : result (list UNCFile) :=
  shape0 <-- index (shape (pixels uf)) 0 ;;
  slices_per_echo <-- int_truediv (Z.of_nat shape0) (num_echoes uf) ;;
  shape1 <-- index (shape (pixels uf)) 1 ;;
  shape2 <-- index (shape (pixels uf)) 2 ;;
  fresh <-- np_ndarray can_alloc uninit [num_echoes uf; slices_per_echo; Z.of_nat shape1; Z.of_nat shape2] ;;
  split_pixels <-- foldM (fun split_pixels i =>
      let start_slice := slices_per_echo * i in
      let end_slice := slices_per_echo * i + slices_per_echo in
      src <-- nd_getslice3 (pixels uf) start_slice end_slice ;;
      nd_setblock split_pixels i src) (range (num_echoes uf)) fresh ;;
  mapM (fun n =>
      si <-- filterM (fun s => v <-- dict_getitem (dicom_header s) "Echo Number" ;;
                               Ok (bool_decide (v = VInt (n + 1)))) (slice_info uf) ;;
      px <-- nd_getblock split_pixels n ;;
      Ok {| header := header uf; dimc := dimc uf; dimv := dimv uf;
            slice_info := si; pixels := px; decoded := None |}) (range (num_echoes uf)).

Definition split_volumes (uf : UNCFile) (n_vols : Z) : result (list UNCFile) :=
  shape0 <-- index (shape (pixels uf)) 0 ;;
  slices_per_vol <-- int_truediv (Z.of_nat shape0) n_vols ;;
  shape1 <-- index (shape (pixels uf)) 1 ;;
  shape2 <-- index (shape (pixels uf)) 2 ;;
  fresh <-- np_ndarray can_alloc uninit [n_vols; slices_per_vol; Z.of_nat shape1; Z.of_nat shape2] ;;
  split_pixels <-- foldM (fun split_pixels i =>
      let start_slice := slices_per_vol * i in
      let end_slice := slices_per_vol * i + slices_per_vol in
      src <-- nd_getslice3 (pixels uf) start_slice end_slice ;;
      nd_setblock split_pixels i src) (range n_vols) fresh ;;
  mapM (fun n =>
      si <-- slice_step (slice_info uf) n_vols ;;
      px <-- nd_getblock split_pixels n ;;
      Ok {| header := header uf; dimc := dimc uf; dimv := dimv uf;
            slice_info := si; pixels := px; decoded := None |}) (range n_vols).

End UNC.

(** ** Sample collaborators and sample files *)

Module Samples.

(** A toy record format: the first character is the slice location, the
    second, when there is one, a digit giving the echo number. *)
Definition code (c : ascii) : Z := Z.of_N (N_of_ascii c).

Definition sample_UNCHeader (s : string) : result string := Ok s.

Definition sample_SliceHeader (s : string) : result (@SliceHeaderT Z) :=
  match s with
  | String a (String b _) =>
      Ok {| slice_location := code a;
            dicom_header := {[ "Echo Number" := VInt (code b - 48) ]} |}
  | String a EmptyString =>
      Ok {| slice_location := code a; dicom_header := ∅ |}
  | EmptyString => Raise ValueError
  end.

Definition zero_mem (_ : nat) : Z := 0.

(** An allocator that grants the blocks of at most 4 GiB, and one that has
    nothing left to grant. *)
Definition sample_alloc (itemsize : Z) (sh : list Z) : bool :=
  itemsize * prodZ sh <=? 2 ^ 32.


(** Big-endian two's complement encoding on [w] bytes. *)
Fixpoint enc_unsigned (w : nat) (v : Z) (acc : list byte) : list byte :=
  match w with
  | O => acc
  | S w' =>
      let b := match Byte.of_N (Z.to_N (v mod 256)) with Some b => b | None => x00 end in
      enc_unsigned w' (v / 256) (b :: acc)
  end.

Definition enc_be (w : nat) (v : Z) : list byte :=
  enc_unsigned w (v mod 2 ^ (8 * Z.of_nat w)) [].

Definition text (s : string) : list byte := list_byte_of_string s.

(** A file laid out as: address table, max/min, histogram, title, pixel
    format, dimension count, dimension vector, pixels, info. *)
Definition mk_file (title : list byte) (dimc : Z) (dimv : list Z)
    (samples : list Z) (info : list byte) : file :=
  let px := flat_map (enc_be 2) samples in
  let info_addr := 4277 + Z.of_nat (length px) in
  {| contents :=
       flat_map (enc_be 4) [36; 48; 4148; 4229; 4233; 4237; 4277; info_addr; 0]
       ++ enc_be 4 1 ++ enc_be 4 (-5) ++ enc_be 4 9
       ++ enc_be 4 0 ++ repeat x00 4096
       ++ title
       ++ enc_be 4 10
       ++ enc_be 4 dimc
       ++ flat_map (enc_be 4) dimv
       ++ px
       ++ info;
     position := 0 |}.

Definition pad_title (s : string) : list byte :=
  text s ++ repeat x00 (81 - String.length s).

Definition decode := @from_file string Z sample_alloc Z.ltb sample_UNCHeader sample_SliceHeader.
Definition echoes := @split_echoes string Z sample_alloc zero_mem.
Definition volumes := @split_volumes string Z sample_alloc zero_mem.

Definition brain : file :=
  mk_file (pad_title "BRAIN") 3 [4; 2; 2; 0; 0; 0; 0; 0; 0; 0]
    [1; 2; 3; 4; 5; 6; 7; 8; -1; -2; -3; -4; 100; 200; 300; 400]
    (text "hdr" ++ [x00] ++ text "d1" ++ [x00; x00] ++ text "b2" ++ [x00]
     ++ text "c1" ++ [x00] ++ text "a2" ++ [x00]).

(** The same volume under a title field that holds no null byte. *)
Definition long_title : file :=
  mk_file (repeat "A"%byte 81) 3 [4; 2; 2; 0; 0; 0; 0; 0; 0; 0]
    [1; 2; 3; 4; 5; 6; 7; 8; -1; -2; -3; -4; 100; 200; 300; 400]
    (text "hdr" ++ [x00] ++ text "d1" ++ [x00; x00] ++ text "b2" ++ [x00]
     ++ text "c1" ++ [x00] ++ text "a2" ++ [x00]).

(** A file that declares one axis of extent -1.  The pixel stream holds
    three samples and is followed by the four bytes of the info section. *)
Definition negative_extent : file :=
  mk_file (pad_title "NEG") 1 [-1; 0; 0; 0; 0; 0; 0; 0; 0; 0]
    [1; 2; 3] (text "hdr" ++ [x00]).

(** The sample volume with an info section of three records only, although
    [dim_vector[0]] is 4. *)
Definition few_records : file :=
  mk_file (pad_title "BRAIN") 3 [4; 2; 2; 0; 0; 0; 0; 0; 0; 0]
    [1; 2; 3; 4; 5; 6; 7; 8; -1; -2; -3; -4; 100; 200; 300; 400]
    (text "hdr" ++ [x00] ++ text "d1" ++ [x00; x00] ++ text "b2" ++ [x00]).

(** The same sections with the pixel stream last: the info section starts
    at 4277 and, as always, runs to the end of the file. *)
Definition mk_file_pixels_last (title : list byte) (dimc : Z) (dimv : list Z)
    (info : list byte) (samples : list Z) : file :=
  let pixel_addr := 4277 + Z.of_nat (length info) in
  {| contents :=
       flat_map (enc_be 4) [36; 48; 4148; 4229; 4233; 4237; pixel_addr; 4277; 0]
       ++ enc_be 4 1 ++ enc_be 4 (-5) ++ enc_be 4 9
       ++ enc_be 4 0 ++ repeat x00 4096
       ++ title
       ++ enc_be 4 10
       ++ enc_be 4 dimc
       ++ flat_map (enc_be 4) dimv
       ++ info
       ++ flat_map (enc_be 2) samples;
     position := 0 |}.


(** A volume with two axes only. *)
Definition flat2 : file :=
  mk_file (pad_title "FLAT") 2 [2; 2; 0; 0; 0; 0; 0; 0; 0; 0]
    [1; 2; 3; 4]
    (text "hdr" ++ [x00] ++ text "a1" ++ [x00] ++ text "b2" ++ [x00]).

(** A volume with four axes, of extents 2, 1, 1 and 1. *)
Definition pair4 : file :=
  mk_file (pad_title "PAIR") 4 [2; 1; 1; 1; 0; 0; 0; 0; 0; 0]
    [7; 8]
    (text "hdr" ++ [x00] ++ text "a1" ++ [x00] ++ text "b2" ++ [x00]).

(** A file that declares a negative dimension count and ends where its
    pixel stream would start. *)
Definition negative_count : file :=
  mk_file_pixels_last (pad_title "NEG") (-9) [0; 0; 0; 0; 0; 0; 0; 0; 0; 0]
    (text "hdr" ++ [x00]) [].

(** Tools to derive damaged files: overwrite entry [k] of the address
    table, cut the file after [n] bytes. *)
Definition set_address (k : nat) (v : Z) (f : file) : file :=
  {| contents := firstn (4 * k) (contents f) ++ enc_be 4 v ++ skipn (4 * k + 4) (contents f);
     position := position f |}.

Definition truncate (n : nat) (f : file) : file :=
  {| contents := firstn n (contents f); position := position f |}.

Definition empty_file : file := {| contents := []; position := 0 |}.

(** The sample volume with a title address of -1, cut in the middle of the
    title field, and with a title of 81 bytes [0xff]. *)
Definition bad_title_address : file := set_address 2 (-1) brain.
Definition cut_title : file := truncate 4200 brain.
Definition latin_title : file :=
  mk_file (repeat xff 81) 3 [4; 2; 2; 0; 0; 0; 0; 0; 0; 0]
    [1; 2; 3; 4; 5; 6; 7; 8; -1; -2; -3; -4; 100; 200; 300; 400]
    (text "hdr" ++ [x00]).

(** The sample volume with its info address at the end of the file, five
    bytes past it, and with a byte [0xff] in the info text. *)
Definition info_at_end : file :=
  set_address 7 (Z.of_nat (length (contents brain))) brain.
Definition info_far : file :=
  set_address 7 (Z.of_nat (length (contents brain)) + 5) brain.
Definition latin_info : file :=
  mk_file (pad_title "BRAIN") 3 [4; 2; 2; 0; 0; 0; 0; 0; 0; 0]
    [1; 2; 3; 4; 5; 6; 7; 8; -1; -2; -3; -4; 100; 200; 300; 400]
    (text "hdr" ++ [x00; xff]).


(** Four slices at two locations, stored in the order b1, a1, b2, a2. *)
Definition ties : file :=
  mk_file (pad_title "TIES") 3 [4; 1; 1; 0; 0; 0; 0; 0; 0; 0]
    [1; 2; 3; 4]
    (text "hdr" ++ [x00] ++ text "b1" ++ [x00] ++ text "a1" ++ [x00]
     ++ text "b2" ++ [x00] ++ text "a2" ++ [x00]).

(** Two slices, the second record without an echo number; two slices with
    the echo numbers 1 and 3; three slices of one echo. *)
Definition no_echo : file :=
  mk_file (pad_title "NOECHO") 3 [2; 1; 1; 0; 0; 0; 0; 0; 0; 0]
    [1; 2] (text "hdr" ++ [x00] ++ text "a1" ++ [x00] ++ text "b" ++ [x00]).
Definition gap_echo : file :=
  mk_file (pad_title "GAP") 3 [2; 1; 1; 0; 0; 0; 0; 0; 0; 0]
    [1; 2] (text "hdr" ++ [x00] ++ text "a1" ++ [x00] ++ text "b3" ++ [x00]).

End Samples.

Import Samples.

(** ** Predicates used in the statements *)

(** A computation keeps the bytes of the file: only the position moves. *)
Definition keeps {A} (m : FileM A) : Prop :=
  forall f a f', m f = Ok (a, f') -> contents f' = contents f.

(** [a] may stand before [b] in a list sorted by [key]: the key of [b] is
    not below the key of [a]. *)
Definition key_le {A K} (ltb : K -> K -> bool) (key : A -> K) (a b : A) : Prop :=
  ltb (key b) (key a) = false.

(** The key of [a] ties with [k]: neither is below the other. *)
Definition same_key {A K} (ltb : K -> K -> bool) (key : A -> K) (k : K) (a : A) : bool :=
  negb (ltb (key a) k) && negb (ltb k (key a)).

(** The stages of [from_file], named so that statements can refer to them:
    the readers up to and including [_calculate_pixel_count], and the part
    of [_read_info] that follows the read of the info text. *)
Section Stages.
Context {HeaderT Loc : Type}.
Variable loc_ltb : Loc -> Loc -> bool.
Variable UNCHeader : string -> result HeaderT.
Variable SliceHeader : string -> result (@SliceHeaderT Loc).

Record Fixed : Type :=
  { fx_addresses : list Z;
    fx_title : string;
    fx_maxmin : bool * Z * Z;
    fx_histogram : bool * list Z;
    fx_pixel_format : Z;
    fx_dimc : Z;
    fx_dimv : list Z;
    fx_pixel_count : Z }.

Definition fixed_sections : FileM Fixed :=
  addresses <- _read_addresses ;;
  title <- _read_title addresses ;;
  mm <- _read_maxmin addresses ;;
  hh <- _read_histogram addresses ;;
  pixel_format <- _read_pixel_format addresses ;;
  dimc <- _read_dimc addresses ;;
  dimv <- _read_dimv addresses ;;
  pixel_count <- liftF (_calculate_pixel_count dimc dimv) ;;
  retF {| fx_addresses := addresses; fx_title := title; fx_maxmin := mm;
          fx_histogram := hh; fx_pixel_format := pixel_format; fx_dimc := dimc;
          fx_dimv := dimv; fx_pixel_count := pixel_count |}.

(** The records of an info text: the pieces between null characters,
    without the empty ones. *)
Definition info_records (text : string) : list string :=
  List.filter (fun i => negb (String.eqb i "")) (py_split NUL text).

Definition parse_records (dimv : list Z) (info : list string)
  : result (HeaderT * list (@SliceHeaderT Loc)) :=
  i0 <-- index info 0 ;;
  header <-- UNCHeader i0 ;;
  d0 <-- index dimv 0 ;;
  slice_info <-- mapM (fun i => r <-- index info i ;; SliceHeader r) (range2 1 (d0 + 1)) ;;
  Ok (header, slice_info).

(** The object [from_file] assembles from what the readers returned. *)
Definition assemble (fx : Fixed) (ii : list string * HeaderT * list (@SliceHeaderT Loc))
    (px : ndarray) : @UNCFile HeaderT Loc :=
  {| header := snd (fst ii);
     dimc := fx_dimc fx;
     dimv := fx_dimv fx;
     slice_info := snd ii;
     pixels := px;
     decoded := Some {| addresses := fx_addresses fx;
                        title := fx_title fx;
                        valid_maxmin := fst (fst (fx_maxmin fx));
                        min := snd (fst (fx_maxmin fx));
                        max := snd (fx_maxmin fx);
                        valid_histogram := fst (fx_histogram fx);
                        histogram := snd (fx_histogram fx);
                        pixel_format := fx_pixel_format fx;
                        pixel_count := fx_pixel_count fx;
                        info := fst (fst ii) |} |}.

End Stages.

(** What [split_echoes] and [split_volumes] have in common: the pixel
    loop is the same, only the number of parts and the selection of the
    slice records differ. *)
Section Partition.
Context {HeaderT Loc : Type}.
Variable can_alloc : Z -> list Z -> bool.
Variable uninit : nat -> Z.

Definition fill_step (px : ndarray) (per_part : Z) (split_pixels : ndarray) (i : Z)
  : result ndarray :=
  src <-- nd_getslice3 px (per_part * i) (per_part * i + per_part) ;;
  nd_setblock split_pixels i src.

Definition partition (uf : @UNCFile HeaderT Loc) (parts : Z)
    (select : Z -> result (list (@SliceHeaderT Loc))) : result (list (@UNCFile HeaderT Loc)) :=
  shape0 <-- index (shape (pixels uf)) 0 ;;
  per_part <-- int_truediv (Z.of_nat shape0) parts ;;
  shape1 <-- index (shape (pixels uf)) 1 ;;
  shape2 <-- index (shape (pixels uf)) 2 ;;
  fresh <-- np_ndarray can_alloc uninit [parts; per_part; Z.of_nat shape1; Z.of_nat shape2] ;;
  split_pixels <-- foldM (fill_step (pixels uf) per_part) (range parts) fresh ;;
  mapM (fun n =>
      si <-- select n ;;
      px <-- nd_getblock split_pixels n ;;
      Ok {| header := header uf; dimc := dimc uf; dimv := dimv uf;
            slice_info := si; pixels := px; decoded := None |}) (range parts).

(** The selection of [split_echoes]: the records whose echo number is
    [n + 1]. *)
Definition select_echo (uf : @UNCFile HeaderT Loc) (n : Z) : result (list (@SliceHeaderT Loc)) :=
  filterM (fun s => v <-- dict_getitem (dicom_header s) "Echo Number" ;;
                    Ok (bool_decide (v = VInt (n + 1)))) (slice_info uf).

(** The part a split returns for index [k]: the header and the dimension
    fields of the original, the selected records, and [per_part] slices of
    [slab] elements each, taken from the original stream at slice
    [k * per_part]. *)
Definition part_of (uf : @UNCFile HeaderT Loc) (per_part d1 d2 slab : nat) (k : nat)
    (si : list (@SliceHeaderT Loc)) : @UNCFile HeaderT Loc :=
  {| header := header uf; dimc := dimc uf; dimv := dimv uf;
     slice_info := si;
     pixels := {| dtype_of := Float64;
                  shape := [per_part; d1; d2];
                  data := firstn (per_part * slab)
                            (skipn (k * (per_part * slab)) (data (pixels uf))) |};
     decoded := None |}.

End Partition.

(** The shape of the working array of a split into [n] parts of a volume of
    shape [(d0, d1, d2)]: [(n, int(d0 / n), d1, d2)]. *)
Definition split_shape (d0 d1 d2 : nat) (n : Z) : list Z :=
  [n; Z.quot (Z.of_nat d0) n; Z.of_nat d1; Z.of_nat d2].

(** The ranges of the signed integers of 32 and of 16 bits. *)
Definition int32 (v : Z) : Prop := - 2147483648 <= v <= 2147483647.
Definition int16 (v : Z) : Prop := - 32768 <= v <= 32767.

(** * Properties *)

(** ** The error and file monads *)

Lemma bindR_inv {A B} (m : result A) (k : A -> result B) b :
  bindR m k = Ok b -> exists a, m = Ok a /\ k a = Ok b.
Proof. destruct m as [a|e]; simpl; [eauto | discriminate]. Qed.

Lemma bindF_inv {A B} (m : FileM A) (k : A -> FileM B) f r :
  bindF m k f = Ok r -> exists a f', m f = Ok (a, f') /\ k a f' = Ok r.
Proof.
  unfold bindF. destruct (m f) as [[a f']|e]; [eauto | discriminate].
Qed.

Lemma liftF_inv {A} (r : result A) f a f' :
  liftF r f = Ok (a, f') -> r = Ok a /\ f' = f.
Proof. unfold liftF. destruct r; intros H; inversion H; auto. Qed.

Lemma retF_inv {A} (x : A) f a f' : retF x f = Ok (a, f') -> a = x /\ f' = f.
Proof. unfold retF. intros H; inversion H; auto. Qed.

Lemma keeps_bindF {A B} (m : FileM A) (k : A -> FileM B) :
  keeps m -> (forall a, keeps (k a)) -> keeps (bindF m k).
Proof.
  intros Hm Hk f b f'' H. apply bindF_inv in H as (a & f' & H1 & H2).
  rewrite (Hk _ _ _ _ H2). eauto.
Qed.

Lemma keeps_liftF {A} (r : result A) : keeps (liftF r).
Proof. intros f a f' H. apply liftF_inv in H as [_ ->]. reflexivity. Qed.

Lemma keeps_retF {A} (x : A) : keeps (retF x).
Proof. intros f a f' H. apply retF_inv in H as [_ ->]. reflexivity. Qed.

Lemma keeps_seek_set off : keeps (seek_set off).
Proof.
  intros f a f'. unfold seek_set. destruct (off <? 0); intros H; inversion H. reflexivity.
Qed.

Lemma keeps_seek_end : keeps seek_end.
Proof. intros f a f' H. inversion H. reflexivity. Qed.

Lemma keeps_tell : keeps tell.
Proof. intros f a f' H. inversion H. reflexivity. Qed.

Lemma keeps_read n : keeps (read n).
Proof.
  intros f a f'. unfold read. destruct (n <? -1); intros H; inversion H. reflexivity.
Qed.

Lemma keeps_np_fromfile_i2 can_alloc count : keeps (np_fromfile_i2 can_alloc count).
Proof.
  intros f a f'. unfold np_fromfile_i2.
  destruct (_ || _); [discriminate |].
  destruct (np_new _ _ _); [| discriminate].
  intros H. injection H as _ <-. reflexivity.
Qed.

Create HintDb keeps.
#[global] Hint Resolve keeps_liftF keeps_retF keeps_seek_set keeps_seek_end keeps_tell
  keeps_read keeps_np_fromfile_i2 : keeps.

Ltac keeps_tac :=
  repeat first
    [ apply keeps_bindF; [| intros ? ]
    | solve [ auto with keeps ]
    | match goal with |- keeps (match ?x with _ => _ end) => destruct x end ].

(** ** The readers *)

Section ReaderFacts.
Context {HeaderT Loc : Type}.
Variable can_alloc : Z -> list Z -> bool.
Variable loc_ltb : Loc -> Loc -> bool.
Variable UNCHeader : string -> result HeaderT.
Variable SliceHeader : string -> result (@SliceHeaderT Loc).

Abbreviation decode_file := (from_file can_alloc loc_ltb UNCHeader SliceHeader).
Abbreviation read_info := (_read_info loc_ltb UNCHeader SliceHeader).

Lemma keeps_read_addresses : keeps _read_addresses.
Proof. unfold _read_addresses. keeps_tac. Qed.

Lemma keeps_read_title a : keeps (_read_title a).
Proof. unfold _read_title. keeps_tac. Qed.

Lemma keeps_read_maxmin a : keeps (_read_maxmin a).
Proof. unfold _read_maxmin. keeps_tac. Qed.

Lemma keeps_read_histogram a : keeps (_read_histogram a).
Proof. unfold _read_histogram. keeps_tac. Qed.

Lemma keeps_read_pixel_format a : keeps (_read_pixel_format a).
Proof. unfold _read_pixel_format. keeps_tac. Qed.

Lemma keeps_read_dimc a : keeps (_read_dimc a).
Proof. unfold _read_dimc. keeps_tac. Qed.

Lemma keeps_read_dimv a : keeps (_read_dimv a).
Proof. unfold _read_dimv. keeps_tac. Qed.

Lemma keeps_read_info a d : keeps (read_info a d).
Proof. unfold _read_info. keeps_tac. Qed.

Lemma keeps_read_pixels a pc dc dv : keeps (_read_pixels can_alloc a pc dc dv).
Proof. unfold _read_pixels. keeps_tac. Qed.

(** What a successful [from_file] did, reader by reader. *)
Lemma from_file_inv f uf :
  decode_file f = Ok uf ->
  exists d ft ft' fi fi' fp fp',
    decoded uf = Some d /\
    contents ft = contents f /\ contents fi = contents f /\ contents fp = contents f /\
    _read_title (addresses d) ft = Ok (title d, ft') /\
    _read_dimv (addresses d) fi = Ok (dimv uf, fi') /\
    _calculate_pixel_count (dimc uf) (dimv uf) = Ok (pixel_count d) /\
    read_info (addresses d) (dimv uf) fi' = Ok ((info d, header uf, slice_info uf), fp) /\
    _read_pixels can_alloc (addresses d) (pixel_count d) (dimc uf) (dimv uf) fp = Ok (pixels uf, fp').
Proof.
  unfold from_file, from_file_steps. intros H.
  destruct (bindF _ _ f) as [[u fz]|e] eqn:E; [| discriminate].
  injection H as ->.
  apply bindF_inv in E as (addrs & f1 & E1 & E).
  apply bindF_inv in E as (ttl & f2 & E2 & E).
  apply bindF_inv in E as (mm & f3 & E3 & E).
  apply bindF_inv in E as (hh & f4 & E4 & E).
  apply bindF_inv in E as (pf & f5 & E5 & E).
  apply bindF_inv in E as (dc & f6 & E6 & E).
  apply bindF_inv in E as (dv & f7 & E7 & E).
  apply bindF_inv in E as (pc & f8 & E8 & E).
  apply bindF_inv in E as ([[inf hd] si] & f9 & E9 & E).
  apply bindF_inv in E as (px & f10 & E10 & E).
  apply retF_inv in E as [-> ->].
  apply liftF_inv in E8 as [E8 ->].
  pose proof (keeps_read_addresses _ _ _ E1) as K1.
  pose proof (keeps_read_title _ _ _ _ E2) as K2.
  pose proof (keeps_read_maxmin _ _ _ _ E3) as K3.
  pose proof (keeps_read_histogram _ _ _ _ E4) as K4.
  pose proof (keeps_read_pixel_format _ _ _ _ E5) as K5.
  pose proof (keeps_read_dimc _ _ _ _ E6) as K6.
  pose proof (keeps_read_dimv _ _ _ _ E7) as K7.
  pose proof (keeps_read_info _ _ _ _ _ E9) as K9.
  eexists _, f1, f2, f6, f7, f9, f10. simpl.
  repeat split; try eassumption; congruence.
Qed.

End ReaderFacts.

#[global] Hint Resolve keeps_read_addresses keeps_read_title keeps_read_maxmin
  keeps_read_histogram keeps_read_pixel_format keeps_read_dimc keeps_read_dimv
  keeps_read_info keeps_read_pixels : keeps.

(** ** Text: the part of a string before the first separator *)

Lemma py_split_max_head sep m s :
  exists ps, py_split_max sep (S m) s = before_first sep s :: ps.
Proof.
  induction s as [|c r [ps IH]]; simpl.
  - eauto.
  - destruct (Ascii.eqb c sep); [eauto |]. rewrite IH. eauto.
Qed.

Lemma before_first_decompose sep s :
  exists rest, s = (before_first sep s ++ rest)%string /\
               (rest = EmptyString \/ exists r, rest = String sep r).
Proof.
  induction s as [|c r (rest & IH1 & IH2)]; simpl.
  - exists EmptyString. auto.
  - destruct (Ascii.eqb c sep) eqn:E.
    + apply Ascii.eqb_eq in E as ->. exists (String sep r). simpl. eauto.
    + exists rest. split; [| assumption].
      change (String c r = String c (before_first sep r ++ rest)%string).
      f_equal. exact IH1.
Qed.

Lemma before_first_no_sep sep s :
  ~ In sep (list_ascii_of_string (before_first sep s)).
Proof.
  induction s as [|c r IH]; simpl; [tauto |].
  destruct (Ascii.eqb c sep) eqn:E; simpl; [tauto |].
  apply Ascii.eqb_neq in E. intros [H | H]; [congruence | tauto].
Qed.

Lemma before_first_length sep s :
  (String.length (before_first sep s) <= String.length s)%nat.
Proof.
  induction s as [|c r IH]; simpl; [lia |].
  destruct (Ascii.eqb c sep); simpl; lia.
Qed.

Lemma before_first_length_lt sep s :
  In sep (list_ascii_of_string s) ->
  (String.length (before_first sep s) < String.length s)%nat.
Proof.
  induction s as [|c r IH]; simpl; [tauto |].
  destruct (Ascii.eqb c sep) eqn:E; simpl; [lia |].
  apply Ascii.eqb_neq in E. intros [H | H]; [congruence |]. apply IH in H. lia.
Qed.

Lemma before_first_all sep s :
  ~ In sep (list_ascii_of_string s) -> before_first sep s = s.
Proof.
  induction s as [|c r IH]; simpl; [reflexivity |].
  destruct (Ascii.eqb c sep) eqn:E.
  - apply Ascii.eqb_eq in E. tauto.
  - intros H. f_equal. apply IH. tauto.
Qed.

Lemma string_of_list_byte_length bs :
  String.length (string_of_list_byte bs) = length bs.
Proof.
  induction bs as [|b bs IH]; [reflexivity |].
  change (S (String.length (string_of_list_byte bs)) = S (length bs)). now rewrite IH.
Qed.

Lemma list_ascii_of_string_of_list_byte bs :
  list_ascii_of_string (string_of_list_byte bs) = map ascii_of_byte bs.
Proof.
  induction bs as [|b bs IH]; [reflexivity |].
  change (ascii_of_byte b :: list_ascii_of_string (string_of_list_byte bs)
          = ascii_of_byte b :: map ascii_of_byte bs).
  now rewrite IH.
Qed.

Lemma NUL_in_text bs :
  In NUL (list_ascii_of_string (string_of_list_byte bs)) <-> In x00 bs.
Proof.
  rewrite list_ascii_of_string_of_list_byte, in_map_iff. split.
  - intros (b & Hb & Hin).
    assert (b = x00) as <-; [| assumption].
    rewrite <- (byte_of_ascii_of_byte b), Hb. reflexivity.
  - intros H. exists x00. auto.
Qed.

(** What [_read_title] returns: the text of the 81 bytes at the title
    address, cut before its first null character. *)
Lemma read_title_spec addrs f t f' :
  _read_title addrs f = Ok (t, f') ->
  exists a raw,
    index addrs TITLE = Ok a /\ 0 <= a /\
    raw = firstn 81 (skipn (Z.to_nat a) (contents f)) /\
    length raw = 81%nat /\
    forallb (fun b => byte_val b <? 128) raw = true /\
    t = before_first NUL (string_of_list_byte raw).
Proof.
  unfold _read_title. intros H.
  apply bindF_inv in H as (a & f1 & H1 & H). apply liftF_inv in H1 as [H1 ->].
  apply bindF_inv in H as ([] & f2 & H2 & H).
  apply bindF_inv in H as (bs & f3 & H3 & H).
  apply bindF_inv in H as (raw & f4 & H4 & H). apply liftF_inv in H4 as [H4 ->].
  apply bindF_inv in H as (field & f5 & H5 & H). apply liftF_inv in H5 as [H5 ->].
  apply liftF_inv in H as [H ->].
  unfold seek_set in H2. destruct (a <? 0) eqn:Ea; [discriminate |].
  injection H2 as <-. apply Z.ltb_ge in Ea.
  unfold read in H3. simpl in H3. injection H3 as <- _.
  change (Z.to_nat (SIZES "title")) with 81%nat in *.
  unfold unpack_s in H4. destruct (Nat.eqb _ 81) eqn:El; [| discriminate].
  injection H4 as <-. apply Nat.eqb_eq in El.
  unfold decode_ascii in H5. destruct (forallb _ _) eqn:Ef; [| discriminate].
  injection H5 as <-.
  destruct (py_split_max_head NUL 0 (string_of_list_byte (firstn 81 (skipn (Z.to_nat a) (contents f))))) as [ps Hps].
  rewrite Hps in H. unfold index in H. simpl in H. injection H as <-.
  exists a, (firstn 81 (skipn (Z.to_nat a) (contents f))).
  repeat split; auto.
Qed.

(** ** The title *)

Section Title.
Context {HeaderT Loc : Type}.
Variable can_alloc : Z -> list Z -> bool.
Variable loc_ltb : Loc -> Loc -> bool.
Variable UNCHeader : string -> result HeaderT.
Variable SliceHeader : string -> result (@SliceHeaderT Loc).

(** C3 (as amended).  For every decoded volume the title is the text of the
    81-byte title field before its first null character (all of it when
    the field holds none).  It never contains a null character and is never
    longer than 81 characters; it is at most 80 characters long exactly
    when the field holds a null byte, and 81 characters long otherwise. *)
Theorem C3_title_before_first_null f uf :
  from_file can_alloc loc_ltb UNCHeader SliceHeader f = Ok uf ->
  exists d a raw rest,
    decoded uf = Some d /\
    index (addresses d) TITLE = Ok a /\
    raw = firstn 81 (skipn (Z.to_nat a) (contents f)) /\
    length raw = 81%nat /\
    string_of_list_byte raw = (title d ++ rest)%string /\
    (rest = EmptyString \/ exists r, rest = String NUL r) /\
    ~ In NUL (list_ascii_of_string (title d)) /\
    (String.length (title d) <= 81)%nat /\
    (In x00 raw -> (String.length (title d) <= 80)%nat) /\
    (~ In x00 raw -> String.length (title d) = 81%nat).
Proof.
  intros H.
  apply from_file_inv in H as (d & ft & ft' & fi & fi' & fp & fp' & Hd & Kt & _ & _ & Ht & _).
  apply read_title_spec in Ht as (a & raw & Ha & Ha0 & Hraw & Hlen & _ & Ht).
  rewrite Kt in Hraw.
  destruct (before_first_decompose NUL (string_of_list_byte raw)) as (rest & Hr1 & Hr2).
  pose proof (string_of_list_byte_length raw) as Hl.
  exists d, a, raw, rest. rewrite Ht.
  repeat split; auto.
  - apply before_first_no_sep.
  - pose proof (before_first_length NUL (string_of_list_byte raw)). lia.
  - intros Hin. apply NUL_in_text in Hin.
    apply before_first_length_lt in Hin. lia.
  - intros Hnin. rewrite before_first_all; [lia |].
    intros Hin. apply NUL_in_text in Hin. tauto.
Qed.

End Title.

(** A decoded sample volume to which the title theorem applies. *)
Lemma C3_title_witness :
  exists uf d a raw rest,
    decode brain = Ok uf /\
    decoded uf = Some d /\
    index (addresses d) TITLE = Ok a /\
    raw = firstn 81 (skipn (Z.to_nat a) (contents brain)) /\
    length raw = 81%nat /\
    string_of_list_byte raw = (title d ++ rest)%string /\
    (rest = EmptyString \/ exists r, rest = String NUL r) /\
    ~ In NUL (list_ascii_of_string (title d)) /\
    (String.length (title d) <= 81)%nat /\
    (In x00 raw -> (String.length (title d) <= 80)%nat) /\
    (~ In x00 raw -> String.length (title d) = 81%nat).
Proof.
  destruct (decode brain) as [uf|e] eqn:E; [| vm_compute in E; discriminate].
  destruct (C3_title_before_first_null sample_alloc Z.ltb sample_UNCHeader sample_SliceHeader brain uf E)
    as (d & a & raw & rest & H).
  exists uf, d, a, raw, rest. split; [reflexivity | exact H].
Defined.

(** C3 (as stated) fails: a title field of 81 letters and no null byte
    decodes to a title of 81 characters. *)
Lemma C3_title_counterexample :
  exists uf d,
    decode long_title = Ok uf /\ decoded uf = Some d /\
    ~ (String.length (title d) <= 80)%nat.
Proof.
  eexists _, _. split; [vm_compute; reflexivity |].
  split; [reflexivity |]. vm_compute. lia.
Qed.

(** ** The number of echoes *)

Section Echoes.
Context {HeaderT Loc : Type}.

(** C5.  For every [UNCFile] object, hence for every decoded volume,
    [num_echoes] is the number of distinct values of the "Echo Number" entry
    over the records of [slice_info], where a record without the entry
    contributes the integer 0; that 0 is counted like any other value. *)
Theorem C5_num_echoes_distinct_values (uf : @UNCFile HeaderT Loc) :
  exists vs : list pyval,
    NoDup vs /\
    (forall v, v ∈ vs <->
       exists s, s ∈ slice_info uf /\
                 v = match dicom_header s !! "Echo Number" with
                     | Some x => x
                     | None => VInt 0
                     end) /\
    num_echoes uf = Z.of_nat (length vs) /\
    ((exists s, s ∈ slice_info uf /\ dicom_header s !! "Echo Number" = None) ->
     VInt 0 ∈ vs).
Proof.
  set (X := list_to_set (map echo_number_or_0 (slice_info uf)) : gset pyval).
  assert (Hiff : forall v, v ∈ elements X <->
            exists s, s ∈ slice_info uf /\
                      v = match dicom_header s !! "Echo Number" with
                          | Some x => x
                          | None => VInt 0
                          end).
  { intros v. rewrite elem_of_elements. unfold X.
    rewrite elem_of_list_to_set.
    change (map echo_number_or_0 (slice_info uf)) with (echo_number_or_0 <$> slice_info uf).
    rewrite list_elem_of_fmap. unfold echo_number_or_0, dict_get.
    split; intros (s & H1 & H2); exists s; auto. }
  exists (elements X). split; [apply NoDup_elements |].
  split; [exact Hiff |]. split; [reflexivity |].
  intros (s & Hs & Hnone). apply Hiff. exists s. rewrite Hnone. auto.
Qed.

End Echoes.

(** ** Products, chunks and row-major offsets *)

Lemma chunks_length sz n bs : length (chunks sz n bs) = n.
Proof. revert bs. induction n; intros; simpl; auto. Qed.

Lemma prodn_to_nat sh :
  Forall (fun d => 0 <= d) sh -> Z.of_nat (prodn (map Z.to_nat sh)) = prodZ sh.
Proof.
  induction 1 as [|d sh Hd _ IH]; simpl; [reflexivity |].
  rewrite Nat2Z.inj_mul, IH. lia.
Qed.

Lemma of_nat_to_nat_list sh :
  Forall (fun d => 0 <= d) sh -> map Z.of_nat (map Z.to_nat sh) = sh.
Proof.
  induction 1 as [|d sh Hd _ IH]; simpl; [reflexivity |].
  rewrite IH. f_equal. lia.
Qed.

Lemma filter_nonneg_all sh :
  Forall (fun d => 0 <= d) sh ->
  List.filter (fun d => 0 <=? d) sh = sh /\ List.filter (fun d => d <? 0) sh = [].
Proof.
  induction 1 as [|d sh Hd _ [IH1 IH2]]; simpl; [auto |].
  destruct (Z.leb_spec 0 d); [| lia]. destruct (Z.ltb_spec d 0); [lia |].
  rewrite IH1, IH2. auto.
Qed.

(** The offset of [(i, idx)] is [i] whole slabs plus the offset of [idx]
    inside a slab: the first axis is the outermost. *)
Lemma nd_offset_acc sh : forall idx acc,
  length idx = length sh ->
  fold_left (fun off p => (off * fst p + snd p)%nat) (combine sh idx) acc
  = (acc * prodn sh + nd_offset sh idx)%nat.
Proof.
  unfold nd_offset. induction sh as [|d sh IH]; intros [|i idx] acc Hl;
    simpl in *; try discriminate; [lia |].
  injection Hl as Hl.
  rewrite (IH idx (acc * d + i)%nat Hl), (IH idx i Hl). lia.
Qed.

Lemma nd_offset_cons d sh i idx :
  length idx = length sh ->
  nd_offset (d :: sh) (i :: idx) = (i * prodn sh + nd_offset sh idx)%nat.
Proof.
  intros Hl. unfold nd_offset at 1. simpl. apply nd_offset_acc. assumption.
Qed.

Lemma nd_get_outermost a d0 rest i idx :
  shape a = d0 :: rest ->
  (i < d0)%nat ->
  length idx = length rest ->
  forallb (fun p => Nat.ltb (snd p) (fst p)) (combine rest idx) = true ->
  nd_get a (i :: idx) = nth_error (data a) (i * prodn rest + nd_offset rest idx).
Proof.
  intros Hs Hi Hl Hb. unfold nd_get. rewrite Hs. simpl.
  rewrite Hl, Nat.eqb_refl, Hb. simpl.
  destruct (Nat.ltb_spec i d0); [| lia]. simpl.
  rewrite nd_offset_cons by assumption. reflexivity.
Qed.

(** ** The pixel count and the pixel reader *)

Lemma index_of_nat {A} (l : list A) k x :
  index l (Z.of_nat k) = Ok x -> nth_error l k = Some x.
Proof.
  unfold index. destruct (Z.ltb_spec (Z.of_nat k) 0) as [Hneg|_]; [lia |].
  destruct (Z.ltb_spec (Z.of_nat k) 0) as [Hneg|_]; [lia |].
  rewrite Nat2Z.id. destruct (nth_error l k); intros E; inversion E; reflexivity.
Qed.

Lemma skipn_nth_error {A} (l : list A) k x :
  nth_error l k = Some x -> skipn k l = x :: skipn (S k) l.
Proof.
  revert l. induction k; intros [|y l] H; simpl in *; try discriminate.
  - injection H as ->. reflexivity.
  - apply IHk in H. exact H.
Qed.

Lemma pixel_count_loop dimv n : forall k acc r,
  foldM (fun pixel_count i => d <-- index dimv i ;; Ok (pixel_count * d))
        (map Z.of_nat (seq k n)) acc = Ok r ->
  r = acc * prodZ (firstn n (skipn k dimv)) /\ (n <= length (skipn k dimv))%nat.
Proof.
  induction n as [|n IH]; intros k acc r H; simpl in *.
  - injection H as <-. split; lia.
  - apply bindR_inv in H as (s' & H1 & H2).
    apply bindR_inv in H1 as (d & Hd & Hs). injection Hs as <-.
    apply index_of_nat in Hd. apply skipn_nth_error in Hd.
    apply IH in H2 as [-> Hlen]. rewrite Hd. simpl. split; [ring | clear - Hlen; lia].
Qed.

Lemma calculate_pixel_count_spec dimc dimv pc :
  _calculate_pixel_count dimc dimv = Ok pc ->
  pc = prodZ (firstn (Z.to_nat dimc) dimv) /\ (Z.to_nat dimc <= length dimv)%nat.
Proof.
  unfold _calculate_pixel_count, range. intros H.
  apply pixel_count_loop in H as [-> Hl].
  rewrite Z.mul_1_l. change (skipn 0 dimv) with dimv in *. auto.
Qed.

Lemma np_reshape_nonneg a sh b :
  Forall (fun d => 0 <= d) sh ->
  np_reshape a sh = Ok b ->
  shape b = map Z.to_nat sh /\ data b = data a /\ dtype_of b = dtype_of a /\
  prodZ sh = Z.of_nat (nd_size a).
Proof.
  intros Hnn. unfold np_reshape.
  destruct (filter_nonneg_all sh Hnn) as [-> ->].
  destruct (Z.eqb_spec (prodZ sh) (Z.of_nat (nd_size a))); [| discriminate].
  intros H. injection H as <-. simpl. auto.
Qed.

Lemma np_reshape_data a sh b :
  np_reshape a sh = Ok b -> data b = data a /\ dtype_of b = dtype_of a.
Proof.
  unfold np_reshape.
  destruct (List.filter (fun d => d <? 0) sh) as [|x [|y l]]; [| | discriminate].
  - destruct (_ =? _); [| discriminate]. intros H. injection H as <-. auto.
  - destruct (_ || _); [discriminate |]. intros H. injection H as <-. auto.
Qed.

(** What a successful [np.fromfile] did: the count fits a C [ssize_t], the
    array for the requested items could be created, and the items that the
    file holds from the current position on were read, at most [count] of
    them unless the count is negative. *)
Lemma np_fromfile_i2_ok can_alloc count f arr f' :
  np_fromfile_i2 can_alloc count f = Ok (arr, f') ->
  exists n,
    - 2 ^ 63 <= count < 2 ^ 63 /\
    (count < 0 -> n = (length (skipn (position f) (contents f)) / 2)%nat) /\
    (0 <= count ->
     n = Nat.min (Z.to_nat count) (length (skipn (position f) (contents f)) / 2) /\
     np_new can_alloc 2 [count] = Ok tt) /\
    arr = {| dtype_of := Int16BE; shape := [n];
             data := map be_signed (chunks 2 n (skipn (position f) (contents f))) |}.
Proof.
  unfold np_fromfile_i2.
  destruct (Z.ltb_spec count (- 2 ^ 63)) as [Hlo|Hlo]; [discriminate |].
  destruct (Z.leb_spec (2 ^ 63) count) as [Hhi|Hhi]; [discriminate |]. cbn [orb].
  set (left := Z.of_nat (length (contents f)) - Z.of_nat (position f)).
  destruct (Z.ltb_spec count 0) as [Hneg|Hpos];
    (destruct (np_new _ _ _) as [[]|e] eqn:En; [| discriminate]);
    intros E; injection E as <- _; eexists; (split; [lia |]).
  - split; [| split; [lia | reflexivity]]. intros _.
    unfold np_new in En. cbn [existsb orb] in En.
    destruct (Z.ltb_spec (Z.quot left 2) 0) as [Hq|Hq]; [discriminate |].
    clear En. rewrite length_skipn.
    destruct (Nat.le_gt_cases (position f) (length (contents f))) as [Hle|Hgt].
    + rewrite Z.quot_div_nonneg by (unfold left; lia).
      replace left with (Z.of_nat (length (contents f) - position f)) by (unfold left; lia).
      change 2 with (Z.of_nat 2). rewrite <- Nat2Z.inj_div, Nat2Z.id.
      exact (Nat.min_id _).
    + replace (length (contents f) - position f)%nat with 0%nat by lia.
      apply Nat.min_0_r.
  - split; [lia |]. split; [| reflexivity]. intros _. split; reflexivity.
Qed.

(** What [_read_pixels] did: it read the samples available at the pixel
    address, at most [pixel_count] of them unless the count is negative,
    and reshaped them. *)
Lemma read_pixels_spec can_alloc addrs pc dc dv f px f' :
  _read_pixels can_alloc addrs pc dc dv f = Ok (px, f') ->
  exists a n,
    index addrs PIXELS = Ok a /\ 0 <= a /\
    (pc < 0 -> n = (length (skipn (Z.to_nat a) (contents f)) / 2)%nat) /\
    (0 <= pc -> n = Nat.min (Z.to_nat pc) (length (skipn (Z.to_nat a) (contents f)) / 2)) /\
    np_reshape {| dtype_of := Int16BE; shape := [n];
                  data := map be_signed (chunks 2 n (skipn (Z.to_nat a) (contents f))) |}
               (slice_to dv dc) = Ok px.
Proof.
  unfold _read_pixels. intros H.
  apply bindF_inv in H as (a & f1 & H1 & H). apply liftF_inv in H1 as [H1 ->].
  apply bindF_inv in H as ([] & f2 & H2 & H).
  apply bindF_inv in H as (lin & f3 & H3 & H).
  apply liftF_inv in H as [H ->].
  unfold seek_set in H2. destruct (Z.ltb_spec a 0) as [Hneg|Ha]; [discriminate |].
  injection H2 as <-.
  apply np_fromfile_i2_ok in H3 as (n & _ & Hn1 & Hn2 & ->). cbn [position contents] in *.
  exists a, n. split; [assumption |]. split; [assumption |].
  split; [exact Hn1 |]. split; [| exact H]. intros Hpc. apply Hn2. exact Hpc.
Qed.

Section Pixels.
Context {HeaderT Loc : Type}.
Variable can_alloc : Z -> list Z -> bool.
Variable loc_ltb : Loc -> Loc -> bool.
Variable UNCHeader : string -> result HeaderT.
Variable SliceHeader : string -> result (@SliceHeaderT Loc).

(** C1 (as amended).  For every decoded volume [pixel_count] is the product
    of the first [dim_count] entries of [dim_vector] (1 when [dim_count] is
    0).  When [dim_count] and those entries are not negative, [pixels] has
    exactly [pixel_count] elements: the samples stored at the pixel address,
    in file order, in shape [dim_vector[0:dim_count]], laid out row-major
    with the slice axis outermost (slice [i] is the [i]-th block of the
    stream). *)
Theorem C1_pixel_count_and_layout f uf :
  from_file can_alloc loc_ltb UNCHeader SliceHeader f = Ok uf ->
  exists d a,
    decoded uf = Some d /\
    index (addresses d) PIXELS = Ok a /\
    pixel_count d = prodZ (firstn (Z.to_nat (dimc uf)) (dimv uf)) /\
    (dimc uf = 0 -> pixel_count d = 1) /\
    (0 <= dimc uf ->
     Forall (fun x => 0 <= x) (firstn (Z.to_nat (dimc uf)) (dimv uf)) ->
     Z.of_nat (length (data (pixels uf))) = pixel_count d /\
     map Z.of_nat (shape (pixels uf)) = slice_to (dimv uf) (dimc uf) /\
     slice_to (dimv uf) (dimc uf) = firstn (Z.to_nat (dimc uf)) (dimv uf) /\
     data (pixels uf)
     = map be_signed (chunks 2 (Z.to_nat (pixel_count d)) (skipn (Z.to_nat a) (contents f))) /\
     forall d0 rest i idx,
       shape (pixels uf) = d0 :: rest ->
       (i < d0)%nat ->
       length idx = length rest ->
       forallb (fun p => Nat.ltb (snd p) (fst p)) (combine rest idx) = true ->
       nd_get (pixels uf) (i :: idx)
       = nth_error (data (pixels uf)) (i * prodn rest + nd_offset rest idx)).
Proof.
  intros H.
  apply from_file_inv in H
    as (d & ft & ft' & fi & fi' & fp & fp' & Hd & _ & _ & Kp & _ & _ & Hpc & _ & Hpx).
  apply calculate_pixel_count_spec in Hpc as [Hpc Hlen].
  apply read_pixels_spec in Hpx as (a & n & Ha & Ha0 & _ & Hn & Hre). rewrite Kp in Hre, Hn.
  exists d, a. split; [assumption |]. split; [assumption |].
  split; [assumption |]. split.
  { intros Hz. rewrite Hpc, Hz. reflexivity. }
  intros Hdc Hnn.
  assert (Hsl : slice_to (dimv uf) (dimc uf) = firstn (Z.to_nat (dimc uf)) (dimv uf)).
  { unfold slice_to. destruct (Z.ltb_spec (dimc uf) 0); [lia | reflexivity]. }
  rewrite Hsl in Hre. rewrite Hsl.
  apply np_reshape_nonneg in Hre as (Hsh & Hdt & _ & Hprod); [| assumption].
  unfold nd_size in Hprod. cbn [shape data prodn fold_right] in Hprod, Hdt.
  rewrite <- Hpc in Hprod.
  assert (Hpos : 0 <= pixel_count d) by lia.
  specialize (Hn Hpos).
  assert (Hn' : n = Z.to_nat (pixel_count d)) by lia.
  repeat split.
  - rewrite Hdt, length_map, chunks_length. lia.
  - rewrite Hsh. apply of_nat_to_nat_list. assumption.
  - rewrite Hdt, Hn'. reflexivity.
  - intros d0 rest i idx. apply nd_get_outermost.
Qed.

End Pixels.

(** The theorem applied to the decoded sample volume. *)
Lemma C1_pixel_count_witness :
  exists uf d,
    decode brain = Ok uf /\ decoded uf = Some d /\
    pixel_count d = 16 /\
    Z.of_nat (length (data (pixels uf))) = pixel_count d /\
    map Z.of_nat (shape (pixels uf)) = [4; 2; 2].
Proof.
  destruct (decode brain) as [uf|e] eqn:E; [| vm_compute in E; discriminate].
  destruct (C1_pixel_count_and_layout sample_alloc Z.ltb sample_UNCHeader sample_SliceHeader brain uf E)
    as (d & a & Hd & Ha & Hpc & _ & Hrest).
  assert (Huf : dimc uf = 3 /\ dimv uf = [4; 2; 2; 0; 0; 0; 0; 0; 0; 0]).
  { vm_compute in E. injection E as <-. split; reflexivity. }
  destruct Huf as [Hc Hv]. rewrite Hc, Hv in *.
  destruct Hrest as (Hl & Hs & _); [lia | repeat constructor; lia |].
  exists uf, d. repeat split; assumption.
Defined.

(** C1 (as stated) fails: with [dim_count = 1] and [dim_vector[0] = -1] the
    file decodes, [pixel_count] is -1, and [pixels] holds every sample found
    from the pixel address to the end of the file: five of them.  With
    [dim_count = -9] the loop is empty, [pixel_count] is 1, and the file
    decodes to the empty array of shape [dim_vector[0:-9] = (0,)]. *)
Lemma C1_pixel_count_counterexample :
  (exists uf d,
     decode negative_extent = Ok uf /\ decoded uf = Some d /\
     dimc uf = 1 /\
     pixel_count d = prodZ (firstn (Z.to_nat (dimc uf)) (dimv uf)) /\
     pixel_count d = -1 /\
     shape (pixels uf) = [5%nat] /\
     length (data (pixels uf)) = 5%nat /\
     Z.of_nat (length (data (pixels uf))) <> pixel_count d /\
     map Z.of_nat (shape (pixels uf)) <> slice_to (dimv uf) (dimc uf)) /\
  (exists uf d,
     decode negative_count = Ok uf /\ decoded uf = Some d /\
     dimc uf = -9 /\
     pixel_count d = 1 /\
     shape (pixels uf) = [0%nat] /\
     Z.of_nat (length (data (pixels uf))) <> pixel_count d).
Proof.
  split.
  - eexists _, _. split; [vm_compute; reflexivity |].
    split; [reflexivity |]. vm_compute. repeat split; discriminate.
  - eexists _, _. split; [vm_compute; reflexivity |].
    split; [reflexivity |]. vm_compute. repeat split; discriminate.
Qed.

(** ** Sorting *)

Section SortFacts.
Context {A K : Type} (ltb : K -> K -> bool) (key : A -> K).

Abbreviation key_le := (key_le ltb key).

Hypothesis ltb_asym : forall x y, ltb x y = true -> ltb y x = false.
Hypothesis ltb_negtrans : forall x y z, ltb y x = false -> ltb z y = false -> ltb z x = false.

Lemma insert_by_perm x l : Permutation (x :: l) (insert_by ltb key x l).
Proof.
  induction l as [|y l IH]; simpl; [reflexivity |].
  destruct (ltb (key y) (key x)); [| reflexivity].
  rewrite perm_swap. constructor. exact IH.
Qed.

Lemma sort_by_perm l : Permutation l (sort_by ltb key l).
Proof.
  induction l as [|x l IH]; simpl; [reflexivity |].
  rewrite <- insert_by_perm. constructor. exact IH.
Qed.

Lemma sort_by_length l : length (sort_by ltb key l) = length l.
Proof. symmetry. apply Permutation_length, sort_by_perm. Qed.

Lemma insert_by_sorted x l :
  StronglySorted key_le l -> StronglySorted key_le (insert_by ltb key x l).
Proof.
  induction 1 as [|y l Hs IH Hall]; simpl.
  - repeat constructor.
  - destruct (ltb (key y) (key x)) eqn:E.
    + constructor; [exact IH |].
      rewrite <- insert_by_perm. constructor; [| exact Hall].
      unfold key_le. apply ltb_asym. exact E.
    + constructor; [constructor; assumption |].
      constructor; [exact E |].
      eapply Forall_impl; [exact Hall |].
      intros z Hz. unfold key_le in *. eapply ltb_negtrans; eassumption.
Qed.

Lemma sort_by_sorted l : StronglySorted key_le (sort_by ltb key l).
Proof.
  induction l as [|x l IH]; simpl; [constructor |].
  apply insert_by_sorted. exact IH.
Qed.

End SortFacts.

(** ** The stages of [from_file] *)

Section StageFacts.
Context {HeaderT Loc : Type}.
Variable can_alloc : Z -> list Z -> bool.
Variable loc_ltb : Loc -> Loc -> bool.
Variable UNCHeader : string -> result HeaderT.
Variable SliceHeader : string -> result (@SliceHeaderT Loc).

(** [from_file] runs the fixed-section readers, then [_read_info], then
    [_read_pixels], and the first exception ends the decode. *)
Lemma from_file_stages f :
  from_file can_alloc loc_ltb UNCHeader SliceHeader f =
  match fixed_sections f with
  | Raise e => Raise e
  | Ok (fx, f8) =>
      match _read_info loc_ltb UNCHeader SliceHeader (fx_addresses fx) (fx_dimv fx) f8 with
      | Raise e => Raise e
      | Ok (ii, f9) =>
          match _read_pixels can_alloc (fx_addresses fx) (fx_pixel_count fx) (fx_dimc fx) (fx_dimv fx) f9 with
          | Raise e => Raise e
          | Ok (px, _) => Ok (assemble fx ii px)
          end
      end
  end.
Proof.
  unfold from_file, from_file_steps, fixed_sections, bindF.
  destruct (_read_addresses f) as [[addrs f1]|e]; [| reflexivity].
  destruct (_read_title addrs f1) as [[ttl f2]|e]; [| reflexivity].
  destruct (_read_maxmin addrs f2) as [[mm f3]|e]; [| reflexivity].
  destruct (_read_histogram addrs f3) as [[hh f4]|e]; [| reflexivity].
  destruct (_read_pixel_format addrs f4) as [[pf f5]|e]; [| reflexivity].
  destruct (_read_dimc addrs f5) as [[dc f6]|e]; [| reflexivity].
  destruct (_read_dimv addrs f6) as [[dv f7]|e]; [| reflexivity].
  unfold liftF.
  destruct (_calculate_pixel_count dc dv) as [pc|e]; [| reflexivity].
  unfold retF. cbn [fx_addresses fx_dimv fx_pixel_count fx_dimc].
  destruct (_read_info _ _ _ addrs dv f7) as [[ii f9]|e]; [| reflexivity].
  destruct (_read_pixels can_alloc addrs pc dc dv f9) as [[px f10]|e]; reflexivity.
Qed.

Lemma keeps_fixed_sections : keeps fixed_sections.
Proof.
  unfold fixed_sections. keeps_tac.
Qed.

(** Reading from an address up to the end of the file. *)
Lemma read_tail (c : list byte) (a : Z) :
  0 <= a <= Z.of_nat (length c) + 1 ->
  read (Z.of_nat (length c) - a) {| contents := c; position := Z.to_nat a |}
  = Ok (skipn (Z.to_nat a) c,
        {| contents := c;
           position := (Z.to_nat a + length (skipn (Z.to_nat a) c))%nat |}).
Proof.
  intros Ha. unfold read. cbn [contents position].
  destruct (Z.ltb_spec (Z.of_nat (length c) - a) (-1)); [lia |].
  destruct (Z.eqb_spec (Z.of_nat (length c) - a) (-1)); [reflexivity |].
  rewrite firstn_all2; [reflexivity |]. rewrite length_skipn. lia.
Qed.

(** [_read_info] reads the text from the info address to the end of the
    file and parses its records. *)
Lemma read_info_eq addrs dv f a :
  index addrs INFO = Ok a ->
  0 <= a <= Z.of_nat (length (contents f)) + 1 ->
  exists f',
    _read_info loc_ltb UNCHeader SliceHeader addrs dv f =
    match decode_ascii (skipn (Z.to_nat a) (contents f)) with
    | Raise e => Raise e
    | Ok text =>
        match parse_records UNCHeader SliceHeader dv (info_records text) with
        | Raise e => Raise e
        | Ok (hd, si) => Ok ((info_records text, hd, sort_by loc_ltb slice_location si), f')
        end
    end.
Proof.
  intros Hi Ha. eexists.
  unfold _read_info, bindF, seek_end, tell, seek_set. cbn [contents position].
  rewrite Hi. unfold liftF at 1.
  destruct (Z.ltb_spec a 0); [lia |].
  cbn [contents position]. rewrite read_tail by assumption.
  unfold liftF at 1. destruct (decode_ascii _) as [text|e]; [| reflexivity].
  unfold parse_records, info_records, bindR, liftF, retF.
  destruct (index _ 0) as [i0|e]; [| reflexivity].
  destruct (UNCHeader i0) as [hd|e]; [| reflexivity].
  destruct (index dv 0) as [d0|e]; [| reflexivity].
  destruct (mapM _ _) as [si|e]; reflexivity.
Qed.

Lemma read_info_inv addrs dv f ii f' :
  _read_info loc_ltb UNCHeader SliceHeader addrs dv f = Ok (ii, f') ->
  exists a text hd si,
    index addrs INFO = Ok a /\
    0 <= a <= Z.of_nat (length (contents f)) + 1 /\
    decode_ascii (skipn (Z.to_nat a) (contents f)) = Ok text /\
    parse_records UNCHeader SliceHeader dv (info_records text) = Ok (hd, si) /\
    ii = (info_records text, hd, sort_by loc_ltb slice_location si).
Proof.
  intros H.
  assert (Ha : exists a, index addrs INFO = Ok a /\
                         0 <= a <= Z.of_nat (length (contents f)) + 1).
  { unfold _read_info, bindF, seek_end, tell, seek_set, read in H.
    cbn [contents position] in H.
    destruct (index addrs INFO) as [a|e]; [| discriminate]. unfold liftF at 1 in H.
    exists a. split; [reflexivity |].
    destruct (Z.ltb_spec a 0); [discriminate |]. cbn [contents position] in H.
    destruct (Z.ltb_spec (Z.of_nat (length (contents f)) - a) (-1)); [discriminate |].
    lia. }
  destruct Ha as (a & Hi & Ha).
  destruct (read_info_eq addrs dv f a Hi Ha) as [f0 E]. rewrite E in H.
  destruct (decode_ascii _) as [text|e] eqn:Et; [| discriminate].
  destruct (parse_records _ _ _ _) as [[hd si]|e] eqn:Ep; [| discriminate].
  injection H as <- _. exists a, text, hd, si.
  repeat split; try assumption; try reflexivity; lia.
Qed.

End StageFacts.

(** ** The slice records *)

Lemma mapM_length {A B} (g : A -> result B) l r :
  mapM g l = Ok r -> length r = length l.
Proof.
  revert r. induction l as [|x l IH]; intros r H; simpl in H.
  - injection H as <-. reflexivity.
  - apply bindR_inv in H as (y & _ & H). apply bindR_inv in H as (ys & Hys & H).
    injection H as <-. simpl. f_equal. apply IH. exact Hys.
Qed.

Lemma range2_length a b : length (range2 a b) = Z.to_nat (b - a).
Proof. unfold range2. rewrite length_map, length_seq. reflexivity. Qed.

Section SliceOrder.
Context {HeaderT Loc : Type}.
Variable can_alloc : Z -> list Z -> bool.
Variable loc_ltb : Loc -> Loc -> bool.
Variable UNCHeader : string -> result HeaderT.
Variable SliceHeader : string -> result (@SliceHeaderT Loc).

(** [<] on slice locations is a strict order whose complement is
    transitive, as on numbers and strings. *)
Hypothesis loc_asym : forall x y, loc_ltb x y = true -> loc_ltb y x = false.
Hypothesis loc_negtrans :
  forall x y z, loc_ltb y x = false -> loc_ltb z y = false -> loc_ltb z x = false.

(** C2 (as amended).  After every successful decode [slice_info] holds
    exactly [max(dim_vector[0], 0)] records, [dim_vector[0]] of them whenever
    that number is not negative: the records 1 .. [dim_vector[0]] of the
    info section, rearranged so that the slice locations never decrease,
    whatever their order in the file. *)
Theorem C2_slice_info_sorted f uf :
  from_file can_alloc loc_ltb UNCHeader SliceHeader f = Ok uf ->
  exists d d0 parsed,
    decoded uf = Some d /\
    index (dimv uf) 0 = Ok d0 /\
    Z.of_nat (length (slice_info uf)) = Z.max 0 d0 /\
    (0 <= d0 -> Z.of_nat (length (slice_info uf)) = d0) /\
    mapM (fun i => r <-- index (info d) i ;; SliceHeader r) (range2 1 (d0 + 1)) = Ok parsed /\
    Permutation parsed (slice_info uf) /\
    StronglySorted (key_le loc_ltb slice_location) (slice_info uf) /\
    Sorted (key_le loc_ltb slice_location) (slice_info uf).
Proof.
  intros H.
  apply from_file_inv in H
    as (d & ft & ft' & fi & fi' & fp & fp' & Hd & _ & _ & _ & _ & _ & _ & Hinfo & _).
  apply read_info_inv in Hinfo as (a & text & hd & si & _ & _ & _ & Hp & Heq).
  injection Heq as Hi Hh Hs.
  unfold parse_records in Hp.
  apply bindR_inv in Hp as (i0 & _ & Hp). apply bindR_inv in Hp as (hd' & _ & Hp).
  apply bindR_inv in Hp as (d0 & Hd0 & Hp). apply bindR_inv in Hp as (parsed & Hm & Hp).
  injection Hp as _ <-.
  pose proof (mapM_length _ _ _ Hm) as Hlen. rewrite range2_length in Hlen.
  assert (Hl : length (slice_info uf) = Z.to_nat d0).
  { rewrite Hs, sort_by_length, Hlen. f_equal. lia. }
  exists d, d0, parsed. rewrite Hi.
  repeat split; try assumption; try lia.
  - rewrite Hs. apply sort_by_perm.
  - rewrite Hs. apply sort_by_sorted; assumption.
  - apply StronglySorted_Sorted. rewrite Hs. apply sort_by_sorted; assumption.
Qed.

End SliceOrder.

(** The theorem applied to the sample volume, whose four records are
    stored in the order d, b, c, a. *)
Lemma C2_slice_info_witness :
  exists uf,
    decode brain = Ok uf /\
    map slice_location (slice_info uf) = [97; 98; 99; 100] /\
    StronglySorted (key_le Z.ltb slice_location) (slice_info uf).
Proof.
  destruct (decode brain) as [uf|e] eqn:E; [| vm_compute in E; discriminate].
  assert (Hasym : forall x y, Z.ltb x y = true -> Z.ltb y x = false).
  { intros x y Hxy. apply Z.ltb_lt in Hxy. apply Z.ltb_ge. lia. }
  assert (Htrans : forall x y z, Z.ltb y x = false -> Z.ltb z y = false -> Z.ltb z x = false).
  { intros x y z H1 H2. apply Z.ltb_ge in H1, H2. apply Z.ltb_ge. lia. }
  destruct (C2_slice_info_sorted sample_alloc Z.ltb sample_UNCHeader sample_SliceHeader Hasym Htrans brain uf E)
    as (d & d0 & parsed & _ & _ & _ & _ & _ & _ & Hs & _).
  exists uf. split; [reflexivity |]. split; [| exact Hs].
  vm_compute in E. injection E as <-. reflexivity.
Defined.

(** C2 (as stated) fails: the file that declares [dim_vector[0] = -1]
    decodes, and its [slice_info] has no record, not -1 of them. *)
Lemma C2_slice_info_counterexample :
  exists uf,
    decode negative_extent = Ok uf /\
    index (dimv uf) 0 = Ok (-1) /\
    slice_info uf = [] /\
    Z.of_nat (length (slice_info uf)) <> -1.
Proof.
  eexists. split; [vm_compute; reflexivity |].
  split; [reflexivity |]. split; [reflexivity |]. discriminate.
Qed.

(** ** Too few info records *)

Section FewRecords.
Context {HeaderT Loc : Type}.
Variable can_alloc : Z -> list Z -> bool.
Variable loc_ltb : Loc -> Loc -> bool.
Variable UNCHeader : string -> result HeaderT.
Variable SliceHeader : string -> result (@SliceHeaderT Loc).

Lemma index_out_of_range {A} (l : list A) i :
  Z.of_nat (length l) <= i -> index l i = Raise IndexError.
Proof.
  intros Hi. unfold index. destruct (Z.ltb_spec i 0); [lia |].
  destruct (Z.ltb_spec i 0); [lia |].
  destruct (nth_error l (Z.to_nat i)) eqn:E; [| reflexivity].
  assert (Hlt : (Z.to_nat i < length l)%nat) by (apply nth_error_Some; congruence).
  lia.
Qed.

Lemma index_in_range {A} (l : list A) i :
  0 <= i < Z.of_nat (length l) -> exists x, index l i = Ok x /\ In x l.
Proof.
  intros Hi. unfold index. destruct (Z.ltb_spec i 0); [lia |].
  destruct (Z.ltb_spec i 0); [lia |].
  destruct (nth_error l (Z.to_nat i)) eqn:E.
  - exists a. split; [reflexivity |]. eapply nth_error_In. exact E.
  - apply nth_error_None in E. lia.
Qed.

(** The loop over the slice records stops with an exception as soon as it
    runs past the last record. *)
Lemma slice_loop_short (info : list string) n : forall s,
  (0 < n)%nat -> (length info < 1 + s + n)%nat ->
  (exists e, mapM (fun i => r <-- index info i ;; SliceHeader r)
                  (map (fun k => 1 + Z.of_nat k) (seq s n)) = Raise e) /\
  ((forall r, In r info -> is_ok (SliceHeader r) = true) ->
   mapM (fun i => r <-- index info i ;; SliceHeader r)
        (map (fun k => 1 + Z.of_nat k) (seq s n)) = Raise IndexError).
Proof.
  induction n as [|n IH]; intros s Hn Hlen; [lia |].
  cbn [seq map mapM].
  destruct (Z_lt_le_dec (1 + Z.of_nat s) (Z.of_nat (length info))) as [Hin|Hout].
  - destruct (index_in_range info (1 + Z.of_nat s)) as (r & Hr & Hrin); [lia |].
    rewrite Hr. cbn [bindR].
    destruct (IH (S s)) as [[e He] Hprec]; [lia | lia |].
    split.
    + destruct (SliceHeader r) as [y|e']; cbn [bindR]; [| eauto].
      rewrite He. eauto.
    + intros Hall. specialize (Hprec Hall). pose proof (Hall r Hrin) as Hok.
      destruct (SliceHeader r) as [y|e']; [| discriminate]. cbn [bindR].
      rewrite Hprec. reflexivity.
  - rewrite index_out_of_range by lia. cbn [bindR]. split; [eauto | reflexivity].
Qed.

Lemma parse_records_short dv info d0 :
  index dv 0 = Ok d0 ->
  Z.of_nat (length info) < 1 + d0 ->
  (exists e, parse_records UNCHeader SliceHeader dv info = Raise e) /\
  ((forall r, In r info -> is_ok (UNCHeader r) = true /\ is_ok (SliceHeader r) = true) ->
   parse_records UNCHeader SliceHeader dv info = Raise IndexError).
Proof.
  intros Hd0 Hlen. unfold parse_records.
  destruct info as [|i0 info'] eqn:Ei.
  { cbn. split; [eauto | reflexivity]. }
  rewrite <- Ei in *. assert (Hi0 : index info 0 = Ok i0) by (rewrite Ei; reflexivity).
  rewrite Hi0, Hd0. cbn [bindR].
  assert (Hr : range2 1 (d0 + 1) = map (fun k => 1 + Z.of_nat k) (seq 0 (Z.to_nat d0))).
  { unfold range2. repeat f_equal. lia. }
  rewrite Hr.
  assert (Hl1 : (0 < length info)%nat) by (rewrite Ei; simpl; lia).
  destruct (slice_loop_short info (Z.to_nat d0) 0%nat) as [[e He] Hprec]; [lia | lia |].
  split.
  - destruct (UNCHeader i0) as [hd|e']; cbn [bindR]; [| eauto]. rewrite He. eauto.
  - intros Hall.
    assert (Hin : In i0 info) by (rewrite Ei; left; reflexivity).
    destruct (Hall i0 Hin) as [Hok _].
    destruct (UNCHeader i0) as [hd|e']; [| discriminate]. cbn [bindR].
    rewrite Hprec; [reflexivity |]. intros r Hrin. apply Hall. exact Hrin.
Qed.

(** C6 (as amended).  When the fixed sections have been read and the info
    text, from the info address to the end of the file, splits into fewer
    than [1 + dim_vector[0]] non-empty records, [from_file] raises and
    returns no object.  The exception is the built-in [IndexError] of the
    record lookup, unless a record parser raises first on one of the
    records that are present. *)
Theorem C6_too_few_records f fx f8 a text d0 :
  fixed_sections f = Ok (fx, f8) ->
  index (fx_addresses fx) INFO = Ok a ->
  0 <= a <= Z.of_nat (length (contents f)) + 1 ->
  decode_ascii (skipn (Z.to_nat a) (contents f)) = Ok text ->
  index (fx_dimv fx) 0 = Ok d0 ->
  Z.of_nat (length (info_records text)) < 1 + d0 ->
  (exists e, from_file can_alloc loc_ltb UNCHeader SliceHeader f = Raise e) /\
  ((forall r, In r (info_records text) ->
              is_ok (UNCHeader r) = true /\ is_ok (SliceHeader r) = true) ->
   from_file can_alloc loc_ltb UNCHeader SliceHeader f = Raise IndexError).
Proof.
  intros Hfx Hi Ha Ht Hd0 Hlen.
  pose proof (keeps_fixed_sections _ _ _ Hfx) as K.
  rewrite from_file_stages, Hfx.
  destruct (read_info_eq loc_ltb UNCHeader SliceHeader (fx_addresses fx) (fx_dimv fx) f8 a Hi)
    as [f9 E]; [rewrite K; exact Ha |].
  rewrite E, K, Ht.
  destruct (parse_records_short (fx_dimv fx) (info_records text) d0 Hd0 Hlen)
    as [[e He] Hprec].
  split.
  - rewrite He. eauto.
  - intros Hall. rewrite (Hprec Hall). reflexivity.
Qed.

End FewRecords.

(** The theorem applied to the sample file with three records. *)
Lemma C6_too_few_records_witness :
  (exists e, decode few_records = Raise e) /\ decode few_records = Raise IndexError.
Proof.
  destruct (fixed_sections few_records) as [[fx f8]|e] eqn:E;
    [| vm_compute in E; discriminate].
  assert (Hfx : fx_addresses fx = [36; 48; 4148; 4229; 4233; 4237; 4277; 4309; 0]
                /\ fx_dimv fx = [4; 2; 2; 0; 0; 0; 0; 0; 0; 0]).
  { vm_compute in E. injection E as <- _. split; reflexivity. }
  destruct Hfx as [Haddr Hdimv].
  destruct (C6_too_few_records sample_alloc Z.ltb sample_UNCHeader sample_SliceHeader
              few_records fx f8 4309 (String "h" (String "d" (String "r" (String NUL
                (String "d" (String "1" (String NUL (String NUL
                (String "b" (String "2" (String NUL EmptyString))))))))))) 4 E)
    as [H1 H2].
  - rewrite Haddr. reflexivity.
  - vm_compute. split; discriminate.
  - vm_compute. reflexivity.
  - rewrite Hdimv. reflexivity.
  - vm_compute. reflexivity.
  - split; [exact H1 |]. apply H2.
    intros r Hr. vm_compute in Hr.
    destruct Hr as [<- | [<- | [<- | []]]]; split; reflexivity.
Defined.

(** C6 (as stated) fails: the decode of the three-record file does stop,
    but with [IndexError]; there is no [InconsistentMetadataError]. *)
Lemma C6_too_few_records_counterexample :
  (exists fx f8 text,
     fixed_sections few_records = Ok (fx, f8) /\
     index (fx_dimv fx) 0 = Ok 4 /\
     decode_ascii (skipn 4309 (contents few_records)) = Ok text /\
     length (info_records text) = 3%nat) /\
  decode few_records = Raise IndexError /\
  exn_name IndexError <> "InconsistentMetadataError".
Proof.
  split; [| split; [vm_compute; reflexivity | discriminate]].
  eexists _, _, _. split; [vm_compute; reflexivity |].
  split; [reflexivity |]. split; vm_compute; reflexivity.
Qed.

(** ** A pixel stream that is too short *)

Lemma prodZ_split sh :
  prodZ sh = prodZ (List.filter (fun d => 0 <=? d) sh) * prodZ (List.filter (fun d => d <? 0) sh)
  /\ 0 <= prodZ (List.filter (fun d => 0 <=? d) sh).
Proof.
  induction sh as [|d sh [IH1 IH2]]; simpl; [lia |].
  destruct (Z.leb_spec 0 d); destruct (Z.ltb_spec d 0); try lia; simpl.
  - rewrite IH1. split; [ring | nia].
  - rewrite IH1. split; [ring | assumption].
Qed.


Lemma fixed_sections_inv f fx f8 :
  fixed_sections f = Ok (fx, f8) ->
  _calculate_pixel_count (fx_dimc fx) (fx_dimv fx) = Ok (fx_pixel_count fx).
Proof.
  unfold fixed_sections. intros E.
  apply bindF_inv in E as (addrs & f1 & E1 & E).
  apply bindF_inv in E as (ttl & f2 & E2 & E).
  apply bindF_inv in E as (mm & f3 & E3 & E).
  apply bindF_inv in E as (hh & f4 & E4 & E).
  apply bindF_inv in E as (pf & f5 & E5 & E).
  apply bindF_inv in E as (dc & f6 & E6 & E).
  apply bindF_inv in E as (dv & f7 & E7 & E).
  apply bindF_inv in E as (pc & f8' & E8 & E).
  apply retF_inv in E as [-> _]. apply liftF_inv in E8 as [E8 _]. exact E8.
Qed.

(** Creating an array succeeds when no extent is negative, the size fits
    [intp] and the allocator grants the block. *)
Lemma np_new_ok can_alloc itemsize sh :
  existsb (fun d => d <? 0) sh = false ->
  np_fits itemsize sh = true ->
  can_alloc itemsize sh = true ->
  np_new can_alloc itemsize sh = Ok tt.
Proof. intros H1 H2 H3. unfold np_new. rewrite H1, H2, H3. reflexivity. Qed.

(** The shape of the working array of a split into [n > 0] parts has no
    negative extent. *)
Lemma split_shape_nonneg (d0 d1 d2 : nat) (n : Z) :
  0 < n -> existsb (fun d => d <? 0) (split_shape d0 d1 d2 n) = false.
Proof.
  intros Hn. unfold split_shape. cbn [existsb].
  pose proof (Z.quot_pos (Z.of_nat d0) n ltac:(lia) Hn) as Hq.
  destruct (Z.ltb_spec n 0); [lia |].
  destruct (Z.ltb_spec (Z.quot (Z.of_nat d0) n) 0); [lia |].
  destruct (Z.ltb_spec (Z.of_nat d1) 0); [lia |].
  destruct (Z.ltb_spec (Z.of_nat d2) 0); [lia |]. reflexivity.
Qed.

(** It is created when its size fits [intp] and the allocator grants the
    block, refused with [ValueError] when the size does not fit, and with
    [MemoryError] when the allocator refuses. *)
Lemma split_array_new can_alloc (d0 d1 d2 : nat) (n : Z) :
  0 < n ->
  np_fits 8 (split_shape d0 d1 d2 n) = true ->
  can_alloc 8 (split_shape d0 d1 d2 n) = true ->
  np_new can_alloc 8 (split_shape d0 d1 d2 n) = Ok tt.
Proof.
  intros Hn Hfits Halloc. apply np_new_ok; [| exact Hfits | exact Halloc].
  apply split_shape_nonneg. exact Hn.
Qed.





Section ShortPixels.
Context {HeaderT Loc : Type}.
Variable can_alloc : Z -> list Z -> bool.
Variable loc_ltb : Loc -> Loc -> bool.
Variable UNCHeader : string -> result HeaderT.
Variable SliceHeader : string -> result (@SliceHeaderT Loc).


End ShortPixels.



(** ** The partition operations *)

Section PartitionFacts.
Context {HeaderT Loc : Type}.
Variable can_alloc : Z -> list Z -> bool.
Variable uninit : nat -> Z.

Lemma split_echoes_partition (uf : @UNCFile HeaderT Loc) :
  split_echoes can_alloc uninit uf = partition can_alloc uninit uf (num_echoes uf) (select_echo uf).
Proof. reflexivity. Qed.

Lemma split_volumes_partition (uf : @UNCFile HeaderT Loc) n_vols :
  split_volumes can_alloc uninit uf n_vols
  = partition can_alloc uninit uf n_vols (fun _ => slice_step (slice_info uf) n_vols).
Proof. reflexivity. Qed.

End PartitionFacts.

(** ** Assignment broadcasting *)

Lemma blocks_concat {A} (d : list A) sz s : forall j,
  flat_map (fun k => firstn sz (skipn (k * sz) d)) (seq j s)
  = firstn (s * sz) (skipn (j * sz) d).
Proof.
  induction s as [|s IH]; intros j; [reflexivity |].
  cbn [seq flat_map]. rewrite IH.
  replace (S j * sz)%nat with (j * sz + sz)%nat by lia.
  rewrite <- drop_drop, take_take_drop. f_equal.
Qed.

Lemma flat_map_agree {A B} (g h : A -> list B) l :
  (forall x, In x l -> g x = h x) -> flat_map g l = flat_map h l.
Proof.
  induction l as [|x l IH]; intros H; simpl; [reflexivity |].
  rewrite H by (left; reflexivity). f_equal. apply IH. intros y Hy. apply H. now right.
Qed.

Lemma bcast_data_same sh : forall d,
  length d = prodn sh -> bcast_data sh sh d = d.
Proof.
  induction sh as [|s ss IH]; intros d Hl; [reflexivity |].
  cbn [bcast_data]. rewrite Nat.eqb_refl.
  cbn [prodn fold_right] in Hl. fold (prodn ss) in Hl.
  rewrite (flat_map_agree _ (fun k => firstn (prodn ss) (skipn (k * prodn ss) d))).
  - rewrite blocks_concat. cbn [Nat.mul skipn]. apply firstn_all2. lia.
  - intros k Hk. apply in_seq in Hk. apply IH.
    rewrite length_firstn, length_skipn. nia.
Qed.

Lemma compat_refl sh : compat sh sh = true.
Proof. induction sh as [|s ss IH]; simpl; [reflexivity |]. now rewrite Nat.eqb_refl. Qed.

Lemma compat_length src tgt : compat src tgt = true -> length src = length tgt.
Proof.
  revert tgt. induction src as [|s ss IH]; intros [|t ts] H; simpl in *;
    try discriminate; [reflexivity |].
  apply andb_prop in H as [_ H]. f_equal. apply IH. exact H.
Qed.

Lemma compat_ones src m :
  compat src (repeat 1%nat m) = true -> src = repeat 1%nat m.
Proof.
  revert src. induction m as [|m IH]; intros [|s ss] H; simpl in *;
    try discriminate; [reflexivity |].
  apply andb_prop in H as [Hs H]. rewrite (IH ss H). f_equal.
  destruct (Nat.eqb_spec s 1); [assumption | discriminate].
Qed.

Lemma strip_ones_length k : forall l, (length l <= length (strip_ones k l) + k)%nat.
Proof.
  induction k as [|k IH]; intros [|d l]; simpl; try lia.
  destruct (Nat.eqb d 1); simpl; [| lia]. specialize (IH l). lia.
Qed.

Lemma strip_ones_exact k : forall l,
  (length (strip_ones k l) + k = length l)%nat ->
  firstn k l = repeat 1%nat k /\ strip_ones k l = skipn k l.
Proof.
  induction k as [|k IH]; intros [|d l] H; simpl in *; try lia; auto.
  destruct (Nat.eqb_spec d 1) as [->|Hd]; simpl in H.
  - destruct (IH l) as [H1 H2]; [lia |]. rewrite H1, H2. auto.
  - lia.
Qed.

Lemma strip_ones_repeat k m : strip_ones k (repeat 1%nat (k + m)) = repeat 1%nat m.
Proof. induction k as [|k IH]; simpl; [destruct m; reflexivity | exact IH]. Qed.

(** A source of the destination's shape is copied as it is. *)
Lemma broadcast_to_same src tgt :
  shape src = tgt -> length (data src) = prodn tgt ->
  broadcast_to src tgt = Ok (data src).
Proof.
  intros <- Hl. unfold broadcast_to. rewrite Nat.sub_diag. cbn [strip_ones].
  rewrite Nat.sub_diag. cbn [repeat app]. rewrite compat_refl, bcast_data_same; auto.
Qed.

(** A source with more axes than the three of the destination is accepted
    only when every extent is 1: a single element. *)
Lemma broadcast_to_slab src a b c rest blk :
  shape src = a :: b :: c :: rest -> rest <> [] ->
  broadcast_to src [a; b; c] = Ok blk ->
  shape src = repeat 1%nat (length rest + 3).
Proof.
  intros Hs Hrest. unfold broadcast_to. rewrite Hs.
  cbn [length]. replace (S (S (S (length rest))) - 3)%nat with (length rest) by lia.
  set (l := a :: b :: c :: rest). set (k := length rest).
  destruct (compat _ _) eqn:Ec; [| discriminate]. intros _.
  pose proof (strip_ones_length k l) as Hge.
  pose proof (compat_length _ _ Ec) as Hlen. rewrite length_app, repeat_length in Hlen.
  assert (Hl : length l = (k + 3)%nat) by (unfold l, k; simpl; lia).
  cbn [length] in Hlen.
  assert (Hex : (length (strip_ones k l) + k = length l)%nat) by lia.
  destruct (strip_ones_exact k l Hex) as [Hfirst Hstrip].
  replace (3 - length (strip_ones k l))%nat with 0%nat in Ec by lia. cbn [repeat app] in Ec.
  rewrite Hstrip in Ec.
  unfold l, k in *. clear l k Hge Hlen Hl Hex Hstrip.
  destruct rest as [|r1 [|r2 [|r3 rest']]]; [congruence | | |].
  - cbn in Hfirst, Ec. injection Hfirst as ->.
    repeat match type of Ec with
           | (_ && _) = true => apply andb_prop in Ec as [? Ec]
           end.
    repeat match goal with
           | H : (Nat.eqb ?x ?y || Nat.eqb ?x 1) = true |- _ =>
               apply orb_prop in H as [H | H]; apply Nat.eqb_eq in H; subst
           end; reflexivity.
  - cbn in Hfirst, Ec. injection Hfirst as -> ->.
    repeat match type of Ec with
           | (_ && _) = true => apply andb_prop in Ec as [? Ec]
           end.
    repeat match goal with
           | H : (Nat.eqb ?x ?y || Nat.eqb ?x 1) = true |- _ =>
               apply orb_prop in H as [H | H]; apply Nat.eqb_eq in H; subst
           end; reflexivity.
  - cbn [length firstn repeat] in Hfirst. injection Hfirst as -> -> -> Hf.
    apply (compat_ones _ 3) in Ec. cbn [length] in Ec.
    rewrite <- (firstn_skipn (S (S (S (length rest')))) (1 :: 1 :: 1 :: r1 :: r2 :: r3 :: rest'))%nat.
    cbn [firstn]. rewrite Hf. rewrite Ec.
    change (1 :: 1 :: 1 :: repeat 1 (length rest'))%nat with (repeat 1%nat (S (S (S (length rest'))))).
    rewrite <- repeat_app. reflexivity.
Qed.

Lemma broadcast_to_ones src m :
  shape src = repeat 1%nat (m + 3) -> length (data src) = 1%nat ->
  broadcast_to src [1; 1; 1]%nat = Ok (data src).
Proof.
  intros Hs Hl. unfold broadcast_to. rewrite Hs, repeat_length.
  cbn [length]. replace (m + 3 - 3)%nat with m by lia.
  rewrite strip_ones_repeat. cbn [repeat length Nat.sub app compat Nat.eqb orb andb].
  rewrite (bcast_data_same [1; 1; 1]%nat); [reflexivity | exact Hl].
Qed.

(** ** The pixel loop of the partition operations *)

Lemma prodn_ones m : prodn (repeat 1%nat m) = 1%nat.
Proof. induction m as [|m IH]; simpl; [reflexivity |]. fold (prodn (repeat 1%nat m)). lia. Qed.

Lemma prodn_cons d sh : prodn (d :: sh) = (d * prodn sh)%nat.
Proof. reflexivity. Qed.

Lemma slice_bound_in d0 (x : nat) : (x <= d0)%nat -> slice_bound d0 (Z.of_nat x) = x.
Proof.
  intros Hx. unfold slice_bound. destruct (Z.ltb_spec (Z.of_nat x) 0); [lia |].
  rewrite Nat2Z.id. lia.
Qed.

Section FillLoop.
Variable px : ndarray.
Variables d0 d1 d2 : nat.
Variable rest : list nat.
Variables parts per : nat.

Hypothesis Hshape : shape px = d0 :: d1 :: d2 :: rest.
Hypothesis Hwf : nd_wf px.
Hypothesis Hfit : (parts * per <= d0)%nat.
Hypothesis Hslab : rest = [] \/ per :: d1 :: d2 :: rest = repeat 1%nat (length rest + 3).

Abbreviation slab := (prodn (d1 :: d2 :: rest)).
Abbreviation blk := (per * slab)%nat.

Lemma length_pixels : length (data px) = (d0 * slab)%nat.
Proof. unfold nd_wf in Hwf. rewrite Hwf, Hshape. reflexivity. Qed.

Lemma prodn_block : prodn [per; d1; d2] = blk.
Proof.
  destruct Hslab as [-> | H]; [reflexivity |].
  replace (length rest + 3)%nat with (S (S (S (length rest)))) in H by lia.
  cbn [repeat] in H. injection H as -> -> -> Hr.
  rewrite Hr. rewrite !prodn_cons, prodn_ones. reflexivity.
Qed.

Lemma getslice_part i :
  (i < parts)%nat ->
  nd_getslice3 px (Z.of_nat per * Z.of_nat i) (Z.of_nat per * Z.of_nat i + Z.of_nat per)
  = Ok {| dtype_of := dtype_of px; shape := per :: d1 :: d2 :: rest;
          data := firstn blk (skipn (i * blk) (data px)) |}.
Proof.
  intros Hi. unfold nd_getslice3. rewrite Hshape.
  replace (Z.of_nat per * Z.of_nat i + Z.of_nat per) with (Z.of_nat (per * i + per)) by lia.
  replace (Z.of_nat per * Z.of_nat i) with (Z.of_nat (per * i)) by lia.
  rewrite !slice_bound_in by nia.
  replace (per * i + per - per * i)%nat with per by lia.
  replace (per * i * slab)%nat with (i * blk)%nat by lia.
  reflexivity.
Qed.

Lemma broadcast_part i :
  (i < parts)%nat ->
  broadcast_to {| dtype_of := dtype_of px; shape := per :: d1 :: d2 :: rest;
                  data := firstn blk (skipn (i * blk) (data px)) |} [per; d1; d2]
  = Ok (firstn blk (skipn (i * blk) (data px))).
Proof.
  intros Hi.
  assert (Hl : length (firstn blk (skipn (i * blk) (data px))) = blk).
  { rewrite length_firstn, length_skipn, length_pixels. nia. }
  destruct Hslab as [Hr | Hones].
  - apply broadcast_to_same; cbn [shape data].
    + rewrite Hr. reflexivity.
    + rewrite Hl. symmetry. apply prodn_block.
  - pose proof prodn_block as Hb.
    assert (H3 : [per; d1; d2] = [1; 1; 1]%nat).
    { replace (length rest + 3)%nat with (S (S (S (length rest)))) in Hones by lia.
      cbn [repeat] in Hones. injection Hones as -> -> -> _. reflexivity. }
    rewrite H3 in Hb. rewrite H3.
    refine (broadcast_to_ones
              {| dtype_of := dtype_of px; shape := per :: d1 :: d2 :: rest;
                 data := firstn blk (skipn (i * blk) (data px)) |} (length rest) _ _);
      cbn [shape data].
    + exact Hones.
    + rewrite Hl, <- Hb. reflexivity.
Qed.

Lemma fill_step_part (g : list Z) j :
  (j < parts)%nat ->
  length g = ((parts - j) * blk)%nat ->
  fill_step px (Z.of_nat per)
    {| dtype_of := Float64; shape := [parts; per; d1; d2];
       data := firstn (j * blk) (data px) ++ g |} (Z.of_nat j)
  = Ok {| dtype_of := Float64; shape := [parts; per; d1; d2];
          data := firstn (S j * blk) (data px) ++ skipn blk g |}.
Proof.
  intros Hj Hg. unfold fill_step. rewrite (getslice_part j Hj). cbn [bindR].
  unfold nd_setblock. cbn [shape dtype_of data].
  destruct (Z.ltb_spec (Z.of_nat j) 0); [lia |].
  destruct (Z.leb_spec (Z.of_nat parts) (Z.of_nat j)); [lia |]. cbn [orb].
  rewrite (broadcast_part j Hj). cbn [bindR]. rewrite Nat2Z.id, prodn_block.
  assert (Hp : length (firstn (j * blk) (data px)) = (j * blk)%nat).
  { rewrite length_firstn, length_pixels. nia. }
  do 2 f_equal.
  rewrite take_app_length' by (symmetry; exact Hp).
  rewrite drop_app_ge by lia. rewrite Hp.
  replace ((j + 1) * blk - j * blk)%nat with blk by lia.
  rewrite app_assoc, take_take_drop. do 2 f_equal. lia.
Qed.

Lemma fill_loop m : forall j (g : list Z),
  (j + m = parts)%nat ->
  length g = (m * blk)%nat ->
  foldM (fill_step px (Z.of_nat per)) (map Z.of_nat (seq j m))
    {| dtype_of := Float64; shape := [parts; per; d1; d2];
       data := firstn (j * blk) (data px) ++ g |}
  = Ok {| dtype_of := Float64; shape := [parts; per; d1; d2];
          data := firstn (parts * blk) (data px) |}.
Proof.
  induction m as [|m IH]; intros j g Hjm Hg.
  - cbn [seq map foldM]. destruct g; [| discriminate].
    rewrite app_nil_r. do 3 f_equal. lia.
  - cbn [seq map foldM]. rewrite fill_step_part by (try lia; rewrite Hg; f_equal; lia).
    cbn [bindR]. apply IH; [lia |]. rewrite length_skipn, Hg. lia.
Qed.

Lemma getblock_part k :
  (k < parts)%nat ->
  nd_getblock {| dtype_of := Float64; shape := [parts; per; d1; d2];
                 data := firstn (parts * blk) (data px) |} (Z.of_nat k)
  = Ok {| dtype_of := Float64; shape := [per; d1; d2];
          data := firstn blk (skipn (k * blk) (data px)) |}.
Proof.
  intros Hk. unfold nd_getblock. cbn [shape dtype_of data].
  destruct (Z.ltb_spec (Z.of_nat k) 0); [lia |].
  destruct (Z.leb_spec (Z.of_nat parts) (Z.of_nat k)); [lia |]. cbn [orb].
  rewrite Nat2Z.id, prodn_block. do 2 f_equal.
  rewrite skipn_firstn_comm, take_take. f_equal. nia.
Qed.

End FillLoop.

(** ** The partition operations, on volumes they accept *)

Lemma mapM_agree {A B} (g h : A -> result B) l :
  (forall x, In x l -> g x = h x) -> mapM g l = mapM h l.
Proof.
  induction l as [|x l IH]; intros H; [reflexivity |].
  cbn [mapM]. rewrite H by (left; reflexivity).
  rewrite IH; [reflexivity |]. intros y Hy. apply H. now right.
Qed.

Lemma mapM_total {A B} (g : A -> result B) (h : A -> B) l :
  (forall x, In x l -> g x = Ok (h x)) -> mapM g l = Ok (map h l).
Proof.
  induction l as [|x l IH]; intros H; [reflexivity |].
  cbn [mapM map]. rewrite H by (left; reflexivity). cbn [bindR].
  rewrite IH; [reflexivity |]. intros y Hy. apply H. now right.
Qed.

Lemma mapM_total_map {A B C} (g : B -> result C) (h : A -> B) (gh : A -> C) l :
  (forall x, In x l -> g (h x) = Ok (gh x)) -> mapM g (map h l) = Ok (map gh l).
Proof.
  induction l as [|x l IH]; intros H; [reflexivity |].
  cbn [mapM map]. rewrite H by (left; reflexivity). cbn [bindR].
  rewrite IH; [reflexivity |]. intros y Hy. apply H. now right.
Qed.

Lemma mapM_lookup {A B} (g : A -> result B) l rs k r :
  mapM g l = Ok rs -> nth_error rs k = Some r ->
  exists x, nth_error l k = Some x /\ g x = Ok r.
Proof.
  revert rs k. induction l as [|x l IH]; intros rs k H Hk; cbn [mapM] in H.
  - injection H as <-. destruct k; discriminate.
  - apply bindR_inv in H as (y & Hy & H). apply bindR_inv in H as (ys & Hys & H).
    injection H as <-. destruct k as [|k]; cbn [nth_error] in *.
    + injection Hk as <-. eauto.
    + eapply IH; eassumption.
Qed.

Lemma in_range n x : In x (range n) -> exists k, x = Z.of_nat k /\ (k < Z.to_nat n)%nat.
Proof.
  unfold range. rewrite in_map_iff. intros (k & <- & Hk). apply in_seq in Hk.
  exists k. split; [reflexivity | lia].
Qed.

Lemma quot_of_nat (a b : nat) :
  (0 < b)%nat -> Z.quot (Z.of_nat a) (Z.of_nat b) = Z.of_nat (a / b).
Proof.
  intros Hb. rewrite Z.quot_div_nonneg by lia. symmetry. apply Nat2Z.inj_div.
Qed.

Section PartitionOk.
Context {HeaderT Loc : Type}.
Variable can_alloc : Z -> list Z -> bool.
Variable uninit : nat -> Z.
Variable uf : @UNCFile HeaderT Loc.
Variables d0 d1 d2 : nat.
Variable rest : list nat.
Variable parts : nat.
Variable select : Z -> result (list (@SliceHeaderT Loc)).

Hypothesis Hshape : shape (pixels uf) = d0 :: d1 :: d2 :: rest.
Hypothesis Hparts : (0 < parts)%nat.

Abbreviation per_part := (d0 / parts)%nat.

Lemma parts_fit : (parts * per_part <= d0)%nat.
Proof. apply Nat.Div0.mul_div_le. Qed.

(** The steps of [partition] up to the creation of the working array. *)
Lemma partition_start :
  partition can_alloc uninit uf (Z.of_nat parts) select =
  (_ <-- np_new can_alloc 8 (split_shape d0 d1 d2 (Z.of_nat parts)) ;;
   split_pixels <-- foldM (fill_step (pixels uf) (Z.of_nat per_part))
                      (map Z.of_nat (seq 0 parts))
                      {| dtype_of := Float64; shape := [parts; per_part; d1; d2];
                         data := map uninit (seq 0 (prodn [parts; per_part; d1; d2])) |} ;;
   mapM (fun n =>
       si <-- select n ;;
       px <-- nd_getblock split_pixels n ;;
       Ok {| header := header uf; dimc := dimc uf; dimv := dimv uf;
             slice_info := si; pixels := px; decoded := None |})
     (map Z.of_nat (seq 0 parts))).
Proof.
  unfold partition. rewrite Hshape.
  change (index (d0 :: d1 :: d2 :: rest) 0) with (Ok (A := nat) d0).
  change (index (d0 :: d1 :: d2 :: rest) 1) with (Ok (A := nat) d1).
  change (index (d0 :: d1 :: d2 :: rest) 2) with (Ok (A := nat) d2).
  cbn [bindR]. unfold int_truediv.
  destruct (Z.eqb_spec (Z.of_nat parts) 0); [lia |].
  cbn [bindR]. unfold np_ndarray, split_shape.
  destruct (np_new _ _ _) as [[]|e]; [| reflexivity]. cbn [bindR].
  rewrite quot_of_nat by assumption.
  cbn [map]. rewrite !Nat2Z.id. unfold range. rewrite Nat2Z.id.
  reflexivity.
Qed.

(** The working array can be created. *)
Hypothesis Hnew : np_new can_alloc 8 (split_shape d0 d1 d2 (Z.of_nat parts)) = Ok tt.

(** The steps of [partition] before the pixel loop. *)
Lemma partition_prefix :
  partition can_alloc uninit uf (Z.of_nat parts) select =
  (split_pixels <-- foldM (fill_step (pixels uf) (Z.of_nat per_part))
                      (map Z.of_nat (seq 0 parts))
                      {| dtype_of := Float64; shape := [parts; per_part; d1; d2];
                         data := map uninit (seq 0 (prodn [parts; per_part; d1; d2])) |} ;;
   mapM (fun n =>
       si <-- select n ;;
       px <-- nd_getblock split_pixels n ;;
       Ok {| header := header uf; dimc := dimc uf; dimv := dimv uf;
             slice_info := si; pixels := px; decoded := None |})
     (map Z.of_nat (seq 0 parts))).
Proof. rewrite partition_start, Hnew. reflexivity. Qed.

Hypothesis Hwf : nd_wf (pixels uf).
Hypothesis Hslab :
  rest = [] \/ per_part :: d1 :: d2 :: rest = repeat 1%nat (length rest + 3).

(** On a volume whose slabs the assignment accepts, [partition] returns
    for each index the part built from the selected records. *)
Lemma partition_eq :
  partition can_alloc uninit uf (Z.of_nat parts) select =
  mapM (fun n => si <-- select n ;;
                 Ok (part_of uf per_part d1 d2 (prodn (d1 :: d2 :: rest)) (Z.to_nat n) si))
       (range (Z.of_nat parts)).
Proof.
  rewrite partition_prefix.
  pose proof (fill_loop (pixels uf) d0 d1 d2 rest parts per_part Hshape Hwf parts_fit Hslab
                parts 0%nat (map uninit (seq 0 (prodn [parts; per_part; d1; d2])))) as Hloop.
  cbn [Nat.mul] in Hloop.
  change (firstn 0 (data (pixels uf))) with (@nil Z) in Hloop. cbn [app] in Hloop.
  rewrite Hloop; cycle 1.
  { lia. }
  { rewrite length_map, length_seq, prodn_cons.
    rewrite (prodn_block (pixels uf) d0 d1 d2 rest parts per_part); auto using parts_fit. }
  cbn [bindR]. unfold range. rewrite Nat2Z.id.
  apply mapM_agree. intros x Hx. apply in_map_iff in Hx as (k & <- & Hk).
  apply in_seq in Hk.
  destruct (select (Z.of_nat k)) as [si|e]; [| reflexivity]. cbn [bindR].
  rewrite (getblock_part (pixels uf) d0 d1 d2 rest parts per_part Hshape parts_fit Hslab)
    by lia.
  cbn [bindR]. rewrite Nat2Z.id. reflexivity.
Qed.

End PartitionOk.

(** ** The partition operations, on volumes they refuse *)

Lemma broadcast_to_raise src tgt e : broadcast_to src tgt = Raise e -> e = ValueError.
Proof.
  unfold broadcast_to. destruct (compat _ _); intros H; inversion H. reflexivity.
Qed.

Section PartitionFail.
Context {HeaderT Loc : Type}.
Variable can_alloc : Z -> list Z -> bool.
Variable uninit : nat -> Z.
Variable uf : @UNCFile HeaderT Loc.
Variable select : Z -> result (list (@SliceHeaderT Loc)).

(** Fewer than three axes: [shape[1]] or [shape[2]] does not exist (and
    with no part at all the division comes first). *)
Lemma partition_low_rank parts :
  (length (shape (pixels uf)) < 3)%nat ->
  partition can_alloc uninit uf parts select = Raise IndexError \/
  partition can_alloc uninit uf parts select = Raise ZeroDivisionError.
Proof.
  intros Hr. unfold partition, int_truediv.
  destruct (shape (pixels uf)) as [|d0 [|d1 [|d2 rest]]]; cbn [length] in Hr; try lia.
  - left. reflexivity.
  - change (index [d0] 0) with (Ok (A := nat) d0). cbn [bindR].
    destruct (parts =? 0); [right | left]; reflexivity.
  - change (index [d0; d1] 0) with (Ok (A := nat) d0). cbn [bindR].
    destruct (parts =? 0); [right | left]; reflexivity.
Qed.

Lemma partition_no_parts parts :
  parts <= 0 ->
  exists e, partition can_alloc uninit uf parts select = Raise e.
Proof.
  intros Hp. unfold partition, int_truediv.
  destruct (index (shape (pixels uf)) 0) as [d0|e]; cbn [bindR]; [| eauto].
  destruct (Z.eqb_spec parts 0); cbn [bindR]; [eauto |].
  destruct (index (shape (pixels uf)) 1) as [d1|e]; cbn [bindR]; [| eauto].
  destruct (index (shape (pixels uf)) 2) as [d2|e]; cbn [bindR]; [| eauto].
  unfold np_ndarray, np_new. cbn [existsb].
  destruct (Z.ltb_spec parts 0); [| lia]. cbn [orb bindR]. eauto.
Qed.

(** More than three axes and a slab that is not a single element: when the
    working array has been created, the first assignment of the pixel loop
    is refused. *)
Lemma partition_bad_slab d0 d1 d2 rest (parts : nat) :
  shape (pixels uf) = d0 :: d1 :: d2 :: rest ->
  (0 < parts)%nat ->
  np_new can_alloc 8 (split_shape d0 d1 d2 (Z.of_nat parts)) = Ok tt ->
  rest <> [] ->
  (d0 / parts)%nat :: d1 :: d2 :: rest <> repeat 1%nat (length rest + 3) ->
  partition can_alloc uninit uf (Z.of_nat parts) select = Raise ValueError.
Proof.
  intros Hshape Hparts Hnew Hrest Hbad.
  rewrite (partition_prefix can_alloc uninit uf d0 d1 d2 rest parts select Hshape Hparts Hnew).
  destruct parts as [|p]; [lia |]. cbn [seq map foldM].
  unfold fill_step at 1.
  pose proof (getslice_part (pixels uf) d0 d1 d2 rest (S p) (d0 / S p)%nat Hshape
                (parts_fit d0 (S p)) 0%nat ltac:(lia)) as Hg.
  change (Z.of_nat 0) with 0 in *. rewrite Hg. cbn [bindR].
  unfold nd_setblock. cbn [shape].
  change (0 <? 0) with false. destruct (Z.leb_spec (Z.of_nat (S p)) 0); [lia |].
  cbn [orb].
  destruct (broadcast_to _ _) as [b|e] eqn:Eb.
  - exfalso. apply broadcast_to_slab with (rest := rest) in Eb; auto.
  - apply broadcast_to_raise in Eb as ->. reflexivity.
Qed.

(** When the working array cannot be created, [partition] raises what the
    array constructor raises. *)
Lemma partition_new_raise d0 d1 d2 rest (parts : nat) e :
  shape (pixels uf) = d0 :: d1 :: d2 :: rest ->
  (0 < parts)%nat ->
  np_new can_alloc 8 (split_shape d0 d1 d2 (Z.of_nat parts)) = Raise e ->
  partition can_alloc uninit uf (Z.of_nat parts) select = Raise e.
Proof.
  intros Hshape Hparts Hnew.
  rewrite (partition_start can_alloc uninit uf d0 d1 d2 rest parts select Hshape Hparts), Hnew.
  reflexivity.
Qed.

(** What makes [partition] return: at least three axes, at least one part,
    a working array that can be created, and either exactly three axes or
    single-element slabs. *)
Lemma partition_ok_inv parts rs :
  partition can_alloc uninit uf parts select = Ok rs ->
  exists d0 d1 d2 rest n,
    shape (pixels uf) = d0 :: d1 :: d2 :: rest /\
    parts = Z.of_nat n /\ (0 < n)%nat /\
    np_new can_alloc 8 (split_shape d0 d1 d2 (Z.of_nat n)) = Ok tt /\
    (rest = [] \/ (d0 / n)%nat :: d1 :: d2 :: rest = repeat 1%nat (length rest + 3)).
Proof.
  intros H.
  destruct (shape (pixels uf)) as [|d0 [|d1 [|d2 rest]]] eqn:Es;
    try (destruct (partition_low_rank parts) as [E|E];
         [rewrite Es; simpl; lia | congruence | congruence]).
  destruct (Z_le_gt_dec parts 0) as [Hle|Hgt].
  { destruct (partition_no_parts parts Hle) as [e He]. congruence. }
  assert (Hn : parts = Z.of_nat (Z.to_nat parts)) by lia.
  assert (Hpos : (0 < Z.to_nat parts)%nat) by lia.
  destruct (np_new can_alloc 8 (split_shape d0 d1 d2 (Z.of_nat (Z.to_nat parts))))
    as [[]|e] eqn:Hnew.
  2:{ pose proof (partition_new_raise d0 d1 d2 rest (Z.to_nat parts) e Es Hpos Hnew) as Hr.
      rewrite <- Hn in Hr. congruence. }
  exists d0, d1, d2, rest, (Z.to_nat parts).
  split; [reflexivity |]. split; [exact Hn |]. split; [exact Hpos |]. split; [exact Hnew |].
  destruct rest as [|r rest'] eqn:Er; [left; reflexivity |]. rewrite <- Er in *.
  destruct (decide ((d0 / Z.to_nat parts)%nat :: d1 :: d2 :: rest
                    = repeat 1%nat (length rest + 3))) as [Heq|Hne]; [right; exact Heq |].
  exfalso.
  pose proof (partition_bad_slab d0 d1 d2 rest (Z.to_nat parts) Es Hpos Hnew
                ltac:(rewrite Er; discriminate) Hne) as Hbad.
  rewrite <- Hn in Hbad. congruence.
Qed.

End PartitionFail.

(** ** The number of axes the partition operations need *)

Section Rank.
Context {HeaderT Loc : Type}.
Variable can_alloc : Z -> list Z -> bool.
Variable uninit : nat -> Z.

Lemma partition_rank_refused (uf : @UNCFile HeaderT Loc) parts select :
  (length (shape (pixels uf)) < 3)%nat \/
  ((3 < length (shape (pixels uf)))%nat /\
   tl (shape (pixels uf)) <> repeat 1%nat (length (shape (pixels uf)) - 1)) ->
  exists e, partition can_alloc uninit uf parts select = Raise e.
Proof.
  intros [Hlow | [Hhigh Htail]].
  - destruct (partition_low_rank can_alloc uninit uf select parts Hlow) as [E|E]; eauto.
  - destruct (shape (pixels uf)) as [|d0 [|d1 [|d2 [|r rest']]]] eqn:Es;
      cbn [length] in Hhigh; try lia.
    destruct (Z_le_gt_dec parts 0) as [Hle|Hgt].
    { apply partition_no_parts. exact Hle. }
    rewrite <- (Z2Nat.id parts) by lia.
    destruct (np_new can_alloc 8 (split_shape d0 d1 d2 (Z.of_nat (Z.to_nat parts))))
      as [[]|e] eqn:Hnew.
    2:{ exists e.
        apply (partition_new_raise can_alloc uninit uf select d0 d1 d2 (r :: rest'));
          [exact Es | lia | exact Hnew]. }
    exists ValueError.
    apply (partition_bad_slab can_alloc uninit uf select d0 d1 d2 (r :: rest'));
      [exact Es | lia | exact Hnew | discriminate |].
    intros Heq. apply Htail.
    cbn [tl length Nat.sub].
    replace (length (r :: rest') + 3)%nat with (S (S (S (S (length rest'))))) in Heq
      by (cbn [length]; lia).
    cbn [repeat] in Heq. injection Heq as _ -> -> -> Hr.
    cbn [repeat]. do 3 f_equal. exact Hr.
Qed.

(** C9 (as amended).  [split_echoes] and [split_volumes] index
    [pixels.shape[1]] and [pixels.shape[2]] and copy with three-axis
    slices: on every volume whose pixel array has fewer than 3 axes both
    raise, and on every volume with more than 3 axes both raise unless
    every extent after the first is 1. *)
Theorem C9_partition_needs_three_axes (uf : @UNCFile HeaderT Loc) (n_vols : Z) :
  (length (shape (pixels uf)) < 3)%nat \/
  ((3 < length (shape (pixels uf)))%nat /\
   tl (shape (pixels uf)) <> repeat 1%nat (length (shape (pixels uf)) - 1)) ->
  (exists e, split_echoes can_alloc uninit uf = Raise e) /\
  (exists e, split_volumes can_alloc uninit uf n_vols = Raise e).
Proof.
  intros H. rewrite split_echoes_partition, split_volumes_partition.
  split; apply partition_rank_refused; exact H.
Qed.

End Rank.

(** The theorem applied to the decoded two-axis sample. *)
Lemma C9_partition_rank_witness :
  exists uf,
    decode flat2 = Ok uf /\
    (exists e, echoes uf = Raise e) /\ (exists e, volumes uf 2 = Raise e).
Proof.
  destruct (decode flat2) as [uf|e] eqn:E; [| vm_compute in E; discriminate].
  exists uf. split; [reflexivity |].
  apply (C9_partition_needs_three_axes sample_alloc zero_mem uf 2).
  left. vm_compute in E. injection E as <-. cbn. lia.
Defined.

(** C9 (as stated) fails: the decoded sample with four axes of extents
    2, 1, 1, 1 is split by both operations, into two parts each. *)
Lemma C9_partition_rank_counterexample :
  exists uf rs1 rs2,
    decode pair4 = Ok uf /\
    shape (pixels uf) = [2; 1; 1; 1]%nat /\
    length (shape (pixels uf)) <> 3%nat /\
    echoes uf = Ok rs1 /\ length rs1 = 2%nat /\
    volumes uf 2 = Ok rs2 /\ length rs2 = 2%nat.
Proof.
  eexists _, _, _. split; [vm_compute; reflexivity |].
  split; [reflexivity |]. split; [discriminate |].
  split; [vm_compute; reflexivity |]. split; [reflexivity |].
  split; [vm_compute; reflexivity |]. reflexivity.
Qed.

(** ** Decoded pixel arrays are well formed *)

Lemma filter_neg_nil sh :
  List.filter (fun d => d <? 0) sh = [] -> Forall (fun d => 0 <= d) sh.
Proof.
  induction sh as [|d sh IH]; simpl; [constructor |].
  destruct (Z.ltb_spec d 0) as [Hd|Hd]; [discriminate |]. intros E. constructor; auto.
Qed.

Lemma prodn_inferred q sh :
  Z.of_nat (prodn (map (fun d => if d <? 0 then q else Z.to_nat d) sh))
  = prodZ (List.filter (fun d => 0 <=? d) sh)
    * Z.of_nat q ^ Z.of_nat (length (List.filter (fun d => d <? 0) sh)).
Proof.
  induction sh as [|d sh IH]; [reflexivity |].
  cbn [map List.filter]. rewrite prodn_cons, Nat2Z.inj_mul, IH.
  destruct (Z.ltb_spec d 0); destruct (Z.leb_spec 0 d); try lia.
  - cbn [length]. rewrite Nat2Z.inj_succ, Z.pow_succ_r by lia. ring.
  - cbn [prodZ fold_right]. fold (prodZ (List.filter (fun d => 0 <=? d) sh)).
    rewrite Z2Nat.id by lia. ring.
Qed.

Lemma np_reshape_wf a sh b : nd_wf a -> np_reshape a sh = Ok b -> nd_wf b.
Proof.
  unfold nd_wf, np_reshape, nd_size. intros Hwf.
  destruct (prodZ_split sh) as [_ Hnn].
  destruct (List.filter (fun d => d <? 0) sh) as [|x [|y l]] eqn:E; [| | discriminate].
  - destruct (Z.eqb_spec (prodZ (List.filter (fun d => 0 <=? d) sh)) (Z.of_nat (prodn (shape a))))
      as [Heq|]; [| discriminate].
    intros H. injection H as <-. cbn [data shape].
    apply filter_neg_nil in E. destruct (filter_nonneg_all sh E) as [Hf _].
    rewrite Hf in Heq. rewrite Hwf.
    apply Nat2Z.inj. rewrite <- Heq. symmetry. apply prodn_to_nat. exact E.
  - set (known := prodZ (List.filter (fun d => 0 <=? d) sh)) in *.
    set (size := Z.of_nat (prodn (shape a))) in *.
    destruct (Z.eqb_spec known 0); [discriminate |].
    destruct (Z.eqb_spec (size mod known) 0) as [Hmod|]; [| discriminate].
    cbn [orb negb]. intros H. injection H as <-. cbn [data shape].
    rewrite Hwf. apply Nat2Z.inj.
    pose proof (prodn_inferred (Z.to_nat (size / known)) sh) as Hp.
    rewrite E in Hp. cbn [length] in Hp.
    change (Z.of_nat 1) with 1 in Hp. rewrite Z.pow_1_r in Hp.
    fold known in Hp. rewrite Hp.
    assert (0 <= size / known) by (apply Z.div_pos; lia).
    rewrite Z2Nat.id by lia. fold size.
    pose proof (Z.div_mod size known ltac:(assumption)) as Hdm. lia.
Qed.

Section DecodedPixels.
Context {HeaderT Loc : Type}.
Variable can_alloc : Z -> list Z -> bool.
Variable loc_ltb : Loc -> Loc -> bool.
Variable UNCHeader : string -> result HeaderT.
Variable SliceHeader : string -> result (@SliceHeaderT Loc).

Lemma decoded_pixels f uf :
  from_file can_alloc loc_ltb UNCHeader SliceHeader f = Ok uf ->
  nd_wf (pixels uf) /\ dtype_of (pixels uf) = Int16BE.
Proof.
  intros H.
  apply from_file_inv in H
    as (d & ft & ft' & fi & fi' & fp & fp' & _ & _ & _ & _ & _ & _ & _ & _ & Hpx).
  apply read_pixels_spec in Hpx as (a & n & _ & _ & _ & _ & Hre).
  split.
  - eapply np_reshape_wf; [| exact Hre].
    unfold nd_wf. cbn [data shape]. rewrite length_map, chunks_length, prodn_cons.
    cbn. lia.
  - apply np_reshape_data in Hre as [_ Hd]. exact Hd.
Qed.

End DecodedPixels.

(** ** The element type and the values of the parts *)

Section PartValues.
Context {HeaderT Loc : Type}.
Variable can_alloc : Z -> list Z -> bool.
Variable uninit : nat -> Z.

Lemma nth_error_range n k x :
  nth_error (range n) k = Some x -> x = Z.of_nat k /\ (k < Z.to_nat n)%nat.
Proof.
  unfold range. rewrite nth_error_map, nth_error_seq.
  destruct (Nat.ltb_spec k (Z.to_nat n)) as [Hk|Hk]; [| discriminate].
  cbn. intros E. injection E as <-. auto.
Qed.

(** What [partition] returns when it returns: as many parts as requested,
    each a [float64] array of one block of the original stream, element by
    element. *)
Lemma partition_parts (uf : @UNCFile HeaderT Loc) parts select rs :
  nd_wf (pixels uf) ->
  partition can_alloc uninit uf parts select = Ok rs ->
  exists d0 rest (n : nat),
    shape (pixels uf) = d0 :: rest /\ parts = Z.of_nat n /\ (0 < n)%nat /\
    length rs = n /\
    forall k, (k < n)%nat ->
      exists r,
        nth_error rs k = Some r /\
        dtype_of (pixels r) = Float64 /\
        length (data (pixels r)) = (d0 / n * prodn rest)%nat /\
        forall j, (j < d0 / n * prodn rest)%nat ->
          exists v,
            nth_error (data (pixels r)) j = Some v /\
            nth_error (data (pixels uf)) (k * (d0 / n * prodn rest) + j) = Some v.
Proof.
  intros Hwf H.
  destruct (partition_ok_inv can_alloc uninit uf select parts rs H)
    as (d0 & d1 & d2 & rest & n & Hs & -> & Hn & Hnew & Hslab).
  rewrite (partition_eq can_alloc uninit uf d0 d1 d2 rest n select Hs Hn Hnew Hwf Hslab) in H.
  pose proof (mapM_length _ _ _ H) as Hlen.
  unfold range in Hlen. rewrite length_map, length_seq, Nat2Z.id in Hlen.
  exists d0, (d1 :: d2 :: rest), n.
  split; [exact Hs |]. split; [reflexivity |]. split; [exact Hn |]. split; [exact Hlen |].
  intros k Hk.
  destruct (nth_error rs k) as [r|] eqn:Hr;
    [| apply nth_error_None in Hr; lia].
  exists r. split; [reflexivity |].
  destruct (mapM_lookup _ _ _ _ _ H Hr) as (x & Hx & Hp).
  apply nth_error_range in Hx as [-> _].
  apply bindR_inv in Hp as (si & _ & Hp). injection Hp as <-.
  rewrite Nat2Z.id. unfold part_of. cbn [pixels dtype_of data].
  split; [reflexivity |].
  change (d1 * (d2 * prodn rest))%nat with (prodn (d1 :: d2 :: rest)).
  set (blk := (d0 / n * prodn (d1 :: d2 :: rest))%nat).
  pose proof (length_pixels (pixels uf) d0 d1 d2 rest Hs Hwf) as Hpx.
  pose proof (parts_fit d0 n) as Hfit.
  assert (Hin : (k * blk + blk <= length (data (pixels uf)))%nat).
  { rewrite Hpx. unfold blk. nia. }
  split.
  - rewrite length_firstn, length_skipn. lia.
  - intros j Hj.
    rewrite nth_error_firstn, nth_error_skipn.
    destruct (Nat.ltb_spec j blk) as [_|Hge]; [| lia].
    destruct (nth_error (data (pixels uf)) (k * blk + j)) as [v|] eqn:Hv.
    + exists v. auto.
    + apply nth_error_None in Hv. lia.
Qed.

End PartValues.

Section PartType.
Context {HeaderT Loc : Type}.
Variable can_alloc : Z -> list Z -> bool.
Variable loc_ltb : Loc -> Loc -> bool.
Variable UNCHeader : string -> result HeaderT.
Variable SliceHeader : string -> result (@SliceHeaderT Loc).
Variable uninit : nat -> Z.

(** C10.  The pixel array of a decoded volume has element type ['>i2'].
    When [split_echoes] (with [n = num_echoes]) or [split_volumes(n)]
    returns, [n] is positive and the result has exactly [n] parts.  With
    [d0] the first extent of the original and [size] the number
    [d0 // n] of slices of a part times the product of the other extents,
    the pixel array of every part [k < n] has the default element type of
    [np.ndarray], [float64], and exactly [size] elements, and its [j]-th
    element is there and has the value of the corresponding sample of the
    original, sample [k * size + j]. *)
Theorem C10_parts_are_float64 f uf n rs :
  from_file can_alloc loc_ltb UNCHeader SliceHeader f = Ok uf ->
  (n = num_echoes uf /\ split_echoes can_alloc uninit uf = Ok rs) \/
  split_volumes can_alloc uninit uf n = Ok rs ->
  dtype_of (pixels uf) = Int16BE /\
  exists d0 rest,
    shape (pixels uf) = d0 :: rest /\
    0 < n /\ Z.of_nat (length rs) = n /\
    forall k, (k < Z.to_nat n)%nat ->
      exists r,
        nth_error rs k = Some r /\
        dtype_of (pixels r) = Float64 /\
        length (data (pixels r)) = (d0 / Z.to_nat n * prodn rest)%nat /\
        forall j, (j < d0 / Z.to_nat n * prodn rest)%nat ->
          exists v,
            nth_error (data (pixels r)) j = Some v /\
            nth_error (data (pixels uf)) (k * (d0 / Z.to_nat n * prodn rest) + j) = Some v.
Proof.
  intros Hdec Hsplit.
  destruct (decoded_pixels _ _ _ _ _ _ Hdec) as [Hwf Hdt].
  split; [exact Hdt |].
  assert (H : exists select, partition can_alloc uninit uf n select = Ok rs).
  { destruct Hsplit as [[-> H] | H].
    - rewrite split_echoes_partition in H. eauto.
    - rewrite split_volumes_partition in H. eauto. }
  destruct H as [select H].
  destruct (partition_parts can_alloc uninit uf n select rs Hwf H)
    as (d0 & rest & m & Hs & -> & Hm & Hlen & Hparts).
  exists d0, rest. rewrite Nat2Z.id.
  split; [exact Hs |]. split; [lia |]. split; [lia | exact Hparts].
Qed.

End PartType.

(** The theorem applied to the decoded sample volume, four slices of 2 x 2
    samples, split into its two echoes and into two volumes: each part has
    the 8 samples of two slices. *)
Lemma C10_parts_are_float64_witness :
  exists uf es vs,
    decode brain = Ok uf /\ echoes uf = Ok es /\ volumes uf 2 = Ok vs /\
    data (pixels uf) = [1; 2; 3; 4; 5; 6; 7; 8; -1; -2; -3; -4; 100; 200; 300; 400] /\
    dtype_of (pixels uf) = Int16BE /\
    forall rs, rs = es \/ rs = vs ->
      length rs = 2%nat /\
      forall k, (k < 2)%nat ->
        exists r,
          nth_error rs k = Some r /\
          dtype_of (pixels r) = Float64 /\
          length (data (pixels r)) = 8%nat /\
          forall j, (j < 8)%nat ->
            exists v,
              nth_error (data (pixels r)) j = Some v /\
              nth_error (data (pixels uf)) (k * 8 + j) = Some v.
Proof.
  destruct (decode brain) as [uf|e] eqn:E; [| vm_compute in E; discriminate].
  assert (Hs : shape (pixels uf) = [4; 2; 2]%nat /\ num_echoes uf = 2 /\
               data (pixels uf)
               = [1; 2; 3; 4; 5; 6; 7; 8; -1; -2; -3; -4; 100; 200; 300; 400]).
  { vm_compute in E. injection E as <-. repeat split; vm_compute; reflexivity. }
  destruct Hs as (Hs & Hne & Hdata).
  destruct (echoes uf) as [es|e] eqn:E2;
    [| exfalso; vm_compute in E; injection E as <-; vm_compute in E2; discriminate].
  destruct (volumes uf 2) as [vs|e] eqn:E3;
    [| exfalso; vm_compute in E; injection E as <-; vm_compute in E3; discriminate].
  exists uf, es, vs. split; [reflexivity |]. split; [exact E2 |]. split; [exact E3 |].
  split; [exact Hdata |].
  assert (Hboth : forall rs, rs = es \/ rs = vs ->
            (2 = num_echoes uf /\ split_echoes sample_alloc zero_mem uf = Ok rs) \/
            split_volumes sample_alloc zero_mem uf 2 = Ok rs).
  { intros rs [-> | ->]; [left; split; [symmetry; exact Hne | exact E2] | right; exact E3]. }
  split.
  { destruct (C10_parts_are_float64 sample_alloc Z.ltb sample_UNCHeader sample_SliceHeader
                zero_mem brain uf 2 es E (Hboth es (or_introl eq_refl))) as [Hdt _].
    exact Hdt. }
  intros rs Hrs.
  destruct (C10_parts_are_float64 sample_alloc Z.ltb sample_UNCHeader sample_SliceHeader
              zero_mem brain uf 2 rs E (Hboth rs Hrs))
    as (_ & d0 & rest & Hshape & _ & Hlen & Hparts).
  rewrite Hs in Hshape. injection Hshape as <- <-.
  split; [lia |]. exact Hparts.
Defined.

(** ** The parts of a three-axis volume *)

Section ThreeAxes.
Context {HeaderT Loc : Type}.
Variable can_alloc : Z -> list Z -> bool.
Variable uninit : nat -> Z.
Variable uf : @UNCFile HeaderT Loc.
Variables d0 d1 d2 : nat.
Variable parts : nat.

Hypothesis Hshape : shape (pixels uf) = [d0; d1; d2].
Hypothesis Hwf : nd_wf (pixels uf).
Hypothesis Hparts : (0 < parts)%nat.
Hypothesis Hnew : np_new can_alloc 8 (split_shape d0 d1 d2 (Z.of_nat parts)) = Ok tt.

Abbreviation per3 := (d0 / parts)%nat.
Abbreviation slab3 := (prodn [d1; d2]).

(** With selections that do not raise, [partition] returns one part per
    index, in order. *)
Lemma partition_three_axes select (chosen : nat -> list (@SliceHeaderT Loc)) :
  (forall k, (k < parts)%nat -> select (Z.of_nat k) = Ok (chosen k)) ->
  partition can_alloc uninit uf (Z.of_nat parts) select
  = Ok (map (fun k => part_of uf per3 d1 d2 slab3 k (chosen k)) (seq 0 parts)).
Proof.
  intros Hsel.
  rewrite (partition_eq can_alloc uninit uf d0 d1 d2 [] parts select Hshape Hparts Hnew Hwf
             (or_introl eq_refl)).
  unfold range. rewrite Nat2Z.id.
  apply mapM_total_map. intros k Hk.
  apply in_seq in Hk. rewrite Hsel by lia. cbn [bindR]. rewrite Nat2Z.id. reflexivity.
Qed.

(** Part [k] holds the slices [k * per3 .. (k + 1) * per3 - 1] of the
    original. *)
Lemma part_is_slice_range k si :
  (k < parts)%nat ->
  exists src,
    nd_getslice3 (pixels uf) (Z.of_nat k * Z.of_nat per3) ((Z.of_nat k + 1) * Z.of_nat per3)
    = Ok src /\
    shape src = [per3; d1; d2] /\
    shape (pixels (part_of uf per3 d1 d2 slab3 k si)) = shape src /\
    data (pixels (part_of uf per3 d1 d2 slab3 k si)) = data src.
Proof.
  intros Hk.
  pose proof (getslice_part (pixels uf) d0 d1 d2 [] parts per3 Hshape (parts_fit d0 parts) k Hk)
    as Hg.
  replace (Z.of_nat k * Z.of_nat per3) with (Z.of_nat per3 * Z.of_nat k) by lia.
  replace ((Z.of_nat k + 1) * Z.of_nat per3)
    with (Z.of_nat per3 * Z.of_nat k + Z.of_nat per3) by lia.
  rewrite Hg. eexists. split; [reflexivity |]. cbn [shape data part_of pixels]. auto.
Qed.


End ThreeAxes.

Lemma mod_divides_nat (d0 parts : nat) :
  (0 < parts)%nat -> Z.of_nat d0 mod Z.of_nat parts = 0 -> (parts * (d0 / parts) = d0)%nat.
Proof.
  intros Hp Hm. apply Nat2Z.inj. rewrite Nat2Z.inj_mul, Nat2Z.inj_div.
  pose proof (Z.div_mod (Z.of_nat d0) (Z.of_nat parts) ltac:(lia)). lia.
Qed.

(** ** [split_volumes] *)


Lemma nth_error_parts {B} (g : nat -> B) parts n r :
  nth_error (map g (seq 0 parts)) n = Some r -> (n < parts)%nat /\ r = g n.
Proof.
  rewrite nth_error_map, nth_error_seq.
  destruct (Nat.ltb_spec n parts) as [Hn|Hn]; [| discriminate].
  cbn. intros E. injection E as <-. auto.
Qed.

Section Volumes.
Context {HeaderT Loc : Type}.
Variable can_alloc : Z -> list Z -> bool.
Variable uninit : nat -> Z.


End Volumes.



(** ** [split_echoes] *)

Lemma filterM_total {A} (p : A -> result bool) (q : A -> bool) l :
  (forall x, In x l -> p x = Ok (q x)) -> filterM p l = Ok (List.filter q l).
Proof.
  induction l as [|x l IH]; intros H; [reflexivity |].
  cbn [filterM List.filter]. rewrite H by (left; reflexivity). cbn [bindR].
  rewrite IH by (intros y Hy; apply H; now right). reflexivity.
Qed.

Lemma list_sum_map_add {A} (g h : A -> nat) l :
  list_sum (map (fun x => g x + h x)%nat l) = (list_sum (map g l) + list_sum (map h l))%nat.
Proof. induction l as [|x l IH]; simpl; [reflexivity |]. rewrite IH. lia. Qed.

Lemma list_sum_indicator k0 n : forall a,
  list_sum (map (fun k => if Nat.eqb k0 k then 1 else 0)%nat (seq a n))
  = (if (a <=? k0)%nat && (k0 <? a + n)%nat then 1 else 0)%nat.
Proof.
  induction n as [|n IH]; intros a; cbn [seq map list_sum fold_right].
  - destruct (Nat.leb_spec a k0), (Nat.ltb_spec k0 (a + 0)); simpl; lia.
  - fold (list_sum (map (fun k => if Nat.eqb k0 k then 1 else 0)%nat (seq (S a) n))).
    rewrite IH.
    destruct (Nat.eqb_spec k0 a), (Nat.leb_spec a k0), (Nat.leb_spec (S a) k0),
      (Nat.ltb_spec k0 (a + S n)), (Nat.ltb_spec k0 (S a + n)); simpl; lia.
Qed.

(** Records sorted into [n] classes: the class sizes add up to the number
    of records. *)
Lemma class_sizes {A} (cls : A -> nat) n (l : list A) :
  (forall s, In s l -> (cls s < n)%nat) ->
  list_sum (map (fun k => length (List.filter (fun s => Nat.eqb (cls s) k) l)) (seq 0 n))
  = length l.
Proof.
  induction l as [|s l IH]; intros H.
  - cbn [List.filter length]. induction (seq 0 n); simpl; auto.
  - rewrite (map_ext _ (fun k => (if Nat.eqb (cls s) k then 1 else 0)
                                 + length (List.filter (fun s => Nat.eqb (cls s) k) l))%nat).
    + rewrite list_sum_map_add, list_sum_indicator, IH by (intros y Hy; apply H; now right).
      pose proof (H s ltac:(left; reflexivity)) as Hs.
      destruct (Nat.leb_spec 0 (cls s)), (Nat.ltb_spec (cls s) (0 + n)); simpl; lia.
    + intros k. cbn [List.filter]. destruct (Nat.eqb (cls s) k); reflexivity.
Qed.

Section Echo.
Context {HeaderT Loc : Type}.
Variable uninit : nat -> Z.
Variable uf : @UNCFile HeaderT Loc.

(** The echo numbers are exactly 1 .. [n]: every record carries the entry,
    with an integer in that range. *)
Lemma echo_set_records n :
  (list_to_set (map echo_number_or_0 (slice_info uf)) : gset pyval)
  = list_to_set (map VInt (range2 1 (n + 1))) ->
  forall s, In s (slice_info uf) ->
    exists k, 1 <= k <= n /\ dicom_header s !! "Echo Number" = Some (VInt k).
Proof.
  intros Hset s Hs.
  assert (Hin : echo_number_or_0 s ∈ (list_to_set (map VInt (range2 1 (n + 1))) : gset pyval)).
  { rewrite <- Hset. apply elem_of_list_to_set. apply list_elem_of_In.
    apply in_map. exact Hs. }
  apply elem_of_list_to_set, list_elem_of_In, in_map_iff in Hin as (k & Hk & Hkin).
  unfold range2 in Hkin. apply in_map_iff in Hkin as (i & <- & Hi). apply in_seq in Hi.
  exists (1 + Z.of_nat i). split; [lia |].
  unfold echo_number_or_0, dict_get in Hk.
  destruct (dicom_header s !! "Echo Number") as [v|]; [congruence |].
  injection Hk as Hk. lia.
Qed.

Lemma select_echo_total n :
  (forall s, In s (slice_info uf) -> exists v, dicom_header s !! "Echo Number" = Some v) ->
  select_echo uf n
  = Ok (List.filter (fun s => bool_decide (dicom_header s !! "Echo Number" = Some (VInt (n + 1))))
          (slice_info uf)).
Proof.
  intros H. unfold select_echo. apply filterM_total. intros s Hs.
  destruct (H s Hs) as [v Hv]. unfold dict_getitem. rewrite Hv. cbn [bindR].
  f_equal. apply bool_decide_ext. split; congruence.
Qed.

End Echo.

Section Echoes7.
Context {HeaderT Loc : Type}.
Variable can_alloc : Z -> list Z -> bool.
Variable uninit : nat -> Z.

(** C7 (as amended).  On a volume with three pixel axes and at least one
    echo, whose slice count is a multiple of [num_echoes] and whose echo
    numbers are exactly 1 .. [num_echoes], and for which NumPy can create
    the working array of shape
    [(num_echoes, slices_per_echo, shape[1], shape[2])] (its size fits
    [intp] and the allocator grants it), [split_echoes] returns
    [num_echoes] objects.  Object [n] shares the header and the dimension
    fields of the original, its pixels are the slices
    [n * slices_per_echo .. (n + 1) * slices_per_echo - 1] of the original,
    its [slice_info] is the subsequence of the records whose echo number is
    [n + 1], and the lengths of these subsequences add up to the length of
    the original [slice_info]. *)
Theorem C7_split_echoes_parts (uf : @UNCFile HeaderT Loc) d0 d1 d2 :
  shape (pixels uf) = [d0; d1; d2] ->
  nd_wf (pixels uf) ->
  0 < num_echoes uf ->
  Z.of_nat d0 mod num_echoes uf = 0 ->
  (list_to_set (map echo_number_or_0 (slice_info uf)) : gset pyval)
  = list_to_set (map VInt (range2 1 (num_echoes uf + 1))) ->
  np_fits 8 (split_shape d0 d1 d2 (num_echoes uf)) = true ->
  can_alloc 8 (split_shape d0 d1 d2 (num_echoes uf)) = true ->
  exists rs,
    split_echoes can_alloc uninit uf = Ok rs /\
    Z.of_nat (length rs) = num_echoes uf /\
    num_echoes uf * (Z.of_nat d0 / num_echoes uf) = Z.of_nat d0 /\
    (forall n r, nth_error rs n = Some r ->
       header r = header uf /\ dimc r = dimc uf /\ dimv r = dimv uf /\
       (exists src,
          nd_getslice3 (pixels uf) (Z.of_nat n * (Z.of_nat d0 / num_echoes uf))
                       ((Z.of_nat n + 1) * (Z.of_nat d0 / num_echoes uf)) = Ok src /\
          shape src = [Z.to_nat (Z.of_nat d0 / num_echoes uf); d1; d2] /\
          shape (pixels r) = shape src /\
          data (pixels r) = data src) /\
       slice_info r
       = List.filter
           (fun s => bool_decide (dicom_header s !! "Echo Number" = Some (VInt (Z.of_nat n + 1))))
           (slice_info uf)) /\
    list_sum (map (fun r => length (slice_info r)) rs) = length (slice_info uf).
Proof.
  intros Hshape Hwf Hpos Hmod Hset Hfits Halloc.
  pose proof (split_array_new can_alloc d0 d1 d2 (num_echoes uf) Hpos Hfits Halloc) as Hnew.
  clear Hfits Halloc.
  pose proof (echo_set_records uf (num_echoes uf) Hset) as Hrec.
  set (parts := Z.to_nat (num_echoes uf)).
  assert (Hn : num_echoes uf = Z.of_nat parts) by (unfold parts; lia).
  assert (Hparts : (0 < parts)%nat) by (unfold parts; lia).
  rewrite Hn in Hmod, Hrec, Hnew |- *. clearbody parts. clear Hpos.
  pose proof (mod_divides_nat d0 parts Hparts Hmod) as Hdiv.
  assert (Hper : Z.of_nat d0 / Z.of_nat parts = Z.of_nat (d0 / parts))
    by (symmetry; apply Nat2Z.inj_div).
  rewrite Hper.
  set (chosen := fun k : nat =>
         List.filter
           (fun s => bool_decide (dicom_header s !! "Echo Number" = Some (VInt (Z.of_nat k + 1))))
           (slice_info uf)).
  eexists. split.
  { rewrite split_echoes_partition, Hn.
    apply (partition_three_axes can_alloc uninit uf d0 d1 d2 parts Hshape Hwf Hparts Hnew
             _ chosen).
    intros k _. apply select_echo_total.
    intros s Hs. destruct (Hrec s Hs) as (v & _ & Hv). eauto. }
  split; [rewrite length_map, length_seq; reflexivity |].
  split; [lia |].
  split.
  - intros n r Hr. apply nth_error_parts in Hr as [Hlt ->].
    cbn [part_of header dimc dimv slice_info].
    repeat (split; [reflexivity |]). split; [| reflexivity].
    rewrite Nat2Z.id.
    apply (part_is_slice_range uf d0 d1 d2 parts Hshape); assumption.
  - rewrite map_map. cbn [part_of slice_info]. unfold chosen.
    set (cls := fun s : @SliceHeaderT Loc =>
           match dicom_header s !! "Echo Number" with
           | Some (VInt v) => Z.to_nat (v - 1)
           | _ => 0%nat
           end).
    rewrite <- (class_sizes cls parts (slice_info uf)).
    + f_equal. apply map_ext. intros k. f_equal.
      apply filter_ext_in. intros s Hs.
      destruct (Hrec s Hs) as (v & Hv & Hl). unfold cls. rewrite Hl.
      destruct (Nat.eqb_spec (Z.to_nat (v - 1)) k) as [He|He].
      * apply bool_decide_eq_true. do 2 f_equal. lia.
      * apply bool_decide_eq_false. intros Heq. injection Heq as Heq. lia.
    + intros s Hs. destruct (Hrec s Hs) as (v & Hv & Hl). unfold cls. rewrite Hl. lia.
Qed.

End Echoes7.

(** The theorem applied to the decoded sample volume: two echoes of two
    slices each. *)
Lemma C7_split_echoes_witness :
  exists uf rs,
    decode brain = Ok uf /\ echoes uf = Ok rs /\
    Z.of_nat (length rs) = num_echoes uf /\
    list_sum (map (fun r => length (slice_info r)) rs) = length (slice_info uf).
Proof.
  destruct (decode brain) as [uf|e] eqn:E; [| vm_compute in E; discriminate].
  assert (Hs : shape (pixels uf) = [4; 2; 2]%nat /\ nd_wf (pixels uf) /\ num_echoes uf = 2 /\
               (list_to_set (map echo_number_or_0 (slice_info uf)) : gset pyval)
               = list_to_set (map VInt (range2 1 (2 + 1)))).
  { vm_compute in E. injection E as <-. repeat split; vm_compute; reflexivity. }
  destruct Hs as (Hs & Hwf & Hne & Hset).
  destruct (C7_split_echoes_parts sample_alloc zero_mem uf 4 2 2 Hs Hwf)
    as (rs & H1 & H2 & _ & _ & H3).
  - rewrite Hne. lia.
  - rewrite Hne. reflexivity.
  - rewrite Hne. exact Hset.
  - rewrite Hne. reflexivity.
  - rewrite Hne. reflexivity.
  - exists uf, rs. auto.
Defined.

(** C7 (as stated) fails: the decoded two-axis sample has two slices, two
    echoes numbered 1 and 2, and [split_echoes] raises [IndexError]. *)
Lemma C7_split_echoes_counterexample :
  exists uf,
    decode flat2 = Ok uf /\
    shape (pixels uf) = [2; 2]%nat /\
    num_echoes uf = 2 /\
    2 mod num_echoes uf = 0 /\
    (list_to_set (map echo_number_or_0 (slice_info uf)) : gset pyval)
    = list_to_set (map VInt (range2 1 (num_echoes uf + 1))) /\
    echoes uf = Raise IndexError.
Proof.
  eexists. split; [vm_compute; reflexivity |].
  repeat split; vm_compute; reflexivity.
Qed.

(** * Further properties of the reader *)

(** ** The position of the file on entry *)

Lemma seek_set_same a f g :
  contents f = contents g -> seek_set a f = seek_set a g.
Proof. intros H. unfold seek_set. rewrite H. reflexivity. Qed.

Lemma seek_first_same {A} a (k : unit -> FileM A) f g :
  contents f = contents g -> bindF (seek_set a) k f = bindF (seek_set a) k g.
Proof. intros H. unfold bindF. rewrite (seek_set_same a f g H). reflexivity. Qed.

Lemma index_seek_same {A B} (r : result B) (k : B -> FileM A) f g :
  (forall b, k b f = k b g) -> bindF (liftF r) k f = bindF (liftF r) k g.
Proof. intros H. unfold bindF, liftF. destruct r; [apply H | reflexivity]. Qed.

Section Position.
Context {HeaderT Loc : Type}.
Variable can_alloc : Z -> list Z -> bool.
Variable loc_ltb : Loc -> Loc -> bool.
Variable UNCHeader : string -> result HeaderT.
Variable SliceHeader : string -> result (@SliceHeaderT Loc).

Lemma read_addresses_same f g :
  contents f = contents g -> _read_addresses f = _read_addresses g.
Proof. intros H. unfold _read_addresses. apply seek_first_same. exact H. Qed.

(** X2.  Every section reader starts with an absolute seek: what it
    returns, and where it leaves the file, depends on the bytes of the file
    only, not on the position an earlier reader left behind.  The readers
    can therefore run in any order. *)
Theorem X2_readers_ignore_position addrs pc dc dv f g :
  contents f = contents g ->
  _read_title addrs f = _read_title addrs g /\
  _read_maxmin addrs f = _read_maxmin addrs g /\
  _read_histogram addrs f = _read_histogram addrs g /\
  _read_pixel_format addrs f = _read_pixel_format addrs g /\
  _read_dimc addrs f = _read_dimc addrs g /\
  _read_dimv addrs f = _read_dimv addrs g /\
  _read_info loc_ltb UNCHeader SliceHeader addrs dv f
  = _read_info loc_ltb UNCHeader SliceHeader addrs dv g /\
  _read_pixels can_alloc addrs pc dc dv f = _read_pixels can_alloc addrs pc dc dv g.
Proof.
  intros H.
  repeat split;
    try (apply index_seek_same; intros a; apply seek_first_same; exact H).
  unfold _read_info, bindF at 1 3, seek_end. rewrite H. reflexivity.
Qed.

(** X1.  [from_file] seeks to offset 0 before it reads the address table:
    the result is the same wherever the file object is positioned when it
    is passed in. *)
Theorem X1_from_file_ignores_position (c : list byte) (p : nat) :
  from_file can_alloc loc_ltb UNCHeader SliceHeader {| contents := c; position := p |}
  = from_file can_alloc loc_ltb UNCHeader SliceHeader {| contents := c; position := 0 |}.
Proof.
  unfold from_file, from_file_steps, bindF at 1 3.
  rewrite (read_addresses_same {| contents := c; position := p |}
             {| contents := c; position := 0 |} eq_refl).
  reflexivity.
Qed.

End Position.

(** The readers on the sample volume, entered at two different positions. *)
Lemma X2_readers_ignore_position_witness :
  _read_title [36; 48; 4148; 4229; 4233; 4237; 4277; 4309; 0]
    {| contents := contents brain; position := 17 |}
  = _read_title [36; 48; 4148; 4229; 4233; 4237; 4277; 4309; 0] brain.
Proof.
  apply (X2_readers_ignore_position sample_alloc Z.ltb sample_UNCHeader sample_SliceHeader
           [36; 48; 4148; 4229; 4233; 4237; 4277; 4309; 0] 16 3 [4; 2; 2]
           {| contents := contents brain; position := 17 |} brain).
  reflexivity.
Defined.

(** ** Failures of the first readers *)

Lemma read_addresses_eq f :
  _read_addresses f =
  match unpack_be_i32 9 (firstn 36 (contents f)) with
  | Ok l => Ok (l, {| contents := contents f;
                      position := length (firstn 36 (contents f)) |})
  | Raise e => Raise e
  end.
Proof. reflexivity. Qed.

Lemma seek_negative {A} a (k : unit -> FileM A) f :
  a < 0 -> bindF (seek_set a) k f = Raise OSError.
Proof.
  intros Ha. unfold bindF, seek_set. destruct (Z.ltb_spec a 0); [reflexivity | lia].
Qed.

(** A seek to a valid offset followed by a read of [n] bytes hands over the
    bytes that are there, at most [n]. *)
Lemma seek_read_eq {A} a n (k : list byte -> FileM A) f :
  0 <= a -> 0 <= n ->
  bindF (seek_set a) (fun _ => bindF (read n) k) f
  = k (firstn (Z.to_nat n) (skipn (Z.to_nat a) (contents f)))
      {| contents := contents f;
         position := (Z.to_nat a
                      + length (firstn (Z.to_nat n) (skipn (Z.to_nat a) (contents f))))%nat |}.
Proof.
  intros Ha Hn. unfold bindF at 1, seek_set.
  destruct (Z.ltb_spec a 0); [lia |].
  unfold bindF, read. cbn [contents position].
  destruct (Z.ltb_spec n (-1)); [lia |]. destruct (Z.eqb_spec n (-1)); [lia |].
  reflexivity.
Qed.

Lemma available_length {A} (c : list A) a n :
  length (firstn n (skipn a c)) = Nat.min n (length c - a).
Proof. rewrite length_firstn, length_skipn. reflexivity. Qed.

Section FirstReaders.
Context {HeaderT Loc : Type}.
Variable can_alloc : Z -> list Z -> bool.
Variable loc_ltb : Loc -> Loc -> bool.
Variable UNCHeader : string -> result HeaderT.
Variable SliceHeader : string -> result (@SliceHeaderT Loc).

(** X3.  A file shorter than the 36 bytes of the address table, the empty
    file included, is refused with [struct.error]. *)
Theorem X3_short_address_table f :
  (length (contents f) < 36)%nat ->
  from_file can_alloc loc_ltb UNCHeader SliceHeader f = Raise StructError.
Proof.
  intros Hl. unfold from_file, from_file_steps, bindF at 1.
  rewrite read_addresses_eq. unfold unpack_be_i32.
  destruct (Nat.eqb_spec (length (firstn 36 (contents f))) (4 * 9)) as [E|_]; [| reflexivity].
  rewrite length_firstn in E. lia.
Qed.

Lemma from_file_title_raise f addrs f1 e :
  _read_addresses f = Ok (addrs, f1) ->
  _read_title addrs f1 = Raise e ->
  from_file can_alloc loc_ltb UNCHeader SliceHeader f = Raise e.
Proof.
  intros Ha Ht. unfold from_file, from_file_steps, bindF at 1. rewrite Ha.
  unfold bindF at 1. rewrite Ht. reflexivity.
Qed.

(** X4.  A negative title address makes the seek fail: [from_file] raises
    [OSError]. *)
Theorem X4_negative_title_address f addrs f1 a :
  _read_addresses f = Ok (addrs, f1) ->
  index addrs TITLE = Ok a ->
  a < 0 ->
  from_file can_alloc loc_ltb UNCHeader SliceHeader f = Raise OSError.
Proof.
  intros Hr Hi Ha. apply (from_file_title_raise f addrs f1 OSError Hr).
  unfold _read_title, bindF at 1. rewrite Hi. unfold liftF at 1.
  apply seek_negative. exact Ha.
Qed.

(** X5.  When fewer than 81 bytes are left at the title address, the title
    field is incomplete and [from_file] raises [struct.error]. *)
Theorem X5_truncated_title f addrs f1 a :
  _read_addresses f = Ok (addrs, f1) ->
  index addrs TITLE = Ok a ->
  0 <= a ->
  Z.of_nat (length (contents f)) < a + 81 ->
  from_file can_alloc loc_ltb UNCHeader SliceHeader f = Raise StructError.
Proof.
  intros Hr Hi Ha Hl. apply (from_file_title_raise f addrs f1 StructError Hr).
  pose proof (keeps_read_addresses _ _ _ Hr) as K.
  unfold _read_title, bindF at 1. rewrite Hi. unfold liftF at 1.
  change (SIZES "title") with 81.
  rewrite seek_read_eq by lia. rewrite K.
  unfold bindF at 1, liftF at 1, unpack_s.
  destruct (Nat.eqb_spec (length (firstn (Z.to_nat 81) (skipn (Z.to_nat a) (contents f)))) 81)
    as [E|_]; [| reflexivity].
  rewrite available_length in E. lia.
Qed.

(** X6.  A title field that holds a byte above 127 is not ASCII:
    [from_file] raises [UnicodeDecodeError]. *)
Theorem X6_title_not_ascii f addrs f1 a :
  _read_addresses f = Ok (addrs, f1) ->
  index addrs TITLE = Ok a ->
  0 <= a ->
  a + 81 <= Z.of_nat (length (contents f)) ->
  existsb (fun b => 128 <=? byte_val b) (firstn 81 (skipn (Z.to_nat a) (contents f))) = true ->
  from_file can_alloc loc_ltb UNCHeader SliceHeader f = Raise UnicodeDecodeError.
Proof.
  intros Hr Hi Ha Hl Hex. apply (from_file_title_raise f addrs f1 UnicodeDecodeError Hr).
  pose proof (keeps_read_addresses _ _ _ Hr) as K.
  unfold _read_title, bindF at 1. rewrite Hi. unfold liftF at 1.
  change (SIZES "title") with 81.
  rewrite seek_read_eq by lia. rewrite K.
  change (Z.to_nat 81) with 81%nat.
  unfold bindF at 1, liftF at 1, unpack_s.
  destruct (Nat.eqb_spec (length (firstn 81 (skipn (Z.to_nat a) (contents f)))) 81)
    as [_|E]; [| rewrite available_length in E; lia].
  unfold bindF at 1, liftF at 1, decode_ascii.
  destruct (forallb _ _) eqn:Ef; [| reflexivity].
  exfalso. apply existsb_exists in Hex as (b & Hb & Hge).
  rewrite forallb_forall in Ef. specialize (Ef b Hb).
  apply Z.leb_le in Hge. apply Z.ltb_lt in Ef. lia.
Qed.

End FirstReaders.

Lemma X3_short_address_table_witness : decode empty_file = Raise StructError.
Proof.
  apply (X3_short_address_table sample_alloc Z.ltb sample_UNCHeader sample_SliceHeader empty_file).
  cbn. lia.
Defined.

Lemma X4_negative_title_address_witness : decode bad_title_address = Raise OSError.
Proof.
  destruct (_read_addresses bad_title_address) as [[addrs f1]|e] eqn:E;
    [| vm_compute in E; discriminate].
  apply (X4_negative_title_address sample_alloc Z.ltb sample_UNCHeader sample_SliceHeader
           bad_title_address addrs f1 (-1) E); [| lia].
  vm_compute in E. injection E as <- _. reflexivity.
Defined.

Lemma X5_truncated_title_witness : decode cut_title = Raise StructError.
Proof.
  destruct (_read_addresses cut_title) as [[addrs f1]|e] eqn:E;
    [| vm_compute in E; discriminate].
  apply (X5_truncated_title sample_alloc Z.ltb sample_UNCHeader sample_SliceHeader
           cut_title addrs f1 4148 E); [| lia | vm_compute; reflexivity].
  vm_compute in E. injection E as <- _. reflexivity.
Defined.

Lemma X6_title_not_ascii_witness : decode latin_title = Raise UnicodeDecodeError.
Proof.
  destruct (_read_addresses latin_title) as [[addrs f1]|e] eqn:E;
    [| vm_compute in E; discriminate].
  apply (X6_title_not_ascii sample_alloc Z.ltb sample_UNCHeader sample_SliceHeader
           latin_title addrs f1 4148 E);
    [| lia | vm_compute; discriminate | vm_compute; reflexivity].
  vm_compute in E. injection E as <- _. reflexivity.
Defined.

(** ** Integer fields *)

Lemma byte_val_range b : 0 <= byte_val b < 256.
Proof. unfold byte_val. pose proof (Byte.to_N_bounded b). lia. Qed.

Lemma be_unsigned_acc bs : forall acc,
  0 <= acc ->
  0 <= fold_left (fun acc b => acc * 256 + byte_val b) bs acc
    < (acc + 1) * 256 ^ Z.of_nat (length bs).
Proof.
  induction bs as [|b bs IH]; intros acc Hacc.
  - cbn [fold_left length]. change (256 ^ Z.of_nat 0) with 1. lia.
  - cbn [fold_left length]. pose proof (byte_val_range b) as Hb.
    destruct (IH (acc * 256 + byte_val b) ltac:(lia)) as [H1 H2]. split; [exact H1 |].
    rewrite Nat2Z.inj_succ, Z.pow_succ_r by lia.
    assert (0 < 256 ^ Z.of_nat (length bs)) by (apply Z.pow_pos_nonneg; lia).
    nia.
Qed.

(** A big-endian two's complement field of [w] bytes lies in the range of
    the signed integers of [8 * w] bits. *)
Lemma be_signed_range bs :
  bs <> [] ->
  - 2 ^ (8 * Z.of_nat (length bs) - 1) <= be_signed bs < 2 ^ (8 * Z.of_nat (length bs) - 1).
Proof.
  intros Hne. unfold be_signed, be_unsigned.
  pose proof (be_unsigned_acc bs 0 ltac:(lia)) as [H1 H2].
  set (u := fold_left _ bs 0) in *.
  assert (Hlen : 0 < Z.of_nat (length bs)) by (destruct bs; [congruence | cbn; lia]).
  set (n := Z.of_nat (length bs)) in *.
  assert (Hpow : 256 ^ n = 2 ^ (8 * n)).
  { change 256 with (2 ^ 8). rewrite <- Z.pow_mul_r by lia. reflexivity. }
  assert (Hhalf : 2 ^ (8 * n) = 2 * 2 ^ (8 * n - 1)).
  { rewrite <- Z.pow_succ_r by lia. f_equal. lia. }
  rewrite Hpow, Hhalf in H2. rewrite Hhalf.
  destruct (Z.ltb_spec u (2 ^ (8 * n - 1))); lia.
Qed.

Lemma chunks_full sz n : forall bs,
  (n * sz <= length bs)%nat -> Forall (fun c => length c = sz) (chunks sz n bs).
Proof.
  induction n as [|n IH]; intros bs Hl; cbn [chunks]; constructor.
  - rewrite length_firstn. lia.
  - apply IH. rewrite length_skipn. lia.
Qed.

Lemma be_signed_int32 c : length c = 4%nat -> int32 (be_signed c).
Proof.
  intros Hl. pose proof (be_signed_range c) as H. rewrite Hl in H.
  change (2 ^ (8 * Z.of_nat 4 - 1)) with 2147483648 in H.
  unfold int32. destruct c; [discriminate |]. specialize (H ltac:(discriminate)). lia.
Qed.

Lemma be_signed_int16 c : length c = 2%nat -> int16 (be_signed c).
Proof.
  intros Hl. pose proof (be_signed_range c) as H. rewrite Hl in H.
  change (2 ^ (8 * Z.of_nat 2 - 1)) with 32768 in H.
  unfold int16. destruct c; [discriminate |]. specialize (H ltac:(discriminate)). lia.
Qed.

(** [struct.unpack('>Ni', bs)] returns exactly [N] integers of 32 bits. *)
Lemma unpack_be_i32_spec n bs l :
  unpack_be_i32 n bs = Ok l ->
  length bs = (4 * n)%nat /\ l = map be_signed (chunks 4 n bs) /\
  length l = n /\ Forall int32 l.
Proof.
  unfold unpack_be_i32. destruct (Nat.eqb_spec (length bs) (4 * n)) as [E|]; [| discriminate].
  intros H. injection H as <-. split; [exact E |]. split; [reflexivity |].
  split; [rewrite length_map, chunks_length; reflexivity |].
  apply Forall_map. eapply Forall_impl; [apply (chunks_full 4 n bs); lia |].
  intros c Hc. apply be_signed_int32. exact Hc.
Qed.

Lemma unpack_one bs v :
  (l <-- unpack_be_i32 1 bs ;; index l 0) = Ok v ->
  length bs = 4%nat /\ v = be_signed bs /\ int32 v.
Proof.
  intros H. apply bindR_inv in H as (l & Hl & Hi).
  apply unpack_be_i32_spec in Hl as (Hlen & -> & _ & _).
  cbn [chunks map] in Hi. unfold index in Hi. cbn in Hi. injection Hi as <-.
  rewrite firstn_all2 by lia. split; [lia |]. split; [reflexivity |].
  apply be_signed_int32. lia.
Qed.

(** A reader that seeks to its address and unpacks one field. *)
Lemma field_reader_spec {A} (addrs : list Z) (key : Z) (n : Z) (un : list byte -> result A)
    f v f' :
  0 <= n ->
  (a <- liftF (index addrs key) ;; seek_set a ;;; bs <- read n ;; liftF (un bs)) f = Ok (v, f') ->
  exists a,
    index addrs key = Ok a /\ 0 <= a /\
    un (firstn (Z.to_nat n) (skipn (Z.to_nat a) (contents f))) = Ok v.
Proof.
  intros Hn H.
  apply bindF_inv in H as (a & f1 & H1 & H). apply liftF_inv in H1 as [H1 ->].
  destruct (Z_lt_le_dec a 0) as [Hneg|Hpos].
  { rewrite seek_negative in H by assumption. discriminate. }
  rewrite seek_read_eq in H by assumption.
  apply liftF_inv in H as [H _]. eauto.
Qed.

Lemma read_at c p n :
  0 <= n ->
  read n {| contents := c; position := p |}
  = Ok (firstn (Z.to_nat n) (skipn p c),
        {| contents := c; position := (p + length (firstn (Z.to_nat n) (skipn p c)))%nat |}).
Proof.
  intros Hn. unfold read. cbn [contents position].
  destruct (Z.ltb_spec n (-1)); [lia |]. destruct (Z.eqb_spec n (-1)); [lia |]. reflexivity.
Qed.

(** The max/min section is twelve consecutive bytes: the validity flag,
    then the minimum, then the maximum. *)
Lemma read_maxmin_spec addrs f flag mn mx f' :
  _read_maxmin addrs f = Ok ((flag, mn, mx), f') ->
  exists a,
    index addrs MAXMIN = Ok a /\ 0 <= a /\
    (Z.to_nat a + 12 <= length (contents f))%nat /\
    flag = (be_signed (firstn 4 (skipn (Z.to_nat a) (contents f))) =? 1) /\
    mn = be_signed (firstn 4 (skipn (Z.to_nat a + 4) (contents f))) /\
    mx = be_signed (firstn 4 (skipn (Z.to_nat a + 8) (contents f))) /\
    int32 mn /\ int32 mx.
Proof.
  unfold _read_maxmin. intros H.
  apply bindF_inv in H as (a & f1 & H1 & H). apply liftF_inv in H1 as [H1 ->].
  destruct (Z_lt_le_dec a 0) as [Hneg|Hpos].
  { rewrite seek_negative in H by assumption. discriminate. }
  change (SIZES "validmaxmin") with 4 in H. change (SIZES "maxmin") with 8 in H.
  rewrite seek_read_eq in H by lia. change (Z.to_nat 4) with 4%nat in H.
  set (c := contents f) in *. set (p := Z.to_nat a) in *.
  apply bindF_inv in H as (fl & f2 & H2 & H). apply liftF_inv in H2 as [H2 ->].
  apply unpack_one in H2 as (Hl4 & -> & _).
  rewrite Hl4 in H.
  apply bindF_inv in H as (bs8 & f2' & Hr8 & H).
  rewrite read_at in Hr8 by lia. change (Z.to_nat 8) with 8%nat in Hr8.
  injection Hr8 as <- <-.
  apply bindF_inv in H as (mm & f3 & H3 & H). apply liftF_inv in H3 as [H3 ->].
  apply unpack_be_i32_spec in H3 as (Hl8 & -> & _ & Hr).
  cbn [chunks map] in H, Hr. apply retF_inv in H as [H _].
  injection H as -> -> ->.
  rewrite available_length in Hl4, Hl8.
  exists a. fold p. split; [exact H1 |]. split; [exact Hpos |].
  split; [lia |]. split; [reflexivity |].
  inversion Hr as [|? ? Hmn Hr']. inversion Hr' as [|? ? Hmx _]. subst.
  rewrite take_take in Hmn |- *. rewrite skipn_firstn_comm, take_take, drop_drop in Hmx |- *.
  change (4 `min` 8)%nat with 4%nat in *. change (4 `min` (8 - 4))%nat with 4%nat in *.
  replace (p + 4 + 4)%nat with (p + 8)%nat in * by lia.
  auto.
Qed.

Lemma chunks_take sz n : forall l, chunks sz n (firstn (n * sz) l) = chunks sz n l.
Proof.
  induction n as [|n IH]; intros l; cbn [chunks]; [reflexivity |].
  change (S n * sz)%nat with (sz + n * sz)%nat.
  rewrite take_take, skipn_firstn_comm. f_equal.
  - f_equal. lia.
  - replace (sz + n * sz - sz)%nat with (n * sz)%nat by lia. apply IH.
Qed.

(** The histogram section is a validity flag followed by 1024 counts. *)
Lemma read_histogram_spec addrs f flag h f' :
  _read_histogram addrs f = Ok ((flag, h), f') ->
  exists a,
    index addrs HISTO = Ok a /\ 0 <= a /\
    (Z.to_nat a + 4 + Z.to_nat 4096 <= length (contents f))%nat /\
    flag = (be_signed (firstn 4 (skipn (Z.to_nat a) (contents f))) =? 1) /\
    h = map be_signed (chunks 4 1024 (skipn (Z.to_nat a + 4) (contents f))) /\
    length h = 1024%nat /\ Forall int32 h.
Proof.
  unfold _read_histogram. intros H.
  apply bindF_inv in H as (a & f1 & H1 & H). apply liftF_inv in H1 as [H1 ->].
  destruct (Z_lt_le_dec a 0) as [Hneg|Hpos].
  { rewrite seek_negative in H by assumption. discriminate. }
  change (SIZES "validhistogram") with 4 in H. change (SIZES "histogram") with 4096 in H.
  rewrite seek_read_eq in H by lia. change (Z.to_nat 4) with 4%nat in H.
  set (c := contents f) in *. set (p := Z.to_nat a) in *.
  apply bindF_inv in H as (fl & f2 & H2 & H). apply liftF_inv in H2 as [H2 ->].
  apply unpack_one in H2 as (Hl4 & -> & _).
  rewrite Hl4 in H.
  apply bindF_inv in H as (bsh & f2' & Hrh & H).
  rewrite read_at in Hrh by lia.
  pose proof (f_equal (fun r => match r with Ok (b, _) => b | Raise _ => [] end) Hrh) as Hb.
  pose proof (f_equal (fun r => match r with Ok (_, g) => g | Raise _ => f end) Hrh) as Hg.
  cbv beta iota in Hb, Hg. subst bsh f2'. clear Hrh.
  apply bindF_inv in H as (hh & f3 & H3 & H). apply liftF_inv in H3 as [H3 ->].
  apply unpack_be_i32_spec in H3 as (Hl & Hh & Hlen & Hr).
  apply retF_inv in H as [H _].
  pose proof (f_equal fst H) as Hf. pose proof (f_equal snd H) as Hs.
  cbv beta iota delta [fst snd] in Hf, Hs. subst flag h. clear H.
  rewrite available_length in Hl4, Hl.
  exists a. fold p. split; [exact H1 |]. split; [exact Hpos |].
  split; [lia |]. split; [reflexivity |].
  split; [| split; [exact Hlen | exact Hr]].
  rewrite Hh. f_equal. clear.
  assert (E : Z.to_nat 4096 = (1024 * 4)%nat) by lia.
  rewrite E. apply chunks_take.
Qed.

(** ** The layout of the fixed sections *)

(** What a successful pass over the fixed sections did, reader by reader;
    every reader saw the bytes of the file, whatever the readers before it
    left as position. *)
Lemma fixed_sections_readers f fx f8 :
  fixed_sections f = Ok (fx, f8) ->
  exists g0 f2 g2 f3 g3 f4 g4 f5 g5 f6 g6,
    contents f2 = contents f /\ contents f3 = contents f /\ contents f4 = contents f /\
    contents f5 = contents f /\ contents f6 = contents f /\ contents f8 = contents f /\
    _read_addresses f = Ok (fx_addresses fx, g0) /\
    _read_maxmin (fx_addresses fx) f2 = Ok (fx_maxmin fx, g2) /\
    _read_histogram (fx_addresses fx) f3 = Ok (fx_histogram fx, g3) /\
    _read_pixel_format (fx_addresses fx) f4 = Ok (fx_pixel_format fx, g4) /\
    _read_dimc (fx_addresses fx) f5 = Ok (fx_dimc fx, g5) /\
    _read_dimv (fx_addresses fx) f6 = Ok (fx_dimv fx, g6).
Proof.
  unfold fixed_sections. intros E.
  apply bindF_inv in E as (addrs & f1 & E1 & E).
  apply bindF_inv in E as (ttl & f2 & E2 & E).
  apply bindF_inv in E as (mm & f3 & E3 & E).
  apply bindF_inv in E as (hh & f4 & E4 & E).
  apply bindF_inv in E as (pf & f5 & E5 & E).
  apply bindF_inv in E as (dc & f6 & E6 & E).
  apply bindF_inv in E as (dv & f7 & E7 & E).
  apply bindF_inv in E as (pc & f8' & E8 & E).
  apply retF_inv in E as [-> ->]. apply liftF_inv in E8 as [E8 ->].
  pose proof (keeps_read_addresses _ _ _ E1) as K1.
  pose proof (keeps_read_title _ _ _ _ E2) as K2.
  pose proof (keeps_read_maxmin _ _ _ _ E3) as K3.
  pose proof (keeps_read_histogram _ _ _ _ E4) as K4.
  pose proof (keeps_read_pixel_format _ _ _ _ E5) as K5.
  pose proof (keeps_read_dimc _ _ _ _ E6) as K6.
  pose proof (keeps_read_dimv _ _ _ _ E7) as K7.
  cbn [fx_addresses fx_maxmin fx_histogram fx_pixel_format fx_dimc fx_dimv].
  exists f1, f2, f3, f3, f4, f4, f5, f5, f6, f6, f7.
  repeat split; try eassumption; congruence.
Qed.

Section Assembled.
Context {HeaderT Loc : Type}.
Variable can_alloc : Z -> list Z -> bool.
Variable loc_ltb : Loc -> Loc -> bool.
Variable UNCHeader : string -> result HeaderT.
Variable SliceHeader : string -> result (@SliceHeaderT Loc).

(** A decoded volume is assembled from the results of the three stages. *)
Lemma from_file_assemble f uf :
  from_file can_alloc loc_ltb UNCHeader SliceHeader f = Ok uf ->
  exists fx f8 ii f9 px f10,
    fixed_sections f = Ok (fx, f8) /\
    contents f8 = contents f /\ contents f9 = contents f /\
    _read_info loc_ltb UNCHeader SliceHeader (fx_addresses fx) (fx_dimv fx) f8 = Ok (ii, f9) /\
    _read_pixels can_alloc (fx_addresses fx) (fx_pixel_count fx) (fx_dimc fx) (fx_dimv fx) f9
    = Ok (px, f10) /\
    uf = assemble fx ii px.
Proof.
  rewrite from_file_stages. intros H.
  destruct (fixed_sections f) as [[fx f8]|e] eqn:E1; [| discriminate].
  destruct (_read_info _ _ _ _ _ f8) as [[ii f9]|e] eqn:E2; [| discriminate].
  destruct (_read_pixels _ _ _ _ _ f9) as [[px f10]|e] eqn:E3; [| discriminate].
  injection H as <-.
  pose proof (keeps_fixed_sections _ _ _ E1) as K1.
  pose proof (keeps_read_info _ _ _ _ _ _ _ _ E2) as K2.
  exists fx, f8, ii, f9, px, f10. repeat split; try assumption; congruence.
Qed.

End Assembled.

Lemma unpack_table n bs l :
  unpack_be_i32 n bs = Ok l -> length l = n /\ Forall int32 l.
Proof. intros H. apply unpack_be_i32_spec in H as (_ & _ & Hl & Hr). auto. Qed.

Lemma read_table_spec addrs key n k f l f' :
  0 <= n ->
  (a <- liftF (index addrs key) ;; seek_set a ;;; bs <- read n ;; liftF (unpack_be_i32 k bs)) f
  = Ok (l, f') ->
  length l = k /\ Forall int32 l.
Proof.
  intros Hn H. apply field_reader_spec in H as (a & _ & _ & H); [| exact Hn].
  apply unpack_table in H. exact H.
Qed.

Lemma read_scalar_spec addrs key f v f' :
  (a <- liftF (index addrs key) ;; seek_set a ;;; bs <- read 4 ;;
   liftF (l <-- unpack_be_i32 1 bs ;; index l 0)) f = Ok (v, f') ->
  exists a,
    index addrs key = Ok a /\ 0 <= a /\
    (Z.to_nat a + 4 <= length (contents f))%nat /\
    v = be_signed (firstn 4 (skipn (Z.to_nat a) (contents f))) /\ int32 v.
Proof.
  intros H. apply field_reader_spec in H as (a & Hi & Ha & H); [| lia].
  change (Z.to_nat 4) with 4%nat in H.
  apply unpack_one in H as (Hl & -> & Hr). rewrite available_length in Hl.
  exists a. split; [exact Hi |]. split; [exact Ha |]. split; [lia |].
  split; [reflexivity | exact Hr].
Qed.

Section Layout.
Context {HeaderT Loc : Type}.
Variable can_alloc : Z -> list Z -> bool.
Variable loc_ltb : Loc -> Loc -> bool.
Variable UNCHeader : string -> result HeaderT.
Variable SliceHeader : string -> result (@SliceHeaderT Loc).

(** X7.  In every decoded volume the max/min section is the twelve bytes at
    the address [addresses[MAXMIN]], which is not negative and lies inside
    the file: [valid_maxmin] tells whether the first big-endian word is
    exactly 1, [min] is the second word and [max] the third, in that order,
    both within the signed 32-bit range. *)
Theorem X7_maxmin_layout f uf d :
  from_file can_alloc loc_ltb UNCHeader SliceHeader f = Ok uf ->
  decoded uf = Some d ->
  exists a,
    index (addresses d) MAXMIN = Ok a /\ 0 <= a /\
    (Z.to_nat a + 12 <= length (contents f))%nat /\
    valid_maxmin d = (be_signed (firstn 4 (skipn (Z.to_nat a) (contents f))) =? 1) /\
    min d = be_signed (firstn 4 (skipn (Z.to_nat a + 4) (contents f))) /\
    max d = be_signed (firstn 4 (skipn (Z.to_nat a + 8) (contents f))) /\
    int32 (min d) /\ int32 (max d).
Proof.
  intros H Hd.
  apply from_file_assemble in H as (fx & f8 & ii & f9 & px & f10 & Hfx & _ & _ & _ & _ & ->).
  cbn [assemble decoded] in Hd. injection Hd as <-.
  cbn [addresses valid_maxmin min max].
  apply fixed_sections_readers in Hfx
    as (g0 & f2 & g2 & f3 & g3 & f4 & g4 & f5 & g5 & f6 & g6
        & K2 & _ & _ & _ & _ & _ & _ & Hmm & _).
  destruct (fx_maxmin fx) as [[flag mn] mx]. cbn [fst snd].
  apply read_maxmin_spec in Hmm. rewrite K2 in Hmm. exact Hmm.
Qed.

(** X8.  In every decoded volume the tables have their fixed sizes: nine
    addresses, 1024 histogram counts and ten dimension sizes, each a signed
    32-bit integer, as are the pixel format and the dimension count; and the
    dimension count is at most ten. *)
Theorem X8_table_sizes f uf d :
  from_file can_alloc loc_ltb UNCHeader SliceHeader f = Ok uf ->
  decoded uf = Some d ->
  length (addresses d) = 9%nat /\ Forall int32 (addresses d) /\
  length (histogram d) = 1024%nat /\ Forall int32 (histogram d) /\
  length (dimv uf) = 10%nat /\ Forall int32 (dimv uf) /\
  int32 (pixel_format d) /\ int32 (dimc uf) /\ dimc uf <= 10.
Proof.
  intros H Hd.
  apply from_file_assemble in H as (fx & f8 & ii & f9 & px & f10 & Hfx & _ & _ & _ & _ & ->).
  cbn [assemble decoded] in Hd. injection Hd as <-.
  cbn [addresses histogram pixel_format dimv dimc].
  pose proof (fixed_sections_inv _ _ _ Hfx) as Hpc.
  apply calculate_pixel_count_spec in Hpc as [_ Hdc].
  apply fixed_sections_readers in Hfx
    as (g0 & f2 & g2 & f3 & g3 & f4 & g4 & f5 & g5 & f6 & g6
        & _ & _ & _ & _ & _ & _ & Ha & _ & Hh & Hpf & Hc & Hv).
  rewrite read_addresses_eq in Ha.
  destruct (unpack_be_i32 9 _) as [l|] eqn:El; [| discriminate].
  injection Ha as Ha _. rewrite <- Ha. apply unpack_table in El as [La Ra].
  destruct (fx_histogram fx) as [flag h]. cbn [snd].
  apply read_histogram_spec in Hh as (a & _ & _ & _ & _ & _ & Lh & Rh).
  apply read_scalar_spec in Hpf as (a1 & _ & _ & _ & _ & Rpf).
  apply read_scalar_spec in Hc as (a2 & _ & _ & _ & _ & Rc).
  apply read_table_spec in Hv as [Lv Rv]; [| change (SIZES "dimv") with 40; lia].
  rewrite Lv in Hdc.
  split; [exact La |]. split; [exact Ra |]. split; [exact Lh |]. split; [exact Rh |].
  split; [exact Lv |]. split; [exact Rv |]. split; [exact Rpf |]. split; [exact Rc |].
  change (fx_dimc fx <= 10). lia.
Qed.

End Layout.

Lemma X7_maxmin_layout_witness :
  exists uf d a,
    decode brain = Ok uf /\ decoded uf = Some d /\
    index (addresses d) MAXMIN = Ok a /\ 0 <= a /\
    (Z.to_nat a + 12 <= length (contents brain))%nat /\
    valid_maxmin d = (be_signed (firstn 4 (skipn (Z.to_nat a) (contents brain))) =? 1) /\
    min d = be_signed (firstn 4 (skipn (Z.to_nat a + 4) (contents brain))) /\
    max d = be_signed (firstn 4 (skipn (Z.to_nat a + 8) (contents brain))) /\
    int32 (min d) /\ int32 (max d).
Proof.
  destruct (decode brain) as [uf|e] eqn:E; [| vm_compute in E; discriminate].
  destruct (decoded uf) as [d|] eqn:Ed;
    [| vm_compute in E; injection E as <-; discriminate].
  destruct (X7_maxmin_layout sample_alloc Z.ltb sample_UNCHeader sample_SliceHeader brain uf d E Ed)
    as (a & H).
  exists uf, d, a. split; [reflexivity |]. split; [exact Ed | exact H].
Defined.

Lemma X8_table_sizes_witness :
  exists uf d,
    decode brain = Ok uf /\ decoded uf = Some d /\
    length (addresses d) = 9%nat /\ Forall int32 (addresses d) /\
    length (histogram d) = 1024%nat /\ Forall int32 (histogram d) /\
    length (dimv uf) = 10%nat /\ Forall int32 (dimv uf) /\
    int32 (pixel_format d) /\ int32 (dimc uf) /\ dimc uf <= 10.
Proof.
  destruct (decode brain) as [uf|e] eqn:E; [| vm_compute in E; discriminate].
  destruct (decoded uf) as [d|] eqn:Ed;
    [| vm_compute in E; injection E as <-; discriminate].
  exists uf, d. split; [reflexivity |]. split; [exact Ed |].
  exact (X8_table_sizes sample_alloc Z.ltb sample_UNCHeader sample_SliceHeader brain uf d E Ed).
Defined.

(** ** The pixel count in closed form *)

Lemma index_at {A} (l : list A) k :
  (k < length l)%nat -> exists x, index l (Z.of_nat k) = Ok x /\ nth_error l k = Some x.
Proof.
  intros Hk. unfold index. destruct (Z.ltb_spec (Z.of_nat k) 0); [lia |].
  destruct (Z.ltb_spec (Z.of_nat k) 0); [lia |]. rewrite Nat2Z.id.
  destruct (nth_error l k) eqn:E; [eauto |]. apply nth_error_None in E. lia.
Qed.

Lemma index_past {A} (l : list A) i :
  Z.of_nat (length l) <= i -> index l i = Raise IndexError.
Proof.
  intros Hi. unfold index. destruct (Z.ltb_spec i 0); [lia |].
  destruct (Z.ltb_spec i 0); [lia |].
  destruct (nth_error l (Z.to_nat i)) eqn:E; [| reflexivity].
  assert (Hlt : (Z.to_nat i < length l)%nat) by (apply nth_error_Some; congruence).
  lia.
Qed.

Lemma pixel_count_loop_total dimv n : forall k acc,
  (k <= length dimv)%nat ->
  foldM (fun pixel_count i => d <-- index dimv i ;; Ok (pixel_count * d))
        (map Z.of_nat (seq k n)) acc
  = if (k + n <=? length dimv)%nat then Ok (acc * prodZ (firstn n (skipn k dimv)))
    else Raise IndexError.
Proof.
  induction n as [|n IH]; intros k acc Hk; cbn [seq map foldM].
  - destruct (Nat.leb_spec (k + 0) (length dimv)); [| lia].
    change (firstn 0 (skipn k dimv)) with (@nil Z). change (prodZ []) with 1.
    f_equal. lia.
  - destruct (Nat.eq_dec k (length dimv)) as [->|Hne].
    + rewrite index_past by lia. cbn [bindR].
      destruct (Nat.leb_spec (length dimv + S n) (length dimv)); [lia | reflexivity].
    + destruct (index_at dimv k ltac:(lia)) as (x & Hx & Hn). rewrite Hx. cbn [bindR].
      rewrite IH by lia. rewrite (skipn_nth_error _ _ _ Hn).
      replace (S k + n)%nat with (k + S n)%nat by lia.
      destruct (Nat.leb_spec (k + S n) (length dimv)); [| reflexivity].
      change (prodZ (firstn (S n) (x :: skipn (S k) dimv)))
        with (x * prodZ (firstn n (skipn (S k) dimv))).
      f_equal. ring.
Qed.

(** X9.  [_calculate_pixel_count] in closed form: when [dimc] does not
    exceed the length of [dimv] the result is the product of the first
    [dimc] entries, the empty product 1 when [dimc] is zero or negative;
    otherwise the loop runs off the tuple and raises [IndexError].  No
    entry is checked for its sign. *)
Theorem X9_pixel_count_closed_form (dimc : Z) (dimv : list Z) :
  _calculate_pixel_count dimc dimv
  = if dimc <=? Z.of_nat (length dimv)
    then Ok (prodZ (firstn (Z.to_nat dimc) dimv))
    else Raise IndexError.
Proof.
  unfold _calculate_pixel_count, range.
  rewrite pixel_count_loop_total by lia.
  change (skipn 0 dimv) with dimv. rewrite Z.mul_1_l.
  destruct (Z.leb_spec dimc (Z.of_nat (length dimv)));
    destruct (Nat.leb_spec (0 + Z.to_nat dimc) (length dimv)); try reflexivity; lia.
Qed.

(** ** The samples of a decoded volume *)

Section Samples16.
Context {HeaderT Loc : Type}.
Variable can_alloc : Z -> list Z -> bool.
Variable loc_ltb : Loc -> Loc -> bool.
Variable UNCHeader : string -> result HeaderT.
Variable SliceHeader : string -> result (@SliceHeaderT Loc).

(** X10.  The pixels of every decoded volume are big-endian 16-bit
    integers, whatever the pixel format field of the file says: the array
    has that element type, as many elements as its shape announces, and
    every element lies between -32768 and 32767. *)
Theorem X10_pixels_are_int16 f uf :
  from_file can_alloc loc_ltb UNCHeader SliceHeader f = Ok uf ->
  dtype_of (pixels uf) = Int16BE /\ nd_wf (pixels uf) /\ Forall int16 (data (pixels uf)).
Proof.
  intros H. destruct (decoded_pixels _ _ _ _ _ _ H) as [Hwf Hty].
  split; [exact Hty |]. split; [exact Hwf |].
  apply from_file_inv in H
    as (d & ft & ft' & fi & fi' & fp & fp' & _ & _ & _ & _ & _ & _ & _ & _ & Hpx).
  apply read_pixels_spec in Hpx as (a & n & _ & _ & Hneg & Hpos & Hre).
  apply np_reshape_data in Hre as [-> _]. cbn [data].
  assert (Hfit : (n * 2 <= length (skipn (Z.to_nat a) (contents fp)))%nat).
  { set (len := length (skipn (Z.to_nat a) (contents fp))) in *.
    pose proof (Nat.Div0.mul_div_le len 2) as Hd.
    destruct (Z_lt_le_dec (pixel_count d) 0) as [Hc|Hc];
      [rewrite (Hneg Hc) | rewrite (Hpos Hc)]; lia. }
  apply Forall_map. eapply Forall_impl; [exact (chunks_full 2 n _ Hfit) |].
  intros c Hc. apply be_signed_int16. exact Hc.
Qed.

End Samples16.

Lemma X10_pixels_are_int16_witness :
  exists uf,
    decode brain = Ok uf /\
    dtype_of (pixels uf) = Int16BE /\ nd_wf (pixels uf) /\ Forall int16 (data (pixels uf)).
Proof.
  destruct (decode brain) as [uf|e] eqn:E; [| vm_compute in E; discriminate].
  exists uf. split; [reflexivity |].
  exact (X10_pixels_are_int16 sample_alloc Z.ltb sample_UNCHeader sample_SliceHeader brain uf E).
Defined.

(** ** The records of the info section *)

Lemma py_split_no_sep sep s :
  Forall (fun p => ~ In sep (list_ascii_of_string p)) (py_split sep s).
Proof.
  induction s as [|c r IH]; cbn [py_split].
  - constructor; [cbn; tauto | constructor].
  - destruct (Ascii.eqb c sep) eqn:E.
    + constructor; [cbn; tauto | exact IH].
    + apply Ascii.eqb_neq in E. destruct (py_split sep r) as [|p ps].
      * constructor; [| constructor]. cbn. intros [H | []]. congruence.
      * inversion IH as [|? ? Hp Hps]; subst. constructor; [| exact Hps].
        cbn. intros [H | H]; [congruence | tauto].
Qed.

Lemma info_records_spec text :
  Forall (fun r => r <> EmptyString /\ ~ In NUL (list_ascii_of_string r)) (info_records text).
Proof.
  unfold info_records. apply List.Forall_forall. intros r Hin.
  apply filter_In in Hin as [Hin Hne]. split.
  - intros ->. discriminate.
  - pose proof (py_split_no_sep NUL text) as H.
    rewrite List.Forall_forall in H. apply H. exact Hin.
Qed.

Section InfoRecords.
Context {HeaderT Loc : Type}.
Variable can_alloc : Z -> list Z -> bool.
Variable loc_ltb : Loc -> Loc -> bool.
Variable UNCHeader : string -> result HeaderT.
Variable SliceHeader : string -> result (@SliceHeaderT Loc).

(** X11.  In every decoded volume the info section is the rest of the file
    from the address [addresses[INFO]], which lies inside the file: those
    bytes are ASCII; [info] holds the pieces of that text between null
    characters, without the empty ones, so no record is empty or contains a
    null character; there is at least one record, and [header] is what the
    header parser made of the first one. *)
Theorem X11_info_records f uf d :
  from_file can_alloc loc_ltb UNCHeader SliceHeader f = Ok uf ->
  decoded uf = Some d ->
  exists a text r0,
    index (addresses d) INFO = Ok a /\
    0 <= a < Z.of_nat (length (contents f)) /\
    decode_ascii (skipn (Z.to_nat a) (contents f)) = Ok text /\
    info d = info_records text /\
    Forall (fun r => r <> EmptyString /\ ~ In NUL (list_ascii_of_string r)) (info d) /\
    nth_error (info d) 0 = Some r0 /\
    UNCHeader r0 = Ok (header uf).
Proof.
  intros H Hd.
  apply from_file_assemble in H as (fx & f8 & ii & f9 & px & f10 & _ & K8 & _ & Hi & _ & ->).
  cbn [assemble decoded] in Hd. injection Hd as <-.
  cbn [assemble addresses info header].
  apply read_info_inv in Hi as (a & text & hd & si & Ha & Hr & Ht & Hp & ->).
  rewrite K8 in Hr, Ht. cbn [fst snd].
  unfold parse_records in Hp.
  apply bindR_inv in Hp as (i0 & H0 & Hp).
  apply bindR_inv in Hp as (hd' & Hh & Hp).
  apply bindR_inv in Hp as (d0 & _ & Hp).
  apply bindR_inv in Hp as (si' & _ & Hp). injection Hp as <- <-.
  apply (index_of_nat _ 0) in H0.
  exists a, text, i0. split; [exact Ha |]. split.
  - split; [lia |].
    destruct (Z_lt_le_dec a (Z.of_nat (length (contents f)))) as [Hlt|Hge]; [exact Hlt |].
    exfalso. rewrite skipn_all2 in Ht by lia. cbn in Ht. injection Ht as <-.
    cbn in H0. discriminate.
  - split; [exact Ht |]. split; [reflexivity |].
    split; [apply info_records_spec |]. split; [exact H0 | exact Hh].
Qed.

End InfoRecords.

Lemma X11_info_records_witness :
  exists uf d a text r0,
    decode brain = Ok uf /\ decoded uf = Some d /\
    index (addresses d) INFO = Ok a /\
    0 <= a < Z.of_nat (length (contents brain)) /\
    decode_ascii (skipn (Z.to_nat a) (contents brain)) = Ok text /\
    info d = info_records text /\
    Forall (fun r => r <> EmptyString /\ ~ In NUL (list_ascii_of_string r)) (info d) /\
    nth_error (info d) 0 = Some r0 /\
    sample_UNCHeader r0 = Ok (header uf).
Proof.
  destruct (decode brain) as [uf|e] eqn:E; [| vm_compute in E; discriminate].
  destruct (decoded uf) as [d|] eqn:Ed;
    [| vm_compute in E; injection E as <-; discriminate].
  destruct (X11_info_records sample_alloc Z.ltb sample_UNCHeader sample_SliceHeader brain uf d E Ed)
    as (a & text & r0 & H).
  exists uf, d, a, text, r0. split; [reflexivity |]. split; [exact Ed | exact H].
Defined.

(** ** Where the sections of a decoded volume lie *)

Lemma read_dimv_spec addrs f dv f' :
  _read_dimv addrs f = Ok (dv, f') ->
  exists a,
    index addrs DIMV = Ok a /\ 0 <= a /\ (Z.to_nat a + 40 <= length (contents f))%nat /\
    dv = map be_signed (chunks 4 10 (skipn (Z.to_nat a) (contents f))).
Proof.
  unfold _read_dimv. change (SIZES "dimv") with 40. intros H.
  apply field_reader_spec in H as (a & Hi & Ha & H); [| lia].
  change (Z.to_nat 40) with (10 * 4)%nat in H.
  apply unpack_be_i32_spec in H as (Hl & -> & _ & _).
  rewrite available_length in Hl.
  exists a. split; [exact Hi |]. split; [exact Ha |]. split; [lia |].
  rewrite chunks_take. reflexivity.
Qed.

Section Inside.
Context {HeaderT Loc : Type}.
Variable can_alloc : Z -> list Z -> bool.
Variable loc_ltb : Loc -> Loc -> bool.
Variable UNCHeader : string -> result HeaderT.
Variable SliceHeader : string -> result (@SliceHeaderT Loc).

(** X12.  A volume is decoded only when every section lies where the
    address table says: the first eight addresses are not negative, the
    fixed-size sections (12 bytes of max/min, 4100 of histogram, 81 of
    title, 4 of pixel format, 4 of dimension count, 40 of dimension vector)
    end inside the file, and the info section starts before its end.  The
    ninth address, the version, is never followed. *)
Theorem X12_sections_inside_file f uf d :
  from_file can_alloc loc_ltb UNCHeader SliceHeader f = Ok uf ->
  decoded uf = Some d ->
  exists am ah at_ apf adc adv apx ai ver,
    addresses d = [am; ah; at_; apf; adc; adv; apx; ai; ver] /\
    Forall (fun a => 0 <= a) [am; ah; at_; apf; adc; adv; apx; ai] /\
    am + 12 <= Z.of_nat (length (contents f)) /\
    ah + 4100 <= Z.of_nat (length (contents f)) /\
    at_ + 81 <= Z.of_nat (length (contents f)) /\
    apf + 4 <= Z.of_nat (length (contents f)) /\
    adc + 4 <= Z.of_nat (length (contents f)) /\
    adv + 40 <= Z.of_nat (length (contents f)) /\
    ai < Z.of_nat (length (contents f)).
Proof.
  intros H Hd.
  pose proof (X := H).
  apply from_file_inv in X
    as (d' & ft & ft' & fi & fi' & fp & fp' & Hd' & Kt & _ & Kp & Ht & _ & _ & Hinf & Hpx).
  rewrite Hd in Hd'. injection Hd' as <-.
  apply read_title_spec in Ht as (a_t & raw & It & Pt & -> & Lt & _).
  rewrite Kt, available_length in Lt.
  apply read_pixels_spec in Hpx as (a_x & n & Ix & Px & _).
  apply from_file_assemble in H as (fx & f8 & ii & f9 & px & f10 & Hfx & K8 & _ & Hi & _ & ->).
  cbn [assemble decoded] in Hd. injection Hd as <-.
  cbn [addresses] in *.
  apply read_info_inv in Hi as (a_i & text & hd & si & Ii & Hr & Htx & Hp & _).
  assert (Pi : a_i < Z.of_nat (length (contents f))).
  { rewrite K8 in Hr, Htx.
    destruct (Z_lt_le_dec a_i (Z.of_nat (length (contents f)))) as [Hlt|Hge]; [exact Hlt |].
    exfalso. rewrite skipn_all2 in Htx by lia. cbn in Htx. injection Htx as <-.
    unfold parse_records in Hp. cbn in Hp. discriminate. }
  apply fixed_sections_readers in Hfx
    as (g0 & f2 & g2 & f3 & g3 & f4 & g4 & f5 & g5 & f6 & g6
        & K2 & K3 & K4 & K5 & K6 & _ & Ha & Hmm & Hh & Hpf & Hc & Hv).
  rewrite read_addresses_eq in Ha.
  destruct (unpack_be_i32 9 _) as [l|] eqn:El; [| discriminate].
  injection Ha as Ha _. apply unpack_table in El as [La _]. rewrite Ha in La.
  destruct (fx_maxmin fx) as [[flag mn] mx]. destruct (fx_histogram fx) as [hflag h].
  apply read_maxmin_spec in Hmm as (a_m & Im & Pm & Lm & _).
  apply read_histogram_spec in Hh as (a_h & Ih & Ph & Lh & _).
  apply read_scalar_spec in Hpf as (a_p & Ip & Pp & Lp & _).
  apply read_scalar_spec in Hc as (a_c & Ic & Pc & Lc & _).
  apply read_dimv_spec in Hv as (a_v & Iv & Pv & Lv & _).
  rewrite K2 in Lm. rewrite K3 in Lh. rewrite K4 in Lp. rewrite K5 in Lc. rewrite K6 in Lv.
  destruct (fx_addresses fx) as [|am [|ah [|at_ [|apf [|adc [|adv [|apx [|ai [|ver [|]]]]]]]]]];
    try discriminate La.
  cbn in Im, Ih, It, Ip, Ic, Iv, Ix, Ii.
  injection Im as <-. injection Ih as <-. injection It as <-. injection Ip as <-.
  injection Ic as <-. injection Iv as <-. injection Ix as <-. injection Ii as <-.
  exists am, ah, at_, apf, adc, adv, apx, ai, ver.
  split; [reflexivity |].
  split; [repeat constructor; lia |].
  assert (E : Z.to_nat 4096 = 4096%nat) by lia. rewrite E in Lh. clear E.
  repeat split; lia.
Qed.

End Inside.

Lemma X12_sections_inside_file_witness :
  exists uf d am ah at_ apf adc adv apx ai ver,
    decode brain = Ok uf /\ decoded uf = Some d /\
    addresses d = [am; ah; at_; apf; adc; adv; apx; ai; ver] /\
    Forall (fun a => 0 <= a) [am; ah; at_; apf; adc; adv; apx; ai] /\
    am + 12 <= Z.of_nat (length (contents brain)) /\
    ah + 4100 <= Z.of_nat (length (contents brain)) /\
    at_ + 81 <= Z.of_nat (length (contents brain)) /\
    apf + 4 <= Z.of_nat (length (contents brain)) /\
    adc + 4 <= Z.of_nat (length (contents brain)) /\
    adv + 40 <= Z.of_nat (length (contents brain)) /\
    ai < Z.of_nat (length (contents brain)).
Proof.
  destruct (decode brain) as [uf|e] eqn:E; [| vm_compute in E; discriminate].
  destruct (decoded uf) as [d|] eqn:Ed;
    [| vm_compute in E; injection E as <-; discriminate].
  destruct (X12_sections_inside_file sample_alloc Z.ltb sample_UNCHeader sample_SliceHeader brain uf d E Ed)
    as (am & ah & at_ & apf & adc & adv & apx & ai & ver & H).
  exists uf, d, am, ah, at_, apf, adc, adv, apx, ai, ver.
  split; [reflexivity |]. split; [exact Ed | exact H].
Defined.

(** ** Failures of the info reader *)

Section InfoFailures.
Context {HeaderT Loc : Type}.
Variable can_alloc : Z -> list Z -> bool.
Variable loc_ltb : Loc -> Loc -> bool.
Variable UNCHeader : string -> result HeaderT.
Variable SliceHeader : string -> result (@SliceHeaderT Loc).

Lemma from_file_info_raise f fx f8 e :
  fixed_sections f = Ok (fx, f8) ->
  _read_info loc_ltb UNCHeader SliceHeader (fx_addresses fx) (fx_dimv fx) f8 = Raise e ->
  from_file can_alloc loc_ltb UNCHeader SliceHeader f = Raise e.
Proof. intros Hfx Hi. rewrite from_file_stages, Hfx, Hi. reflexivity. Qed.

(** X13.  When the fixed sections have been read and the info address is
    at the end of the file or beyond it, there is no header record and
    [from_file] raises: [IndexError] from the lookup of the first record
    when the address is the length of the file or one more, [ValueError]
    from the read of a negative length when it is further out. *)
Theorem X13_info_address_past_end f fx f8 a :
  fixed_sections f = Ok (fx, f8) ->
  index (fx_addresses fx) INFO = Ok a ->
  Z.of_nat (length (contents f)) <= a ->
  from_file can_alloc loc_ltb UNCHeader SliceHeader f
  = Raise (if a <=? Z.of_nat (length (contents f)) + 1 then IndexError else ValueError).
Proof.
  intros Hfx Hi Ha. apply (from_file_info_raise f fx f8 _ Hfx).
  pose proof (keeps_fixed_sections _ _ _ Hfx) as K.
  destruct (Z.leb_spec a (Z.of_nat (length (contents f)) + 1)) as [Hle|Hgt].
  - destruct (read_info_eq loc_ltb UNCHeader SliceHeader (fx_addresses fx) (fx_dimv fx) f8 a Hi)
      as [f' E]; [rewrite K; lia |].
    rewrite E, K. rewrite skipn_all2 by lia. reflexivity.
  - unfold _read_info, bindF, seek_end, tell, seek_set, read. cbn [contents position].
    rewrite Hi. unfold liftF at 1.
    destruct (Z.ltb_spec a 0); [lia |]. cbn [contents position]. rewrite K.
    destruct (Z.ltb_spec (Z.of_nat (length (contents f)) - a) (-1)); [reflexivity | lia].
Qed.

(** X14.  When the fixed sections have been read and a byte above 127
    stands anywhere between the info address and the end of the file, the
    info text is not ASCII and [from_file] raises [UnicodeDecodeError]. *)
Theorem X14_info_not_ascii f fx f8 a :
  fixed_sections f = Ok (fx, f8) ->
  index (fx_addresses fx) INFO = Ok a ->
  0 <= a ->
  existsb (fun b => 128 <=? byte_val b) (skipn (Z.to_nat a) (contents f)) = true ->
  from_file can_alloc loc_ltb UNCHeader SliceHeader f = Raise UnicodeDecodeError.
Proof.
  intros Hfx Hi Ha Hex. apply (from_file_info_raise f fx f8 _ Hfx).
  pose proof (keeps_fixed_sections _ _ _ Hfx) as K.
  assert (Hlt : a < Z.of_nat (length (contents f))).
  { destruct (Z_lt_le_dec a (Z.of_nat (length (contents f)))) as [Hlt|Hge]; [exact Hlt |].
    rewrite skipn_all2 in Hex by lia. discriminate. }
  destruct (read_info_eq loc_ltb UNCHeader SliceHeader (fx_addresses fx) (fx_dimv fx) f8 a Hi)
    as [f' E]; [rewrite K; lia |].
  rewrite E, K. unfold decode_ascii.
  destruct (forallb _ _) eqn:Ef; [| reflexivity].
  exfalso. apply existsb_exists in Hex as (b & Hb & Hge).
  rewrite forallb_forall in Ef. specialize (Ef b Hb).
  apply Z.leb_le in Hge. apply Z.ltb_lt in Ef. lia.
Qed.

End InfoFailures.

Lemma X13_info_address_past_end_witness :
  decode info_at_end = Raise IndexError /\ decode info_far = Raise ValueError.
Proof.
  split.
  - destruct (fixed_sections info_at_end) as [[fx f8]|e] eqn:E;
      [| vm_compute in E; discriminate].
    apply (X13_info_address_past_end sample_alloc Z.ltb sample_UNCHeader sample_SliceHeader
             info_at_end fx f8 (Z.of_nat (length (contents info_at_end))) E); [| lia].
    vm_compute in E. injection E as <- _. reflexivity.
  - destruct (fixed_sections info_far) as [[fx f8]|e] eqn:E;
      [| vm_compute in E; discriminate].
    apply (X13_info_address_past_end sample_alloc Z.ltb sample_UNCHeader sample_SliceHeader
             info_far fx f8 (Z.of_nat (length (contents info_far)) + 5) E); [| lia].
    vm_compute in E. injection E as <- _. reflexivity.
Defined.

Lemma X14_info_not_ascii_witness : decode latin_info = Raise UnicodeDecodeError.
Proof.
  destruct (fixed_sections latin_info) as [[fx f8]|e] eqn:E;
    [| vm_compute in E; discriminate].
  apply (X14_info_not_ascii sample_alloc Z.ltb sample_UNCHeader sample_SliceHeader
           latin_info fx f8 4309 E); [| lia | vm_compute; reflexivity].
  vm_compute in E. injection E as <- _. reflexivity.
Defined.

(** ** Ties in the sort of the slice records *)

Section Stable.
Context {A K : Type} (ltb : K -> K -> bool) (key : A -> K).
Hypothesis ltb_negtrans : forall x y z, ltb y x = false -> ltb z y = false -> ltb z x = false.

Lemma same_key_not_below k x y :
  same_key ltb key k x = true -> same_key ltb key k y = true -> ltb (key y) (key x) = false.
Proof.
  unfold same_key. intros Hx Hy.
  apply andb_true_iff in Hx as [_ Hx]. apply andb_true_iff in Hy as [Hy _].
  apply negb_true_iff in Hx, Hy. exact (ltb_negtrans _ _ _ Hx Hy).
Qed.

Lemma insert_by_stable k x l :
  List.filter (same_key ltb key k) (insert_by ltb key x l)
  = List.filter (same_key ltb key k) (x :: l).
Proof.
  induction l as [|y l IH]; [reflexivity |].
  cbn [insert_by]. destruct (ltb (key y) (key x)) eqn:E; [| reflexivity].
  cbn [List.filter] in *. rewrite IH.
  destruct (same_key ltb key k y) eqn:Ey; [| reflexivity].
  destruct (same_key ltb key k x) eqn:Ex; [| reflexivity].
  rewrite (same_key_not_below k x y Ex Ey) in E. discriminate.
Qed.

Lemma sort_by_stable k l :
  List.filter (same_key ltb key k) (sort_by ltb key l) = List.filter (same_key ltb key k) l.
Proof.
  induction l as [|x l IH]; [reflexivity |].
  cbn [sort_by fold_right]. rewrite insert_by_stable.
  cbn [List.filter]. fold (sort_by ltb key l). rewrite IH. reflexivity.
Qed.

End Stable.

Section StableSlices.
Context {HeaderT Loc : Type}.
Variable can_alloc : Z -> list Z -> bool.
Variable loc_ltb : Loc -> Loc -> bool.
Variable UNCHeader : string -> result HeaderT.
Variable SliceHeader : string -> result (@SliceHeaderT Loc).

(** X15.  The sort of the slice records is stable.  Provided [>=] on slice
    locations is transitive, the records of a decoded volume whose
    locations tie with a given one stand in [slice_info] in the order they
    have in the info section. *)
Theorem X15_ties_keep_file_order f uf d d0 parsed :
  (forall x y z, loc_ltb y x = false -> loc_ltb z y = false -> loc_ltb z x = false) ->
  from_file can_alloc loc_ltb UNCHeader SliceHeader f = Ok uf ->
  decoded uf = Some d ->
  index (dimv uf) 0 = Ok d0 ->
  mapM (fun i => r <-- index (info d) i ;; SliceHeader r) (range2 1 (d0 + 1)) = Ok parsed ->
  forall k,
    List.filter (same_key loc_ltb slice_location k) (slice_info uf)
    = List.filter (same_key loc_ltb slice_location k) parsed.
Proof.
  intros Htr H Hd Hd0 Hm k.
  apply from_file_assemble in H as (fx & f8 & ii & f9 & px & f10 & _ & _ & _ & Hi & _ & ->).
  cbn [assemble decoded] in Hd. injection Hd as <-.
  cbn [assemble dimv info slice_info] in *.
  apply read_info_inv in Hi as (a & text & hd & si & _ & _ & _ & Hp & ->).
  cbn [fst snd] in *.
  unfold parse_records in Hp.
  apply bindR_inv in Hp as (i0 & _ & Hp). apply bindR_inv in Hp as (hd' & _ & Hp).
  apply bindR_inv in Hp as (d0' & Hd0' & Hp). apply bindR_inv in Hp as (parsed' & Hm' & Hp).
  injection Hp as _ <-.
  rewrite Hd0 in Hd0'. injection Hd0' as <-.
  rewrite Hm in Hm'. injection Hm' as <-.
  apply sort_by_stable. exact Htr.
Qed.

End StableSlices.

Lemma X15_ties_keep_file_order_witness :
  exists uf parsed,
    decode ties = Ok uf /\
    map slice_location parsed = [98; 97; 98; 97] /\
    map slice_location (slice_info uf) = [97; 97; 98; 98] /\
    forall k,
      List.filter (same_key Z.ltb slice_location k) (slice_info uf)
      = List.filter (same_key Z.ltb slice_location k) parsed.
Proof.
  destruct (decode ties) as [uf|e] eqn:E; [| vm_compute in E; discriminate].
  destruct (decoded uf) as [d|] eqn:Ed;
    [| vm_compute in E; injection E as <-; discriminate].
  destruct (mapM (fun i => r <-- index (info d) i ;; sample_SliceHeader r) (range2 1 (4 + 1)))
    as [parsed|e] eqn:Em;
    [| vm_compute in E; injection E as <-; vm_compute in Ed; injection Ed as <-;
       vm_compute in Em; discriminate].
  assert (Htrans : forall x y z, Z.ltb y x = false -> Z.ltb z y = false -> Z.ltb z x = false).
  { intros x y z H1 H2. apply Z.ltb_ge in H1, H2. apply Z.ltb_ge. lia. }
  assert (Hd0 : index (dimv uf) 0 = Ok 4).
  { vm_compute in E. injection E as <-. reflexivity. }
  exists uf, parsed. split; [reflexivity |]. split.
  { vm_compute in E. injection E as <-. vm_compute in Ed. injection Ed as <-.
    vm_compute in Em. injection Em as <-. reflexivity. }
  split.
  { vm_compute in E. injection E as <-. reflexivity. }
  exact (X15_ties_keep_file_order sample_alloc Z.ltb sample_UNCHeader sample_SliceHeader
           ties uf d 4 parsed Htrans E Ed Hd0 Em).
Defined.

(** ** Degenerate numbers of parts *)

Lemma size_list_to_set_le (l : list pyval) :
  (size (list_to_set l : gset pyval) <= length l)%nat.
Proof.
  induction l as [|x l IH]; cbn [list_to_set length].
  - rewrite size_empty. lia.
  - rewrite size_union_alt, size_singleton.
    assert (Hsub : (list_to_set l ∖ {[x]} : gset pyval) ⊆ list_to_set l)
      by (apply subseteq_difference_l; reflexivity).
    apply subseteq_size in Hsub. lia.
Qed.

Section Counts.
Context {HeaderT Loc : Type}.
Variable can_alloc : Z -> list Z -> bool.
Variable uninit : nat -> Z.

(** X16.  [num_echoes] is never negative and never exceeds the number of
    slice records, and it is 0 exactly when there is no slice record. *)
Theorem X16_num_echoes_bounds (uf : @UNCFile HeaderT Loc) :
  0 <= num_echoes uf <= Z.of_nat (length (slice_info uf)) /\
  (num_echoes uf = 0 <-> slice_info uf = []).
Proof.
  unfold num_echoes.
  pose proof (size_list_to_set_le (map echo_number_or_0 (slice_info uf))) as Hle.
  rewrite length_map in Hle. split; [lia |]. split.
  - intros H0. destruct (slice_info uf) as [|s l]; [reflexivity |]. exfalso.
    assert (Hs : size (list_to_set (map echo_number_or_0 (s :: l)) : gset pyval) = 0%nat) by lia.
    apply size_empty_iff in Hs. cbn [map list_to_set] in Hs. set_solver.
  - intros ->. reflexivity.
Qed.

(** X17.  On a volume whose pixel array has at least one axis,
    [split_volumes(0)] raises [ZeroDivisionError], and so does
    [split_echoes] when the volume has no slice record; with three axes or
    more, a negative number of volumes is refused with the [ValueError] of
    the array constructor. *)
Theorem X17_no_parts (uf : @UNCFile HeaderT Loc) :
  shape (pixels uf) <> [] ->
  split_volumes can_alloc uninit uf 0 = Raise ZeroDivisionError /\
  (slice_info uf = [] -> split_echoes can_alloc uninit uf = Raise ZeroDivisionError) /\
  (forall n_vols, n_vols < 0 -> (3 <= length (shape (pixels uf)))%nat ->
                  split_volumes can_alloc uninit uf n_vols = Raise ValueError).
Proof.
  intros Hne. destruct (shape (pixels uf)) as [|d0 rest] eqn:Es; [congruence |].
  split; [| split].
  - unfold split_volumes. rewrite Es. reflexivity.
  - intros Hsi. unfold split_echoes, num_echoes. rewrite Es, Hsi. reflexivity.
  - intros n_vols Hn Hr. unfold split_volumes. rewrite Es.
    destruct rest as [|d1 [|d2 rest]]; cbn [length] in Hr; try lia.
    change (index (d0 :: d1 :: d2 :: rest) 0) with (Ok (A := nat) d0).
    change (index (d0 :: d1 :: d2 :: rest) 1) with (Ok (A := nat) d1).
    change (index (d0 :: d1 :: d2 :: rest) 2) with (Ok (A := nat) d2).
    cbn [bindR]. unfold int_truediv.
    destruct (Z.eqb_spec n_vols 0); [lia |]. cbn [bindR].
    unfold np_ndarray, np_new. cbn [existsb].
    destruct (Z.ltb_spec n_vols 0); [| lia]. reflexivity.
Qed.

End Counts.

Lemma X17_no_parts_witness :
  exists uf,
    decode brain = Ok uf /\
    volumes uf 0 = Raise ZeroDivisionError /\
    (slice_info uf = [] -> echoes uf = Raise ZeroDivisionError) /\
    (forall n_vols, n_vols < 0 -> (3 <= length (shape (pixels uf)))%nat ->
                    volumes uf n_vols = Raise ValueError).
Proof.
  destruct (decode brain) as [uf|e] eqn:E; [| vm_compute in E; discriminate].
  exists uf. split; [reflexivity |].
  apply (X17_no_parts sample_alloc zero_mem uf).
  vm_compute in E. injection E as <-. discriminate.
Defined.

(** * Further properties of the partition operations *)

(** ** Records without an echo number *)

Lemma num_echoes_pos {HeaderT Loc : Type} (uf : @UNCFile HeaderT Loc) :
  slice_info uf <> [] -> 0 < num_echoes uf.
Proof.
  intros Hne. unfold num_echoes.
  destruct (slice_info uf) as [|s l]; [congruence |].
  assert (Hs : size (list_to_set (map echo_number_or_0 (s :: l)) : gset pyval) <> 0%nat).
  { intros H0. apply size_empty_iff in H0. cbn [map list_to_set] in H0. set_solver. }
  lia.
Qed.

Lemma select_echo_missing {HeaderT Loc : Type} (uf : @UNCFile HeaderT Loc) n :
  (exists s, In s (slice_info uf) /\ dicom_header s !! "Echo Number" = None) ->
  select_echo uf n = Raise KeyError.
Proof.
  unfold select_echo. induction (slice_info uf) as [|x l IH]; intros (s & Hin & Hs).
  - destruct Hin.
  - cbn [filterM]. unfold dict_getitem at 1.
    destruct (dicom_header x !! "Echo Number") as [v|] eqn:Ex; [| reflexivity].
    cbn [bindR]. destruct Hin as [-> | Hin]; [congruence |].
    rewrite IH by eauto. reflexivity.
Qed.

Section MissingEcho.
Context {HeaderT Loc : Type}.
Variable can_alloc : Z -> list Z -> bool.
Variable uninit : nat -> Z.

(** X18.  On a volume with three pixel axes, for which NumPy can create
    the working array of shape
    [(num_echoes, slices_per_echo, shape[1], shape[2])] (its size fits
    [intp] and the allocator grants it), [split_echoes] raises [KeyError] as
    soon as one slice record has no "Echo Number" entry: the default 0 that
    [num_echoes] uses for such a record is not used by the selection of the
    records. *)
Theorem X18_missing_echo_number (uf : @UNCFile HeaderT Loc) d0 d1 d2 :
  shape (pixels uf) = [d0; d1; d2] ->
  nd_wf (pixels uf) ->
  (exists s, In s (slice_info uf) /\ dicom_header s !! "Echo Number" = None) ->
  np_fits 8 (split_shape d0 d1 d2 (num_echoes uf)) = true ->
  can_alloc 8 (split_shape d0 d1 d2 (num_echoes uf)) = true ->
  split_echoes can_alloc uninit uf = Raise KeyError.
Proof.
  intros Hshape Hwf Hmiss Hfits Halloc.
  assert (Hpos : 0 < num_echoes uf).
  { apply num_echoes_pos. destruct Hmiss as (s & Hin & _).
    destruct (slice_info uf); [destruct Hin | discriminate]. }
  pose proof (split_array_new can_alloc d0 d1 d2 (num_echoes uf) Hpos Hfits Halloc) as Hnew.
  rewrite split_echoes_partition.
  rewrite <- (Z2Nat.id (num_echoes uf)) in Hnew |- * by lia.
  rewrite (partition_eq can_alloc uninit uf d0 d1 d2 [] (Z.to_nat (num_echoes uf)) (select_echo uf)
             Hshape ltac:(lia) Hnew Hwf (or_introl eq_refl)).
  unfold range. rewrite Nat2Z.id.
  destruct (Z.to_nat (num_echoes uf)) as [|p] eqn:Ep; [lia |].
  cbn [seq map mapM]. rewrite select_echo_missing by exact Hmiss. reflexivity.
Qed.

End MissingEcho.

Lemma X18_missing_echo_number_witness :
  exists uf,
    decode no_echo = Ok uf /\ num_echoes uf = 2 /\ echoes uf = Raise KeyError.
Proof.
  destruct (decode no_echo) as [uf|e] eqn:E; [| vm_compute in E; discriminate].
  exists uf. split; [reflexivity |].
  split; [vm_compute in E; injection E as <-; vm_compute; reflexivity |].
  apply (X18_missing_echo_number sample_alloc zero_mem uf 2 1 1).
  - vm_compute in E. injection E as <-. reflexivity.
  - vm_compute in E. injection E as <-. reflexivity.
  - vm_compute in E. injection E as <-.
    eexists. split; [right; left; reflexivity | vm_compute; reflexivity].
  - vm_compute in E. injection E as <-. vm_compute. reflexivity.
  - vm_compute in E. injection E as <-. vm_compute. reflexivity.
Defined.

(** ** A slice count that is not a multiple of the number of parts *)

Section Uneven.
Context {HeaderT Loc : Type}.
Variable can_alloc : Z -> list Z -> bool.
Variable uninit : nat -> Z.



End Uneven.


(** ** Echo numbers outside 1 .. [num_echoes] *)

Section Selection.
Context {HeaderT Loc : Type}.
Variable can_alloc : Z -> list Z -> bool.
Variable uninit : nat -> Z.

(** X20.  On a volume with three pixel axes and at least one slice record,
    where every record has an "Echo Number" entry and NumPy can create the
    working array of shape
    [(num_echoes, slices_per_echo, shape[1], shape[2])] (its size fits
    [intp] and the allocator grants it), [split_echoes] succeeds
    and returns [num_echoes] parts, the [n]-th with the records whose echo
    number is the integer [n + 1], in their original order.  A record is in
    some part exactly when its echo number is an integer between 1 and
    [num_echoes]: the records with any other echo number are in no part. *)
Theorem X20_split_echoes_selection (uf : @UNCFile HeaderT Loc) d0 d1 d2 :
  shape (pixels uf) = [d0; d1; d2] ->
  nd_wf (pixels uf) ->
  slice_info uf <> [] ->
  (forall s, In s (slice_info uf) -> exists v, dicom_header s !! "Echo Number" = Some v) ->
  np_fits 8 (split_shape d0 d1 d2 (num_echoes uf)) = true ->
  can_alloc 8 (split_shape d0 d1 d2 (num_echoes uf)) = true ->
  exists rs,
    split_echoes can_alloc uninit uf = Ok rs /\
    Z.of_nat (length rs) = num_echoes uf /\
    (forall n r, nth_error rs n = Some r ->
       slice_info r
       = List.filter
           (fun s => bool_decide (dicom_header s !! "Echo Number" = Some (VInt (Z.of_nat n + 1))))
           (slice_info uf)) /\
    (forall s, In s (slice_info uf) ->
       (exists r, In r rs /\ In s (slice_info r)) <->
       (exists k, 1 <= k <= num_echoes uf /\ dicom_header s !! "Echo Number" = Some (VInt k))).
Proof.
  intros Hshape Hwf Hne Hall Hfits Halloc.
  pose proof (num_echoes_pos uf Hne) as Hpos.
  pose proof (split_array_new can_alloc d0 d1 d2 (num_echoes uf) Hpos Hfits Halloc) as Hnew.
  clear Hfits Halloc.
  set (parts := Z.to_nat (num_echoes uf)).
  assert (Hn : num_echoes uf = Z.of_nat parts) by (unfold parts; lia).
  assert (Hparts : (0 < parts)%nat) by (unfold parts; lia).
  rewrite Hn in Hnew |- *. clearbody parts.
  set (chosen := fun k : nat =>
         List.filter
           (fun s => bool_decide (dicom_header s !! "Echo Number" = Some (VInt (Z.of_nat k + 1))))
           (slice_info uf)).
  exists (map (fun k => part_of uf (d0 / parts) d1 d2 (prodn [d1; d2]) k (chosen k))
              (seq 0 parts)).
  split.
  { rewrite split_echoes_partition, Hn.
    apply (partition_three_axes can_alloc uninit uf d0 d1 d2 parts Hshape Hwf Hparts Hnew
             _ chosen).
    intros k _. apply select_echo_total. exact Hall. }
  split; [rewrite length_map, length_seq; reflexivity |].
  split.
  - intros n r Hr. apply nth_error_parts in Hr as [_ ->]. reflexivity.
  - intros s Hs. split.
    + intros (r & Hr & Hin). apply in_map_iff in Hr as (k & <- & Hk). apply in_seq in Hk.
      cbn [part_of slice_info] in Hin. unfold chosen in Hin.
      apply filter_In in Hin as [_ Hb]. apply bool_decide_eq_true in Hb.
      exists (Z.of_nat k + 1). split; [lia | exact Hb].
    + intros (k & Hk & Hv).
      exists (part_of uf (d0 / parts) d1 d2 (prodn [d1; d2]) (Z.to_nat (k - 1))
                (chosen (Z.to_nat (k - 1)))).
      split.
      * apply in_map_iff. exists (Z.to_nat (k - 1)). split; [reflexivity |].
        apply in_seq. lia.
      * cbn [part_of slice_info]. unfold chosen. apply filter_In. split; [exact Hs |].
        apply bool_decide_eq_true. rewrite Hv. do 2 f_equal. lia.
Qed.

End Selection.

Lemma X20_split_echoes_selection_witness :
  exists uf rs,
    decode gap_echo = Ok uf /\
    echoes uf = Ok rs /\
    map (fun s => dicom_header s !! "Echo Number") (slice_info uf)
    = [Some (VInt 1); Some (VInt 3)] /\
    num_echoes uf = 2 /\
    Z.of_nat (length rs) = num_echoes uf /\
    forall s, In s (slice_info uf) ->
      (exists r, In r rs /\ In s (slice_info r)) <->
      (exists k, 1 <= k <= num_echoes uf /\ dicom_header s !! "Echo Number" = Some (VInt k)).
Proof.
  destruct (decode gap_echo) as [uf|e] eqn:E; [| vm_compute in E; discriminate].
  assert (Hs : shape (pixels uf) = [2; 1; 1]%nat /\ nd_wf (pixels uf) /\
               map (fun s => dicom_header s !! "Echo Number") (slice_info uf)
               = [Some (VInt 1); Some (VInt 3)] /\
               num_echoes uf = 2).
  { vm_compute in E. injection E as <-. repeat split; vm_compute; reflexivity. }
  destruct Hs as (Hs & Hwf & Hmap & Hnum).
  destruct (X20_split_echoes_selection sample_alloc zero_mem uf 2 1 1 Hs Hwf) as (rs & H1 & H2 & _ & H4).
  - intros Hnil. rewrite Hnil in Hmap. discriminate.
  - intros s Hin.
    apply (in_map (fun s => dicom_header s !! "Echo Number")) in Hin. rewrite Hmap in Hin.
    destruct Hin as [<- | [<- | []]]; eauto.
  - rewrite Hnum. reflexivity.
  - rewrite Hnum. reflexivity.
  - exists uf, rs. split; [reflexivity |]. split; [exact H1 |]. split; [exact Hmap |].
    split; [exact Hnum |]. split; [exact H2 | exact H4].
Defined.
